(** * LogSplitter Monitor: telemetry frame decoder and basket-exchange correlator

    A shallow embedding of
    - [utils/mqtt_protobuf_decoder.py]  (class [LogSplitterProtobufDecoder]),
    - [utils/verify_protobuf_stream.py] (function [validate_message]),
    - [utils/archived/basket_exchange_metrics.py] (class [BasketExchangeAnalyzer]),
    - [utils/basket_metrics_dashboard.py] (class [BasketMetricsDashboard]),
    followed by the properties of the decoder, the sequence tracker, the window
    identifiers and the window classifier.

    Conventions.  A [bytes] object is a [list byte]; Python integers are [Z];
    a [dict] with string keys is a [gmap string _]; Python floats are binary64
    primitive floats; a [datetime] is the number of microseconds since the
    epoch (the resolution of [datetime]), so that [timedelta(seconds=n)] is
    [n * 1000000]. *)

From Stdlib Require Import ZArith List String Ascii Bool Lia.
From Stdlib Require Import Strings.Byte.
From Stdlib Require Floats.PrimFloat.
From stdpp Require Import base option list gmap strings pretty sorting.

Set Warnings "-inexact-float".
Local Open Scope Z_scope.

(** ** Python primitives used by the scripts *)

Module Py.

(** The exceptions the decoder's body can raise. *)
Inductive Exception : Type :=
| IndexError      (* bytes index out of range *)
| KeyError        (* dict[key] on a missing key *)
| TypeError       (* arithmetic on None *)
| StructError.    (* struct.error: buffer size differs from the format's *)

Inductive Outcome (A : Type) : Type :=
| Returns (a : A)
| Raises (e : Exception).
Arguments Returns {A} a.
Arguments Raises {A} e.

(** Sequencing of statements that may raise: the first exception raised
    propagates. *)
#[global] Instance Outcome_ret : MRet Outcome := fun A a => Returns a.
#[global] Instance Outcome_bind : MBind Outcome := fun A B k m =>
  match m with
  | Returns a => k a
  | Raises e => Raises e
  end.

Definition len {A} (l : list A) : Z := Z.of_nat (length l).

Definition byte_val (b : byte) : Z := Z.of_N (Byte.to_N b).

(** [data[i]] for a non-negative constant [i]. *)
Definition index (data : list byte) (i : nat) : Outcome Z :=
  match data !! i with
  | Some b => Returns (byte_val b)
  | None => Raises IndexError
  end.

(** [data[i:j]] and [data[i:]] for non-negative [i], [j]: slices never raise. *)
Definition slice {A} (i j : nat) (l : list A) : list A := take (j - i) (drop i l).
Definition slice_from {A} (i : nat) (l : list A) : list A := drop i l.

(** Little-endian unsigned integer held by a run of bytes. *)
Fixpoint le_uint (bs : list byte) : Z :=
  match bs with
  | [] => 0
  | b :: rest => byte_val b + 256 * le_uint rest
  end.

(** [struct.unpack(fmt, buf)]: raises [struct.error] unless [len(buf)] is
    exactly the size of the format. *)
Definition unpack_BBB (buf : list byte) : Outcome (Z * Z * Z) :=
  match buf with
  | [a; b; c] => Returns (byte_val a, byte_val b, byte_val c)
  | _ => Raises StructError
  end.

Definition unpack_BBH (buf : list byte) : Outcome (Z * Z * Z) :=
  match buf with
  | [a; b; h0; h1] => Returns (byte_val a, byte_val b, le_uint [h0; h1])
  | _ => Raises StructError
  end.

Definition unpack_L (buf : list byte) : Outcome Z :=
  match buf with
  | [a; b; c; d] => Returns (le_uint [a; b; c; d])
  | _ => Raises StructError
  end.

(** ['<f']: the four bytes of an IEEE-754 binary32 value; the value is kept
    as its 32-bit pattern. *)
Definition unpack_f (buf : list byte) : Outcome Z :=
  match buf with
  | [a; b; c; d] => Returns (le_uint [a; b; c; d])
  | _ => Raises StructError
  end.

Definition unpack_LHHBBH (buf : list byte) : Outcome (Z * Z * Z * Z * Z * Z) :=
  match buf with
  | [l0; l1; l2; l3; h0; h1; g0; g1; a; b; r0; r1] =>
      Returns (le_uint [l0; l1; l2; l3], le_uint [h0; h1], le_uint [g0; g1],
               byte_val a, byte_val b, le_uint [r0; r1])
  | _ => Raises StructError
  end.

(** [bool(flags & mask)] *)
Definition bit_set (flags mask : Z) : bool := negb (Z.land flags mask =? 0).

(** Hexadecimal formatting of a byte value: [f'{n:02X}'] and [bytes.hex()]. *)
Definition hex_digit (alphabet : string) (d : Z) : string :=
  match String.get (Z.to_nat d) alphabet with
  | Some c => String c EmptyString
  | None => EmptyString
  end.
Definition hex02X (n : Z) : string :=
  hex_digit "0123456789ABCDEF" (n / 16) +:+ hex_digit "0123456789ABCDEF" (n mod 16).
Definition hex02x (n : Z) : string :=
  hex_digit "0123456789abcdef" (n / 16) +:+ hex_digit "0123456789abcdef" (n mod 16).
Definition bytes_hex (bs : list byte) : string :=
  foldr (fun b acc => hex02x (byte_val b) +:+ acc) EmptyString bs.

(** [bs.decode('ascii', errors='ignore').rstrip('\x00')] *)
Definition decode_ascii_ignore (bs : list byte) : list ascii :=
  map ascii_of_byte (filter (fun b => byte_val b < 128) bs).
Fixpoint lstrip_nul (cs : list ascii) : list ascii :=
  match cs with
  | c :: rest => if Ascii.eqb c Ascii.zero then lstrip_nul rest else cs
  | [] => []
  end.
Definition rstrip_nul (cs : list ascii) : list ascii := rev (lstrip_nul (rev cs)).
Definition decode_description (bs : list byte) : string :=
  string_of_list_ascii (rstrip_nul (decode_ascii_ignore bs)).

(** The scalar values found in the decoded payload dictionaries that the
    telemetry database stores as JSON. *)
Inductive json : Type :=
| JNull
| JBool (b : bool)
| JNum (n : Z)
| JStr (s : string).

#[global] Instance json_eq_dec : EqDecision json.
Proof. solve_decision. Defined.

(** [timedelta(seconds=n)], in microseconds. *)
Definition seconds (n : Z) : Z := n * 1000000.

(** [min(a, b)] and [max(a, b)] on floats: the first argument is kept unless
    the second is strictly smaller (resp. larger). *)
Definition fmin (a b : PrimFloat.float) : PrimFloat.float :=
  if PrimFloat.ltb b a then b else a.
Definition fmax (a b : PrimFloat.float) : PrimFloat.float :=
  if PrimFloat.ltb a b then b else a.

End Py.


(** ** [mqtt_protobuf_decoder.py]: class [LogSplitterProtobufDecoder] *)

Module Decoder.
Import Py.

(** *** The dictionaries the payload handlers return

    The float-valued display fields that are recomputed from an integer field
    of the same dictionary ([timestamp_sec], [uptime_seconds],
    [uptime_minutes], [elapsed_time_sec]) are left out; [pressure_psi] is
    carried as the 32-bit pattern read from the wire. *)

Record DigitalInput : Type := {
  di_pin : Z;
  di_state : bool;
  di_state_name : string;
  di_is_debounced : bool;
  di_input_type : Z;
  di_input_type_name : string;
  di_debounce_time_ms : Z }.

Record DigitalOutput : Type := {
  do_pin : Z;
  do_state : bool;
  do_state_name : string;
  do_output_type : Z;
  do_output_type_name : string;
  do_mill_lamp_pattern : Z;
  do_mill_lamp_pattern_name : string }.

Record RelayEvent : Type := {
  re_relay_number : Z;
  re_relay_name : string;
  re_state : bool;
  re_state_name : string;
  re_is_manual : bool;
  re_operation_mode : string;
  re_success : bool;
  re_success_name : string;
  re_relay_type : Z;
  re_relay_type_name : string }.

Record Pressure : Type := {
  pr_sensor_pin : Z;
  pr_sensor_name : string;
  pr_is_fault : bool;
  pr_fault_status : string;
  pr_pressure_type : Z;
  pr_pressure_type_name : string;
  pr_raw_adc_value : Z;
  pr_pressure_psi_bits : Z }.

Record SystemError : Type := {
  er_error_code : Z;
  er_error_code_hex : string;
  er_error_name : string;
  er_acknowledged : bool;
  er_active : bool;
  er_severity : Z;
  er_severity_name : string;
  er_description : string }.

Record SafetyEvent : Type := {
  sf_event_type : Z;
  sf_event_type_name : string;
  sf_is_active : bool;
  sf_status : string }.

Record SystemStatus : Type := {
  ss_uptime_ms : Z;
  ss_loop_frequency_hz : Z;
  ss_free_memory_bytes : Z;
  ss_active_error_count : Z;
  ss_safety_active : bool;
  ss_estop_active : bool;
  ss_sequence_state : Z;
  ss_sequence_state_name : string;
  ss_mill_lamp_pattern : Z;
  ss_mill_lamp_pattern_name : string }.

Record SequenceEvent : Type := {
  sq_event_type : Z;
  sq_event_type_name : string;
  sq_step_number : Z;
  sq_elapsed_time_ms : Z }.

Inductive Payload : Type :=
| PDigitalInput (p : DigitalInput)
| PDigitalOutput (p : DigitalOutput)
| PRelayEvent (p : RelayEvent)
| PPressure (p : Pressure)
| PSystemError (p : SystemError)
| PSafetyEvent (p : SafetyEvent)
| PSystemStatus (p : SystemStatus)
| PSequenceEvent (p : SequenceEvent).

(** The dictionary [decode_message] returns. *)
Record Message : Type := {
  msg_size : Z;
  msg_type : Z;
  msg_type_name : string;
  msg_sequence : Z;
  msg_timestamp : Z;
  msg_payload : option Payload;
  msg_raw_payload_hex : string }.

(** *** Name lookup methods ([dict.get(key, default)]) *)

Definition type_names : gmap Z string :=
  list_to_map [
    (0x10, "DIGITAL_INPUT");
    (0x11, "DIGITAL_OUTPUT");
    (0x12, "RELAY_EVENT");
    (0x13, "PRESSURE");
    (0x14, "SYSTEM_ERROR");
    (0x15, "SAFETY_EVENT");
    (0x16, "SYSTEM_STATUS");
    (0x17, "SEQUENCE_EVENT")
  ].

Definition _get_type_name (msg_type : Z) : string :=
  default ("UNKNOWN_0x" +:+ hex02X msg_type) (type_names !! msg_type).

Definition input_type_names : gmap Z string :=
  list_to_map [
    (0x00, "UNKNOWN");
    (0x01, "MANUAL_EXTEND");
    (0x02, "MANUAL_RETRACT");
    (0x03, "SAFETY_CLEAR");
    (0x04, "SEQUENCE_START");
    (0x05, "LIMIT_EXTEND");
    (0x06, "LIMIT_RETRACT");
    (0x07, "SPLITTER_OPERATOR");
    (0x08, "EMERGENCY_STOP")
  ].

Definition _get_input_type_name (input_type : Z) : string :=
  default ("UNKNOWN_" +:+ pretty input_type) (input_type_names !! input_type).

Definition output_type_names : gmap Z string :=
  list_to_map [
    (0x00, "UNKNOWN");
    (0x01, "MILL_LAMP");
    (0x02, "STATUS_LED")
  ].

Definition _get_output_type_name (output_type : Z) : string :=
  default ("UNKNOWN_" +:+ pretty output_type) (output_type_names !! output_type).

Definition mill_lamp_pattern_names : gmap Z string :=
  list_to_map [
    (0x00, "OFF");
    (0x01, "SOLID");
    (0x02, "SLOW_BLINK");
    (0x03, "FAST_BLINK")
  ].

Definition _get_mill_lamp_pattern_name (pattern : Z) : string :=
  default ("UNKNOWN_" +:+ pretty pattern) (mill_lamp_pattern_names !! pattern).

Definition relay_type_names : gmap Z string :=
  list_to_map [
    (0x00, "UNKNOWN");
    (0x01, "HYDRAULIC_EXTEND");
    (0x02, "HYDRAULIC_RETRACT");
    (0x07, "OPERATOR_BUZZER");
    (0x08, "ENGINE_STOP");
    (0x09, "POWER_CONTROL")
  ].

Definition _get_relay_type_name (relay_type : Z) : string :=
  default ("RESERVED_" +:+ pretty relay_type) (relay_type_names !! relay_type).

Definition pressure_type_names : gmap Z string :=
  list_to_map [
    (0x00, "UNKNOWN");
    (0x01, "SYSTEM_PRESSURE");
    (0x02, "TANK_PRESSURE");
    (0x03, "LOAD_PRESSURE");
    (0x04, "AUXILIARY")
  ].

Definition _get_pressure_type_name (pressure_type : Z) : string :=
  default ("UNKNOWN_" +:+ pretty pressure_type) (pressure_type_names !! pressure_type).

Definition error_code_names : gmap Z string :=
  list_to_map [
    (0x01, "EEPROM_CRC");
    (0x02, "EEPROM_SAVE");
    (0x04, "SENSOR_FAULT");
    (0x08, "NETWORK_PERSISTENT");
    (0x10, "CONFIG_INVALID");
    (0x20, "MEMORY_LOW");
    (0x40, "HARDWARE_FAULT");
    (0x80, "SEQUENCE_TIMEOUT")
  ].

Definition _get_error_code_name (error_code : Z) : string :=
  default ("UNKNOWN_0x" +:+ hex02X error_code) (error_code_names !! error_code).

Definition severity_names : gmap Z string :=
  list_to_map [
    (0x00, "INFO");
    (0x01, "WARNING");
    (0x02, "ERROR");
    (0x03, "CRITICAL")
  ].

Definition _get_severity_name (severity : Z) : string :=
  default ("UNKNOWN_" +:+ pretty severity) (severity_names !! severity).

Definition safety_event_names : gmap Z string :=
  list_to_map [
    (0x00, "SAFETY_ACTIVATED");
    (0x01, "SAFETY_CLEARED");
    (0x02, "EMERGENCY_STOP_ACTIVATED");
    (0x03, "EMERGENCY_STOP_CLEARED");
    (0x04, "LIMIT_SWITCH_TRIGGERED");
    (0x05, "PRESSURE_SAFETY")
  ].

Definition _get_safety_event_name (event_type : Z) : string :=
  default ("UNKNOWN_" +:+ pretty event_type) (safety_event_names !! event_type).

Definition sequence_state_names : gmap Z string :=
  list_to_map [
    (0x00, "IDLE");
    (0x01, "EXTENDING");
    (0x02, "EXTENDED");
    (0x03, "RETRACTING");
    (0x04, "RETRACTED");
    (0x05, "PAUSED");
    (0x06, "ERROR_STATE")
  ].

Definition _get_sequence_state_name (state : Z) : string :=
  default ("UNKNOWN_" +:+ pretty state) (sequence_state_names !! state).

Definition sequence_event_names : gmap Z string :=
  list_to_map [
    (0x00, "SEQUENCE_STARTED");
    (0x01, "SEQUENCE_STEP_COMPLETE");
    (0x02, "SEQUENCE_COMPLETE");
    (0x03, "SEQUENCE_PAUSED");
    (0x04, "SEQUENCE_RESUMED");
    (0x05, "SEQUENCE_ABORTED");
    (0x06, "SEQUENCE_TIMEOUT")
  ].

Definition _get_sequence_event_name (event_type : Z) : string :=
  default ("UNKNOWN_" +:+ pretty event_type) (sequence_event_names !! event_type).


(** *** Payload handlers

    Each handler returns [None] on a payload that is too short, and otherwise
    unpacks it with [struct.unpack], which raises unless the buffer has
    exactly the size of the format. *)

Definition _decode_digital_input (payload : list byte) : Outcome (option Payload) :=
  if len payload <? 4 then mret None else
  '(pin, flags, debounce_time) ← unpack_BBH payload;
  mret (Some (PDigitalInput {|
    di_pin := pin;
    di_state := bit_set flags 0x01;
    di_state_name := if bit_set flags 0x01 then "ACTIVE" else "INACTIVE";
    di_is_debounced := bit_set flags 0x02;
    di_input_type := Z.land (Z.shiftr flags 2) 0x3F;
    di_input_type_name := _get_input_type_name (Z.land (Z.shiftr flags 2) 0x3F);
    di_debounce_time_ms := debounce_time |})).

Definition _decode_digital_output (payload : list byte) : Outcome (option Payload) :=
  if len payload <? 3 then mret None else
  '(pin, flags, reserved) ← unpack_BBB payload;
  mret (Some (PDigitalOutput {|
    do_pin := pin;
    do_state := bit_set flags 0x01;
    do_state_name := if bit_set flags 0x01 then "HIGH" else "LOW";
    do_output_type := Z.land (Z.shiftr flags 1) 0x07;
    do_output_type_name := _get_output_type_name (Z.land (Z.shiftr flags 1) 0x07);
    do_mill_lamp_pattern := Z.land (Z.shiftr flags 4) 0x0F;
    do_mill_lamp_pattern_name :=
      _get_mill_lamp_pattern_name (Z.land (Z.shiftr flags 4) 0x0F) |})).

Definition _decode_relay_event (payload : list byte) : Outcome (option Payload) :=
  if len payload <? 3 then mret None else
  '(relay_number, flags, reserved) ← unpack_BBB payload;
  mret (Some (PRelayEvent {|
    re_relay_number := relay_number;
    re_relay_name := "R" +:+ pretty relay_number;
    re_state := bit_set flags 0x01;
    re_state_name := if bit_set flags 0x01 then "ON" else "OFF";
    re_is_manual := bit_set flags 0x02;
    re_operation_mode := if bit_set flags 0x02 then "MANUAL" else "AUTO";
    re_success := bit_set flags 0x04;
    re_success_name := if bit_set flags 0x04 then "SUCCESS" else "FAILED";
    re_relay_type := Z.land (Z.shiftr flags 3) 0x1F;
    re_relay_type_name := _get_relay_type_name (Z.land (Z.shiftr flags 3) 0x1F) |})).

Definition _decode_pressure (payload : list byte) : Outcome (option Payload) :=
  if len payload <? 8 then mret None else
  '(sensor_pin, flags, raw_value) ← unpack_BBH (slice 0 4 payload);
  pressure_psi ← unpack_f (slice 4 8 payload);
  mret (Some (PPressure {|
    pr_sensor_pin := sensor_pin;
    pr_sensor_name := "A" +:+ pretty sensor_pin;
    pr_is_fault := bit_set flags 0x01;
    pr_fault_status := if bit_set flags 0x01 then "FAULT" else "OK";
    pr_pressure_type := Z.land (Z.shiftr flags 1) 0x7F;
    pr_pressure_type_name := _get_pressure_type_name (Z.land (Z.shiftr flags 1) 0x7F);
    pr_raw_adc_value := raw_value;
    pr_pressure_psi_bits := pressure_psi |})).

Definition _decode_system_error (payload : list byte) : Outcome (option Payload) :=
  if len payload <? 3 then mret None else
  '(error_code, flags, desc_length) ← unpack_BBB (slice 0 3 payload);
  let description :=
    if (0 <? desc_length) && (3 <? len payload)
    then decode_description
           (slice 3 (3 + Z.to_nat (Z.min desc_length (len payload - 3))) payload)
    else EmptyString in
  mret (Some (PSystemError {|
    er_error_code := error_code;
    er_error_code_hex := "0x" +:+ hex02X error_code;
    er_error_name := _get_error_code_name error_code;
    er_acknowledged := bit_set flags 0x01;
    er_active := bit_set flags 0x02;
    er_severity := Z.land (Z.shiftr flags 2) 0x03;
    er_severity_name := _get_severity_name (Z.land (Z.shiftr flags 2) 0x03);
    er_description := description |})).

Definition _decode_safety_event (payload : list byte) : Outcome (option Payload) :=
  if len payload <? 3 then mret None else
  '(event_type, flags, reserved) ← unpack_BBB payload;
  mret (Some (PSafetyEvent {|
    sf_event_type := event_type;
    sf_event_type_name := _get_safety_event_name event_type;
    sf_is_active := bit_set flags 0x01;
    sf_status := if bit_set flags 0x01 then "ACTIVE" else "INACTIVE" |})).

Definition _decode_system_status (payload : list byte) : Outcome (option Payload) :=
  if len payload <? 12 then mret None else
  '(uptime_ms, loop_freq_hz, free_memory, active_errors, flags, reserved) ←
    unpack_LHHBBH payload;
  mret (Some (PSystemStatus {|
    ss_uptime_ms := uptime_ms;
    ss_loop_frequency_hz := loop_freq_hz;
    ss_free_memory_bytes := free_memory;
    ss_active_error_count := active_errors;
    ss_safety_active := bit_set flags 0x01;
    ss_estop_active := bit_set flags 0x02;
    ss_sequence_state := Z.land (Z.shiftr flags 2) 0x0F;
    ss_sequence_state_name := _get_sequence_state_name (Z.land (Z.shiftr flags 2) 0x0F);
    ss_mill_lamp_pattern := Z.land (Z.shiftr flags 6) 0x03;
    ss_mill_lamp_pattern_name :=
      _get_mill_lamp_pattern_name (Z.land (Z.shiftr flags 6) 0x03) |})).

Definition _decode_sequence_event (payload : list byte) : Outcome (option Payload) :=
  if len payload <? 4 then mret None else
  '(event_type, step_number, elapsed_time_ms) ← unpack_BBH payload;
  mret (Some (PSequenceEvent {|
    sq_event_type := event_type;
    sq_event_type_name := _get_sequence_event_name event_type;
    sq_step_number := step_number;
    sq_elapsed_time_ms := elapsed_time_ms |})).

(** [self.message_handlers], filled in by [__init__]. *)
Definition message_handlers : gmap Z (list byte → Outcome (option Payload)) :=
  list_to_map [
    (0x10, _decode_digital_input);
    (0x11, _decode_digital_output);
    (0x12, _decode_relay_event);
    (0x13, _decode_pressure);
    (0x14, _decode_system_error);
    (0x15, _decode_safety_event);
    (0x16, _decode_system_status);
    (0x17, _decode_sequence_event)
  ].

(** *** The decoder object and the console

    [self] holds the statistics counters and the per-type last sequence
    number; every [print] appends one line to the console. *)

Record State : Type := {
  messages_received : Z;
  messages_decoded : Z;
  decode_errors : Z;
  last_sequence : gmap Z Z }.

(** [LogSplitterProtobufDecoder.__init__] *)
Definition __init__ : State := {|
  messages_received := 0;
  messages_decoded := 0;
  decode_errors := 0;
  last_sequence := ∅ |}.

Inductive Line : Type :=
| ErrorMessageTooShort (nbytes : Z)
| ErrorSizeMismatch (expected got : Z)
| WarningSequenceGap (msg_type expected got : Z)
| WarningUnknownMessageType (msg_type : Z)
| ErrorDecodeException (e : Exception).

Record World : Type := {
  self : State;
  stdout : list Line }.

(** A method body: it reads and updates [self], prints, and either returns a
    value or raises. *)
Definition M (A : Type) : Type := World → World * Outcome A.

#[global] Instance M_ret : MRet M := fun A a w => (w, Returns a).
#[global] Instance M_bind : MBind M := fun A B k m w =>
  match m w with
  | (w', Returns a) => k a w'
  | (w', Raises e) => (w', Raises e)
  end.

Definition lift {A} (o : Outcome A) : M A := fun w => (w, o).

Definition print (l : Line) : M unit := fun w =>
  ({| self := self w; stdout := stdout w ++ [l] |}, Returns tt).

Definition update (f : State → State) : M unit := fun w =>
  ({| self := f (self w); stdout := stdout w |}, Returns tt).

Definition get_last_sequence : M (gmap Z Z) := fun w =>
  (w, Returns (last_sequence (self w))).

(** [self.messages_received += 1] *)
Definition incr_messages_received : M unit := update (fun s => {|
  messages_received := messages_received s + 1;
  messages_decoded := messages_decoded s;
  decode_errors := decode_errors s;
  last_sequence := last_sequence s |}).

(** [self.messages_decoded += 1] *)
Definition incr_messages_decoded : M unit := update (fun s => {|
  messages_received := messages_received s;
  messages_decoded := messages_decoded s + 1;
  decode_errors := decode_errors s;
  last_sequence := last_sequence s |}).

(** [self.decode_errors += 1] *)
Definition incr_decode_errors : M unit := update (fun s => {|
  messages_received := messages_received s;
  messages_decoded := messages_decoded s;
  decode_errors := decode_errors s + 1;
  last_sequence := last_sequence s |}).

(** [self.last_sequence[msg_type] = sequence] *)
Definition set_last_sequence (msg_type sequence : Z) : M unit := update (fun s => {|
  messages_received := messages_received s;
  messages_decoded := messages_decoded s;
  decode_errors := decode_errors s;
  last_sequence := <[msg_type := sequence]> (last_sequence s) |}).

(** [try: body except Exception as e: handler(e)] *)
Definition try_except {A} (body : M A) (handler : Exception → M A) : M A := fun w =>
  match body w with
  | (w', Returns a) => (w', Returns a)
  | (w', Raises e) => handler e w'
  end.

(** *** Sequence tracking ([decode_message], "Check for missing messages")

    The block prints a warning on a gap and then records the sequence number;
    the value returned here names the branch that was taken. *)

Inductive SequenceReport : Type :=
| First
| Continues
| Gap (expected actual : Z).

Definition check_sequence (msg_type sequence : Z) : M SequenceReport :=
  seen ← get_last_sequence;
  report ←
    match seen !! msg_type with
    | Some last =>
        let expected_seq := (last + 1) mod 256 in
        if negb (sequence =? expected_seq)
        then print (WarningSequenceGap msg_type expected_seq sequence);;
             mret (Gap expected_seq sequence)
        else mret Continues
    | None => mret First
    end;
  set_last_sequence msg_type sequence;;
  mret report.

(** *** [decode_message] *)

(** The statements of the body that follow the reading of the header, from
    "Check for missing messages" to the [return] of the dictionary. *)
Definition decode_accepted (size_byte msg_type sequence timestamp : Z)
  (payload : list byte) : M (option Message) :=
  check_sequence msg_type sequence;;
  decoded_payload ←
    match message_handlers !! msg_type with
    | Some handler =>
        decoded_payload ← lift (handler payload);
        (if decoded_payload is Some _ then incr_messages_decoded else mret tt);;
        mret decoded_payload
    | None =>
        print (WarningUnknownMessageType msg_type);;
        mret None
    end;
  mret (Some {|
    msg_size := size_byte;
    msg_type := msg_type;
    msg_type_name := _get_type_name msg_type;
    msg_sequence := sequence;
    msg_timestamp := timestamp;
    msg_payload := decoded_payload;
    msg_raw_payload_hex := bytes_hex payload |}).

(** The body of the [try] statement. *)
Definition decode_message_body (binary_data : list byte) : M (option Message) :=
  incr_messages_received;;
  if len binary_data <? 7 then
    incr_decode_errors;;
    print (ErrorMessageTooShort (len binary_data));;
    mret None
  else
    size_byte ← lift (index binary_data 0);
    if negb (size_byte =? len binary_data) then
      incr_decode_errors;;
      print (ErrorSizeMismatch size_byte (len binary_data));;
      mret None
    else
      msg_type ← lift (index binary_data 1);
      sequence ← lift (index binary_data 2);
      timestamp ← lift (unpack_L (slice 3 7 binary_data));
      let payload := if 7 <? len binary_data then slice_from 7 binary_data else [] in
      decode_accepted size_byte msg_type sequence timestamp payload.

Definition decode_message (binary_data : list byte) : M (option Message) :=
  try_except (decode_message_body binary_data)
    (fun e =>
       incr_decode_errors;;
       print (ErrorDecodeException e);;
       mret None).

(** Feeding a stream of frames to one decoder, as [_on_message] does: the
    values returned, in order, and the final decoder and console. *)
Fixpoint decode_stream (frames : list (list byte)) (w : World)
  : World * list (Outcome (option Message)) :=
  match frames with
  | [] => (w, [])
  | f :: rest =>
      let '(w1, r) := decode_message f w in
      let '(w2, rs) := decode_stream rest w1 in
      (w2, r :: rs)
  end.

End Decoder.


(** ** [verify_protobuf_stream.py]: [validate_message] *)

Module Verify.
Import Py.

Definition VALID_MESSAGE_TYPES : gmap Z string :=
  list_to_map [
    (0x10, "DIGITAL_INPUT");
    (0x11, "DIGITAL_OUTPUT");
    (0x12, "RELAY_EVENT");
    (0x13, "PRESSURE");
    (0x14, "SYSTEM_ERROR");
    (0x15, "SAFETY_EVENT");
    (0x16, "SYSTEM_STATUS");
    (0x17, "SEQUENCE_EVENT")
  ].

(** An entry of [EXPECTED_PAYLOAD_SIZES]: an [int] or a [range(lo, hi)]. *)
Inductive Expected : Type :=
| Exactly (n : Z)
| Range (lo hi : Z).

Definition EXPECTED_PAYLOAD_SIZES : gmap Z Expected :=
  list_to_map [
    (0x10, Exactly 4);
    (0x11, Exactly 3);
    (0x12, Exactly 3);
    (0x13, Exactly 8);
    (0x14, Range 3 28);
    (0x15, Exactly 3);
    (0x16, Exactly 12);
    (0x17, Exactly 4)
  ].

(** The texts appended to [result['issues']]. *)
Inductive Issue : Type :=
| TooShort (nbytes : Z)
| SizeMismatch (struct_size expected_length got : Z)
| TooLarge (struct_size : Z)
| TooSmall (struct_size : Z)
| InvalidMessageType (msg_type : Z)
| InvalidPayloadSize (payload_size : Z) (expected : Expected).

Record Result : Type := {
  valid : bool;
  issues : list Issue;
  msg_type : option Z;
  msg_size : option Z;
  sequence_id : option Z;
  timestamp : option Z;
  payload_size : option Z }.

Definition validate_message (data : list byte) : Outcome Result :=
  if len data <? 7 then
    mret {| valid := false; issues := [TooShort (len data)]; msg_type := None;
            msg_size := None; sequence_id := None; timestamp := None;
            payload_size := None |}
  else
    struct_size ← index data 0;
    let expected_length := struct_size + 1 in
    if negb (expected_length =? len data) then
      mret {| valid := false;
              issues := [SizeMismatch struct_size expected_length (len data)];
              msg_type := None; msg_size := Some struct_size; sequence_id := None;
              timestamp := None; payload_size := None |}
    else if 33 <? struct_size then
      mret {| valid := false; issues := [TooLarge struct_size]; msg_type := None;
              msg_size := Some struct_size; sequence_id := None; timestamp := None;
              payload_size := None |}
    else if struct_size <? 9 then
      mret {| valid := false; issues := [TooSmall struct_size]; msg_type := None;
              msg_size := Some struct_size; sequence_id := None; timestamp := None;
              payload_size := None |}
    else
      msg_type ← index data 1;
      sequence_id ← index data 2;
      let timestamp := le_uint (slice 3 7 data) in
      if negb (bool_decide (is_Some (VALID_MESSAGE_TYPES !! msg_type))) then
        mret {| valid := false; issues := [InvalidMessageType msg_type];
                msg_type := Some msg_type; msg_size := Some struct_size;
                sequence_id := Some sequence_id; timestamp := Some timestamp;
                payload_size := None |}
      else
        let payload_size := struct_size - 6 in
        expected ← match EXPECTED_PAYLOAD_SIZES !! msg_type with
                   | Some e => Returns e
                   | None => Raises KeyError
                   end;
        let fits :=
          match expected with
          | Range lo hi => (lo <=? payload_size) && (payload_size <? hi)
          | Exactly n => payload_size =? n
          end in
        if negb fits then
          mret {| valid := false; issues := [InvalidPayloadSize payload_size expected];
                  msg_type := Some msg_type; msg_size := Some struct_size;
                  sequence_id := Some sequence_id; timestamp := Some timestamp;
                  payload_size := Some payload_size |}
        else
          mret {| valid := true; issues := []; msg_type := Some msg_type;
                  msg_size := Some struct_size; sequence_id := Some sequence_id;
                  timestamp := Some timestamp; payload_size := Some payload_size |}.

(** The result of [validate_message], when it returns. *)
Definition validate_message' (data : list byte) : option Result :=
  match validate_message data with
  | Returns result => Some result
  | Raises _ => None
  end.

End Verify.

(** ** [archived/basket_exchange_metrics.py]: class [BasketExchangeAnalyzer] *)

Module Archived.
Import Py.
Import PrimFloat.

(** An entry of [processed_events]. *)
Record Event : Type := {
  timestamp : Z;
  type : string;
  payload : gmap string json }.

(** The thresholds set by [__init__], in seconds. *)
Record BasketExchangeAnalyzer : Type := {
  min_exchange_duration : Z;
  max_exchange_duration : Z;
  operator_signal_timeout : Z;
  sequence_correlation_window : Z }.

Definition __init__ : BasketExchangeAnalyzer := {|
  min_exchange_duration := 30;
  max_exchange_duration := 600;
  operator_signal_timeout := 60;
  sequence_correlation_window := 120 |}.

(** [payload.get('input_type_name') == 'SPLITTER_OPERATOR' and
     payload.get('state') is True] *)
Definition is_active_operator_signal (event : Event) : bool :=
  bool_decide (payload event !! "input_type_name" = Some (JStr "SPLITTER_OPERATOR"))
  && bool_decide (payload event !! "state" = Some (JBool true)).

(** The times of the active operator signals, in input order. *)
Definition trigger_times (events : list Event) : list Z :=
  map timestamp (filter (fun e => is_active_operator_signal e = true) events).

(** The local variables of [_identify_exchange_windows]. *)
Record Scan : Type := {
  current_window_start : option Z;
  last_signal_time : option Z;
  windows : list (Z * Z) }.

(** One iteration of the loop over [operator_events].  The comparison
    [(timestamp - last_signal_time).total_seconds() <= timeout] is taken on
    the microsecond counts, which is exact for a whole number of seconds. *)
Definition scan_event (self : BasketExchangeAnalyzer) (st : Scan) (event : Event)
  : Outcome Scan :=
  let timestamp := timestamp event in
  if is_active_operator_signal event then
    match current_window_start st with
    | None =>
        mret {| current_window_start := Some timestamp;
                last_signal_time := Some timestamp;
                windows := windows st |}
    | Some start =>
        last ← match last_signal_time st with
               | Some last => Returns last
               | None => Raises TypeError
               end;
        if timestamp - last <=? seconds (operator_signal_timeout self) then
          mret {| current_window_start := Some start;
                  last_signal_time := Some timestamp;
                  windows := windows st |}
        else
          mret {| current_window_start := Some timestamp;
                  last_signal_time := Some timestamp;
                  windows := windows st ++ [(start - seconds 30, last + seconds 120)] |}
    end
  else mret st.

Fixpoint scan_events (self : BasketExchangeAnalyzer) (st : Scan) (events : list Event)
  : Outcome Scan :=
  match events with
  | [] => mret st
  | event :: rest => st' ← scan_event self st event; scan_events self st' rest
  end.

(** The locals before the loop. *)
Definition scan_start : Scan :=
  {| current_window_start := None; last_signal_time := None; windows := [] |}.

(** "Close final window if exists" *)
Definition close_final (st : Scan) : list (Z * Z) :=
  match current_window_start st, last_signal_time st with
  | Some start, Some last => windows st ++ [(start - seconds 30, last + seconds 120)]
  | _, _ => windows st
  end.

Definition _identify_exchange_windows (self : BasketExchangeAnalyzer)
  (operator_events : list Event) : Outcome (list (Z * Z)) :=
  match operator_events with
  | [] => mret []
  | _ =>
      st ← scan_events self scan_start operator_events;
      mret (close_final st)
  end.

(** [[e for e in events if start_time <= e['timestamp'] <= end_time]] in
    [_detect_exchanges]. *)
Definition window_events (events : list Event) (window : Z * Z) : list Event :=
  filter (fun e => fst window <= timestamp e <= snd window) events.

Inductive ExchangeType : Type := UNKNOWN | SEQUENCE | MIXED | MANUAL.

Definition _classify_exchange (operator_signals sequence_events relay_events : list Event)
  : ExchangeType * PrimFloat.float :=
  let operator_count :=
    len (filter (fun e => payload e !! "input_type_name" = Some (JStr "SPLITTER_OPERATOR"))
           operator_signals) in
  let sequence_count := len sequence_events in
  let manual_relay_count := len relay_events in
  let confidence := 0.0%float in
  let exchange_type := UNKNOWN in
  let confidence := if 1 <=? operator_count then (confidence + 0.5)%float else confidence in
  let '(confidence, exchange_type) :=
    if 0 <? sequence_count then ((confidence + 0.3)%float, SEQUENCE)
    else (confidence, exchange_type) in
  let '(confidence, exchange_type) :=
    if 0 <? manual_relay_count then
      ((confidence + 0.2)%float,
       match exchange_type with SEQUENCE => MIXED | _ => MANUAL end)
    else (confidence, exchange_type) in
  let confidence := if 2 <=? operator_count then (confidence + 0.2)%float else confidence in
  let confidence := fmin confidence 1.0%float in
  (exchange_type, confidence).

End Archived.

(** ** [basket_metrics_dashboard.py]: class [BasketMetricsDashboard] *)

Module Dashboard.
Import Py.
Import PrimFloat.

(** An entry of [operator_events], [sequence_events] or [relay_events]. *)
Record Event : Type := {
  timestamp : Z;
  payload : gmap string json }.

(** [payload_json] of a telemetry row as [json.loads] sees it. *)
Inductive PayloadJson : Type :=
| Empty                                (* NULL or '': the payload is [{}] *)
| Object (fields : gmap string json)   (* a JSON object *)
| Malformed.                           (* [JSONDecodeError]: the row is skipped *)

(** A row [(received_timestamp, payload_json)] fetched by one of the two
    queries of [_analyze_exchange_window], as the loop over
    [cursor.fetchall()] reads it: [received_timestamp] is the value of
    [datetime.fromisoformat(row[0])], [None] when it raises [ValueError]. *)
Record TelemetryRow : Type := {
  received_timestamp : option Z;
  payload_json : PayloadJson }.

(** The database behind the connection, as far as [_analyze_exchange_window]
    reads it: [fetchall conn start_time end_time name] is the list of rows
    that [cursor.fetchall()] returns after

      SELECT received_timestamp, payload_json FROM telemetry
      WHERE received_timestamp BETWEEN ? AND ?
      AND message_type_name = name
      ORDER BY received_timestamp ASC

    was executed with [(start_time.isoformat(), end_time.isoformat())].
    SQLite compares the TEXT of the column with the two ISO texts, which is
    not a comparison of times (the column default of the logger's table
    writes a space where [isoformat] writes a [T]); which rows come back is
    therefore left to the database, and nothing is assumed about it. *)
Record Connection : Type := {
  fetchall : Z → Z → string → list TelemetryRow }.

Inductive ExchangeType : Type := MIXED | SEQUENCE | MANUAL | BUTTON_ONLY.

(** The fields of [BasketExchange] that [_analyze_exchange_window] fills in
    from the window and its events; the environmental aggregates attached
    afterwards (temperature, fuel, pressure) are not part of the model. *)
Record BasketExchange : Type := {
  start_time : Z;
  end_time : Z;
  duration : Z;
  operator_signals : list Event;
  sequence_events : list Event;
  relay_events : list Event;
  exchange_type : ExchangeType;
  confidence : float }.

(** [payload.get('state_name') == 'ACTIVE'] *)
Definition is_active (event : Event) : bool :=
  bool_decide (payload event !! "state_name" = Some (JStr "ACTIVE")).

(** One window per ACTIVE signal: 10 seconds before to 20 seconds after. *)
Fixpoint _identify_exchange_windows (operator_events : list Event) : list (Z * Z) :=
  match operator_events with
  | [] => []
  | event :: rest =>
      if is_active event then
        let button_time := timestamp event in
        (button_time - seconds 10, button_time + seconds 20)
          :: _identify_exchange_windows rest
      else _identify_exchange_windows rest
  end.

Definition _classify_exchange (operator_signals sequence_events relay_events : list Event)
  : ExchangeType :=
  if negb (bool_decide (sequence_events = [])) && (2 <=? len sequence_events) then
    if negb (bool_decide (relay_events = [])) then MIXED else SEQUENCE
  else if negb (bool_decide (relay_events = [])) then MANUAL
  else BUTTON_ONLY.

Definition _calculate_confidence (operator_signals sequence_events relay_events : list Event)
  : float :=
  let confidence := 0.8%float in
  let active_signals := filter (fun s => is_active s = true) operator_signals in
  if bool_decide (active_signals = []) then 0.0%float else
  let confidence := if 1 <? len active_signals then (confidence - 0.2)%float else confidence in
  let confidence :=
    if negb (bool_decide (sequence_events = [])) then (confidence + 0.2)%float
    else confidence in
  let confidence :=
    if negb (bool_decide (relay_events = [])) then (confidence + 0.2)%float
    else confidence in
  fmin 1.0%float (fmax 0.6%float confidence).

(** The loop that builds [sequence_events] or [relay_events] from the rows
    of its query: a row whose JSON or whose timestamp does not parse is
    skipped ([except (json.JSONDecodeError, ValueError): continue]). *)
Definition select_events (conn : Connection) (start_time end_time : Z) (name : string)
  : list Event :=
  omap (fun row =>
          match payload_json row, received_timestamp row with
          | Malformed, _ => None
          | _, None => None
          | Empty, Some t => Some {| timestamp := t; payload := ∅ |}
          | Object fields, Some t => Some {| timestamp := t; payload := fields |}
          end)
       (fetchall conn start_time end_time name).

Definition _analyze_exchange_window (conn : Connection) (start_time end_time : Z)
  (all_operator_events : list Event) : option BasketExchange :=
  let operator_signals :=
    filter (fun e => start_time <= timestamp e <= end_time) all_operator_events in
  if bool_decide (operator_signals = []) then None else
  let sequence_events := select_events conn start_time end_time "SEQUENCE_EVENT" in
  let relay_events := select_events conn start_time end_time "RELAY_EVENT" in
  let exchange_type := _classify_exchange operator_signals sequence_events relay_events in
  let confidence := _calculate_confidence operator_signals sequence_events relay_events in
  if (confidence <? 0.6)%float then None else
  Some {| start_time := start_time;
          end_time := end_time;
          duration := end_time - start_time;
          operator_signals := operator_signals;
          sequence_events := sequence_events;
          relay_events := relay_events;
          exchange_type := exchange_type;
          confidence := confidence |}.

(** The loop of [analyze_basket_exchanges] over the identified windows: the
    exchanges that are kept. *)
Definition analyze_windows (conn : Connection) (operator_events : list Event)
  : list BasketExchange :=
  omap (fun '(start_time, end_time) =>
          _analyze_exchange_window conn start_time end_time operator_events)
       (_identify_exchange_windows operator_events).

End Dashboard.

(** ** Fixtures: concrete frames and events used in the examples *)

Module Fixtures.
Import Py.

(** A byte given by its value, and a frame given by its byte values. *)
Definition B (n : Z) : byte := default "000"%byte (Byte.of_N (Z.to_N n)).
Definition frame (values : list Z) : list byte := map B values.

(** A freshly constructed decoder with an empty console. *)
Definition fresh : Decoder.World :=
  {| Decoder.self := Decoder.__init__; Decoder.stdout := [] |}.

(** The reports of the sequence tracker for a run of frames of one type. *)
Fixpoint check_sequences (msg_type : Z) (sequences : list Z)
  : Decoder.M (list Decoder.SequenceReport) :=
  match sequences with
  | [] => mret []
  | sequence :: rest =>
      r ← Decoder.check_sequence msg_type sequence;
      rs ← check_sequences msg_type rest;
      mret (r :: rs)
  end.

(** An active SPLITTER_OPERATOR signal at time [t], as the telemetry table
    holds it, for each of the two analyzers. *)
Definition operator_payload : gmap string json :=
  <["input_type_name" := JStr "SPLITTER_OPERATOR"]>
    (<["state" := JBool true]> (<["state_name" := JStr "ACTIVE"]> ∅)).

Definition operator_signal (t : Z) : Archived.Event :=
  {| Archived.timestamp := t;
     Archived.type := "DIGITAL_INPUT";
     Archived.payload := operator_payload |}.

Definition button_press (t : Z) : Dashboard.Event :=
  {| Dashboard.timestamp := t; Dashboard.payload := operator_payload |}.

(** The release of the button: the same signal with state INACTIVE. *)
Definition button_release (t : Z) : Dashboard.Event :=
  {| Dashboard.timestamp := t;
     Dashboard.payload :=
       <["input_type_name" := JStr "SPLITTER_OPERATOR"]>
         (<["state" := JBool false]> (<["state_name" := JStr "INACTIVE"]> ∅)) |}.

(** A fetched row with the time [t] and the payload [{}]. *)
Definition row (t : Z) : Dashboard.TelemetryRow :=
  {| Dashboard.received_timestamp := Some t;
     Dashboard.payload_json := Dashboard.Object ∅ |}.

(** A database that answers the SEQUENCE_EVENT query with [sequence_rows] and
    the RELAY_EVENT query with [relay_rows], whatever the bounds. *)
Definition answers (sequence_rows relay_rows : list Dashboard.TelemetryRow)
  : Dashboard.Connection :=
  {| Dashboard.fetchall := fun _ _ name =>
       if bool_decide (name = "SEQUENCE_EVENT") then sequence_rows
       else if bool_decide (name = "RELAY_EVENT") then relay_rows
       else [] |}.

End Fixtures.

(** ** What a stream of frames leaves in the decoder *)

Module DecoderStream.
Import Py Decoder.

(** [decode_message] returned [None]: the frame was refused or its decoding
    raised. *)
Definition is_error (r : Outcome (option Message)) : bool :=
  match r with
  | Returns (Some _) => false
  | _ => true
  end.

(** [decode_message] returned a dictionary whose ['payload'] is not [None]. *)
Definition has_payload (r : Outcome (option Message)) : bool :=
  match r with
  | Returns (Some m) => bool_decide (is_Some (msg_payload m))
  | _ => false
  end.

Definition count {A} (f : A → bool) (l : list A) : Z := len (List.filter f l).

(** The [n] sequence numbers that follow each other from [start], as the
    controller's 8-bit counter gives them. *)
Definition consecutive (start : Z) (n : nat) : list Z :=
  (fun i => (start + Z.of_nat i) mod 256) <$> seq 0 n.

End DecoderStream.

(** ** The payload sizes of the handlers

    Each handler of [message_handlers] returns [None] under the size of its
    [len(payload) < n] test.  Above it the handlers that hand the whole
    payload to [struct.unpack] raise [struct.error]; [_decode_pressure] and
    [_decode_system_error] unpack a slice and accept longer payloads. *)

Module HandlerSizes.
Import Py.

Inductive SizeRule : Type :=
| ExactSize (n : Z)
| MinSize (n : Z).

Definition size_rules : gmap Z SizeRule :=
  list_to_map [
    (0x10, ExactSize 4);
    (0x11, ExactSize 3);
    (0x12, ExactSize 3);
    (0x13, MinSize 8);
    (0x14, MinSize 3);
    (0x15, ExactSize 3);
    (0x16, ExactSize 12);
    (0x17, ExactSize 4)
  ].

Inductive Verdict : Type :=
| NoPayload
| Decoded
| Raised (e : Exception).

Definition expected (rule : SizeRule) (n : Z) : Verdict :=
  match rule with
  | ExactSize k =>
      if n <? k then NoPayload else if n =? k then Decoded else Raised StructError
  | MinSize k => if n <? k then NoPayload else Decoded
  end.

Definition observed (o : Outcome (option Decoder.Payload)) : Verdict :=
  match o with
  | Returns None => NoPayload
  | Returns (Some _) => Decoded
  | Raises e => Raised e
  end.

End HandlerSizes.

(** ** The value of a flag *)

Module Flags.

(** [int(b)] of a [bool]. *)
Definition bit (b : bool) : Z := if b then 1 else 0.

End Flags.

(** ** [verify_protobuf_stream.py]: [on_message] and the [stats] dictionary *)

Module VerifyStream.
Import Py Verify.

(** The test of [validate_message] on the payload size: [payload_size in
    expected] for a [range], [payload_size == expected] for an [int]. *)
Definition fits (expected : Expected) (payload_size : Z) : bool :=
  match expected with
  | Range lo hi => (lo <=? payload_size) && (payload_size <? hi)
  | Exactly n => payload_size =? n
  end.

(** The module-level [stats] dictionary ([start_time] left out). *)
Record Stats : Type := {
  total_messages : Z;
  valid_messages : Z;
  invalid_type : Z;
  invalid_size : Z;
  malformed : Z;
  message_types : gmap string Z;
  invalid_types_seen : gmap Z Z }.

Definition stats : Stats :=
  {| total_messages := 0; valid_messages := 0; invalid_type := 0;
     invalid_size := 0; malformed := 0; message_types := ∅;
     invalid_types_seen := ∅ |}.

(** [counter[key] += 1] on a [collections.Counter]: a missing key counts 0. *)
Definition Counter_incr {K} `{Countable K} (key : K) (counter : gmap K Z) : gmap K Z :=
  <[key := default 0 (counter !! key) + 1]> counter.

(** [sum(counter.values())] *)
Definition Counter_total {K} `{Countable K} (counter : gmap K Z) : Z :=
  map_fold (fun _ n acc => n + acc) 0 counter.

(** Whether the text of an issue, lower-cased, contains ['size mismatch'] or
    ['payload size']. *)
Definition mentions_size (issue : Issue) : bool :=
  match issue with
  | SizeMismatch _ _ _ => true
  | InvalidPayloadSize _ _ => true
  | TooShort _ | TooLarge _ | TooSmall _ | InvalidMessageType _ => false
  end.

(** [on_message], as it updates [stats]; what it prints is left out.  The
    dictionary is updated in place, so the updates made before an exception
    stay. *)
Definition on_message (data : list byte) (s : Stats) : Stats * Outcome unit :=
  let s :=
    {| total_messages := total_messages s + 1; valid_messages := valid_messages s;
       invalid_type := invalid_type s; invalid_size := invalid_size s;
       malformed := malformed s; message_types := message_types s;
       invalid_types_seen := invalid_types_seen s |} in
  match validate_message data with
  | Raises e => (s, Raises e)
  | Returns validation =>
      if valid validation then
        let s :=
          {| total_messages := total_messages s;
             valid_messages := valid_messages s + 1;
             invalid_type := invalid_type s; invalid_size := invalid_size s;
             malformed := malformed s; message_types := message_types s;
             invalid_types_seen := invalid_types_seen s |} in
        match msg_type validation ≫= (VALID_MESSAGE_TYPES !!.) with
        | None => (s, Raises KeyError)
        | Some msg_name =>
            ({| total_messages := total_messages s;
                valid_messages := valid_messages s;
                invalid_type := invalid_type s; invalid_size := invalid_size s;
                malformed := malformed s;
                message_types := Counter_incr msg_name (message_types s);
                invalid_types_seen := invalid_types_seen s |}, Returns tt)
        end
      else
        let s :=
          {| total_messages := total_messages s;
             valid_messages := valid_messages s;
             invalid_type := invalid_type s; invalid_size := invalid_size s;
             malformed := malformed s + 1; message_types := message_types s;
             invalid_types_seen := invalid_types_seen s |} in
        let s :=
          match msg_type validation with
          | Some t =>
              if negb (bool_decide (is_Some (VALID_MESSAGE_TYPES !! t))) then
                {| total_messages := total_messages s;
                   valid_messages := valid_messages s;
                   invalid_type := invalid_type s + 1;
                   invalid_size := invalid_size s;
                   malformed := malformed s; message_types := message_types s;
                   invalid_types_seen := Counter_incr t (invalid_types_seen s) |}
              else s
          | None => s
          end in
        let s :=
          if existsb mentions_size (issues validation) then
            {| total_messages := total_messages s;
               valid_messages := valid_messages s;
               invalid_type := invalid_type s;
               invalid_size := invalid_size s + 1;
               malformed := malformed s; message_types := message_types s;
               invalid_types_seen := invalid_types_seen s |}
          else s in
        (s, Returns tt)
  end.

(** The callback run on each message of a stream, stopping at the first
    exception. *)
Fixpoint on_messages (stream : list (list byte)) (s : Stats) : Stats * Outcome unit :=
  match stream with
  | [] => (s, Returns tt)
  | data :: rest =>
      match on_message data s with
      | (s, Returns _) => on_messages rest s
      | (s, Raises e) => (s, Raises e)
      end
  end.

End VerifyStream.

(** ** [archived/basket_exchange_metrics.py]: [_detect_exchanges] *)

Module ArchivedDetect.
Import Py Archived.
Import PrimFloat.

(** The fields of the archived [BasketExchange] that [_detect_exchanges]
    computes from the window and its events; the monitor readings attached to
    it ([remote_temperature], [fuel_consumption], [monitor_data]) are not
    part of the model.  [duration_seconds] is kept in microseconds. *)
Record BasketExchange : Type := {
  start_time : Z;
  end_time : Z;
  duration_seconds : Z;
  operator_signals : list Event;
  sequence_events : list Event;
  relay_events : list Event;
  exchange_type : ExchangeType;
  confidence : float }.

(** The body of the loop over [exchange_candidates]: the exchange appended
    for the window, if any. *)
Definition detect_window (self : BasketExchangeAnalyzer) (events : list Event)
  (window : Z * Z) : option BasketExchange :=
  let '(start_time, end_time) := window in
  let window_events := window_events events (start_time, end_time) in
  let operator_signals := filter (fun e => type e = "DIGITAL_INPUT") window_events in
  let sequence_events := filter (fun e => type e = "SEQUENCE_EVENT") window_events in
  let relay_events := filter (fun e => type e = "RELAY_EVENT") window_events in
  let '(exchange_type, confidence) :=
    _classify_exchange operator_signals sequence_events relay_events in
  if (0.6 <=? confidence)%float then
    let duration := (end_time - start_time)%Z in
    if (seconds (min_exchange_duration self) <=? duration)%Z
       && (duration <=? seconds (max_exchange_duration self))%Z
    then Some {| start_time := start_time;
                 end_time := end_time;
                 duration_seconds := duration;
                 operator_signals := operator_signals;
                 sequence_events := sequence_events;
                 relay_events := relay_events;
                 exchange_type := exchange_type;
                 confidence := confidence |}
    else None
  else None.

Definition _detect_exchanges (self : BasketExchangeAnalyzer) (events : list Event)
  : Outcome (list BasketExchange) :=
  let operator_events := filter (fun e => type e = "DIGITAL_INPUT") events in
  match _identify_exchange_windows self operator_events with
  | Returns exchange_candidates =>
      Returns (omap (detect_window self events) exchange_candidates)
  | Raises e => Raises e
  end.

End ArchivedDetect.

(** ** The decoded Digital-Input payload in the telemetry table *)

Module Telemetry.
Import Py Decoder.

(** The dictionary that [_decode_digital_input] returns, which
    [store_protobuf_message] writes to [payload_json] with [json.dumps] and
    the analyzers read back with [json.loads]. *)
Definition digital_input_dict (p : DigitalInput) : gmap string json :=
  list_to_map [
    ("pin", JNum (di_pin p));
    ("state", JBool (di_state p));
    ("state_name", JStr (di_state_name p));
    ("is_debounced", JBool (di_is_debounced p));
    ("input_type", JNum (di_input_type p));
    ("input_type_name", JStr (di_input_type_name p));
    ("debounce_time_ms", JNum (di_debounce_time_ms p))
  ].

End Telemetry.

(** ** The window identifier as the specification words it

    "Maintain at most one open window.  On a trigger event at time [t]: if no
    window is open, or the open window's last-trigger time is more than the
    inactivity timeout before [t], close the current window (if any) by setting
    its end to last trigger + post-pad, emit it, then open a new window with
    start [t] - pre-pad; else extend the open window's last trigger to [t].
    At stream end, close and emit any still-open window." *)

Module WindowSpec.

Record OpenWindow : Type := {
  start : Z;
  last_trigger : Z }.

Section Parameters.
Variables inactivity_timeout pre_pad post_pad : Z.

Definition close (w : OpenWindow) : Z * Z := (start w, last_trigger w + post_pad).

Fixpoint identify (open : option OpenWindow) (triggers : list Z) : list (Z * Z) :=
  match triggers with
  | [] =>
      match open with
      | Some w => [close w]
      | None => []
      end
  | t :: rest =>
      match open with
      | None => identify (Some {| start := t - pre_pad; last_trigger := t |}) rest
      | Some w =>
          if inactivity_timeout <? t - last_trigger w
          then close w :: identify (Some {| start := t - pre_pad; last_trigger := t |}) rest
          else identify (Some {| start := start w; last_trigger := t |}) rest
      end
  end.

End Parameters.
End WindowSpec.

(** ** The confidence score as the specification words it

    "0.8 baseline; minus 0.2 if more than one trigger event fired inside the
    window; plus 0.2 if any sequence-event is present; plus 0.2 if any
    relay-event is present; clamp to [0.6, 1.0] whenever at least one trigger
    fired, else 0.0." *)

Module ClassifierSpec.
Import PrimFloat.

Definition clamp (lo hi x : float) : float := Py.fmin hi (Py.fmax lo x).

Definition confidence (active_triggers : Z) (any_sequence any_relay : bool) : float :=
  if active_triggers <=? 0 then 0.0%float
  else
    clamp 0.6 1.0
      (0.8 - (if (1 <? active_triggers)%Z then 0.2 else 0.0)
           + (if any_sequence then 0.2 else 0.0)
           + (if any_relay then 0.2 else 0.0))%float.

End ClassifierSpec.

(** * Properties *)

Import Py.

(** ** Sequence tracker *)

Section SequenceTracker.
Import Decoder.

(** The tracker always records the sequence number it was given, touches no
    counter, and prints at most the gap warning. *)
Lemma check_sequence_run (msg_type sequence : Z) (w : World) :
  ∃ report out,
    check_sequence msg_type sequence w =
      ({| self := {| messages_received := messages_received (self w);
                     messages_decoded := messages_decoded (self w);
                     decode_errors := decode_errors (self w);
                     last_sequence := <[msg_type := sequence]> (last_sequence (self w)) |};
          stdout := stdout w ++ out |}, Returns report)
    ∧ out = match report with
            | Gap expected actual => [WarningSequenceGap msg_type expected actual]
            | _ => []
            end.
Proof.
  unfold check_sequence, get_last_sequence, set_last_sequence, update, print.
  unfold mbind, M_bind, mret, M_ret. cbn.
  destruct (last_sequence (self w) !! msg_type) as [last|] eqn:Hseen; cbn.
  - destruct (sequence =? (last + 1) mod 256) eqn:Heq; cbn.
    + exists Continues, []. rewrite app_nil_r. destruct w; auto.
    + eexists (Gap _ _), _. split; reflexivity.
  - exists First, []. rewrite app_nil_r. destruct w; auto.
Qed.

(** C3. The first frame of a type reports [First]; a frame whose sequence is
    [(last + 1) mod 256] reports [Continues]; any other sequence reports
    [Gap] with that expected value and the received one, and prints the gap
    warning.  In every case the received sequence becomes the last seen of
    that type, and the other types keep theirs.  The run 5, 6, 7, 9 reports
    First, Continues, Continues, Gap 8 9, and the runs 255, 0 and 254, 255, 0
    report no gap at the wrap. *)
Theorem sequence_tracker_contract (msg_type sequence : Z) (w : World) :
  let seen := last_sequence (self w) in
  let w' := fst (check_sequence msg_type sequence w) in
  let report := snd (check_sequence msg_type sequence w) in
  last_sequence (self w') = <[msg_type := sequence]> seen
  ∧ (∀ other, other ≠ msg_type → last_sequence (self w') !! other = seen !! other)
  ∧ (seen !! msg_type = None →
       report = Returns First ∧ stdout w' = stdout w)
  ∧ (∀ last, seen !! msg_type = Some last →
       sequence = (last + 1) mod 256 →
       report = Returns Continues ∧ stdout w' = stdout w)
  ∧ (∀ last, seen !! msg_type = Some last →
       sequence ≠ (last + 1) mod 256 →
       report = Returns (Gap ((last + 1) mod 256) sequence)
       ∧ stdout w' =
           stdout w ++ [WarningSequenceGap msg_type ((last + 1) mod 256) sequence])
  ∧ snd (Fixtures.check_sequences 0x10 [5; 6; 7; 9] Fixtures.fresh)
      = Returns [First; Continues; Continues; Gap 8 9]
  ∧ snd (Fixtures.check_sequences 0x10 [255; 0] Fixtures.fresh)
      = Returns [First; Continues]
  ∧ snd (Fixtures.check_sequences 0x10 [254; 255; 0] Fixtures.fresh)
      = Returns [First; Continues; Continues].
Proof.
  intros seen w' report. subst seen w' report.
  assert (Hlast : last_sequence (self (fst (check_sequence msg_type sequence w)))
                  = <[msg_type := sequence]> (last_sequence (self w))).
  { destruct (check_sequence_run msg_type sequence w) as (r & out & -> & _).
    reflexivity. }
  split; [exact Hlast|].
  split; [intros other Hother; rewrite Hlast; apply lookup_insert_ne; congruence|].
  unfold check_sequence, get_last_sequence, set_last_sequence, update, print.
  unfold mbind, M_bind, mret, M_ret. cbn.
  split; [|split; [|split]].
  - intros ->. cbn. auto.
  - intros last -> ->. cbn. rewrite Z.eqb_refl. cbn. auto.
  - intros last -> Hne. cbn.
    apply Z.eqb_neq in Hne. rewrite Hne. cbn. auto.
  - repeat split; vm_compute; reflexivity.
Qed.

(** A decoder that last saw sequence 7 for type 0x10: 8 continues, 9 is a
    gap, and type 0x11 is new. *)
Lemma sequence_tracker_contract_witness :
  let w := {| self := {| messages_received := 3; messages_decoded := 3;
                         decode_errors := 0;
                         last_sequence := {[ 0x10 := 7 ]} |};
              stdout := [] |} in
  snd (check_sequence 0x10 8 w) = Returns Continues
  ∧ snd (check_sequence 0x10 9 w) = Returns (Gap 8 9)
  ∧ stdout (fst (check_sequence 0x10 9 w)) = [WarningSequenceGap 0x10 8 9]
  ∧ snd (check_sequence 0x11 0 w) = Returns First
  ∧ last_sequence (self (fst (check_sequence 0x10 9 w))) !! 0x10 = Some 9.
Proof.
  intros w.
  destruct (sequence_tracker_contract 0x10 8 w) as (_ & _ & _ & Hcontinues & _).
  destruct (sequence_tracker_contract 0x10 9 w) as (Hlast & _ & _ & _ & Hgap & _).
  destruct (sequence_tracker_contract 0x11 0 w) as (_ & _ & Hfirst & _).
  destruct (Hcontinues 7) as [H1 _]; [reflexivity|reflexivity|].
  destruct (Hgap 7) as [H2 H3]; [reflexivity|discriminate|].
  destruct (Hfirst) as [H4 _]; [reflexivity|].
  split; [exact H1|]. split; [exact H2|]. split; [exact H3|]. split; [exact H4|].
  cbv zeta in Hlast. rewrite Hlast. apply lookup_insert_eq.
Defined.

End SequenceTracker.

(** ** Frame decoding *)

Section FrameDecoding.
Import Decoder.

Ltac run_M :=
  unfold incr_messages_received, incr_messages_decoded, incr_decode_errors,
         set_last_sequence, get_last_sequence, update, print, lift, try_except;
  unfold mbind, M_bind, mret, M_ret; cbn.

Lemma len_cons {A} (x : A) (l : list A) : len (x :: l) = 1 + len l.
Proof. unfold len. cbn [length]. lia. Qed.

Lemma len_nonneg {A} (l : list A) : 0 <= len l.
Proof. unfold len. lia. Qed.

(** A buffer of at least seven bytes is a seven-byte header followed by the
    payload. *)
Lemma framed_inv (data : list byte) :
  7 <= len data →
  ∃ b0 b1 b2 t0 t1 t2 t3 payload,
    data = b0 :: b1 :: b2 :: t0 :: t1 :: t2 :: t3 :: payload.
Proof.
  intros H.
  do 7 (destruct data as [|? data]; [unfold len in H; cbn in H; lia|]).
  repeat eexists.
Qed.

Lemma check_sequence_returns (msg_type sequence : Z) (w : World) :
  ∃ w' report,
    check_sequence msg_type sequence w = (w', Returns report)
    ∧ messages_received (self w') = messages_received (self w)
    ∧ messages_decoded (self w') = messages_decoded (self w)
    ∧ decode_errors (self w') = decode_errors (self w).
Proof.
  destruct (check_sequence_run msg_type sequence w) as (r & out & -> & _).
  eexists _, r. cbn. auto.
Qed.

(** Too-short buffers: counted as received and as an error, reported, [None]. *)
Lemma decode_message_too_short (data : list byte) (w : World) :
  len data < 7 →
  decode_message data w =
    ({| self := {| messages_received := messages_received (self w) + 1;
                   messages_decoded := messages_decoded (self w);
                   decode_errors := decode_errors (self w) + 1;
                   last_sequence := last_sequence (self w) |};
        stdout := stdout w ++ [ErrorMessageTooShort (len data)] |}, Returns None).
Proof.
  intros H. unfold decode_message, decode_message_body. run_M.
  destruct (Z.ltb_spec (len data) 7); [|lia]. reflexivity.
Qed.

(** A size byte that differs from the buffer length: same treatment, with the
    size-mismatch line. *)
Lemma decode_message_size_mismatch (data : list byte) (size_byte : Z) (w : World) :
  7 <= len data →
  index data 0 = Returns size_byte →
  size_byte ≠ len data →
  decode_message data w =
    ({| self := {| messages_received := messages_received (self w) + 1;
                   messages_decoded := messages_decoded (self w);
                   decode_errors := decode_errors (self w) + 1;
                   last_sequence := last_sequence (self w) |};
        stdout := stdout w ++ [ErrorSizeMismatch size_byte (len data)] |}, Returns None).
Proof.
  intros Hlen Hidx Hne. unfold decode_message, decode_message_body. run_M.
  destruct (Z.ltb_spec (len data) 7); [lia|].
  rewrite Hidx. apply Z.eqb_neq in Hne. rewrite Hne. reflexivity.
Qed.

(** An accepted frame: the header is read without raising and the rest of
    the body runs on the seven header bytes and the payload. *)
Lemma decode_message_body_accepted (b0 b1 b2 t0 t1 t2 t3 : byte) (payload : list byte)
  (w : World) :
  let data := b0 :: b1 :: b2 :: t0 :: t1 :: t2 :: t3 :: payload in
  byte_val b0 = len data →
  decode_message_body data w =
    (incr_messages_received;;
     decode_accepted (byte_val b0) (byte_val b1) (byte_val b2)
       (le_uint [t0; t1; t2; t3]) payload) w.
Proof.
  intros data Hsize. unfold decode_message_body.
  assert (Hlen : len data = 7 + len payload).
  { subst data. rewrite !len_cons. lia. }
  pose proof (len_nonneg payload) as Hpos.
  destruct (Z.ltb_spec (len data) 7); [lia|].
  replace (lift (index data 0)) with (lift (Returns (byte_val b0))) by reflexivity.
  replace (lift (index data 1)) with (lift (Returns (byte_val b1))) by reflexivity.
  replace (lift (index data 2)) with (lift (Returns (byte_val b2))) by reflexivity.
  replace (slice 3 7 data) with [t0; t1; t2; t3] by reflexivity.
  replace (if 7 <? len data then slice_from 7 data else []) with payload.
  2:{ destruct (Z.ltb_spec 7 (len data)); [reflexivity|].
      destruct payload; [reflexivity|].
      rewrite len_cons in Hlen. pose proof (len_nonneg payload). lia. }
  unfold mbind, M_bind, lift, incr_messages_received, update.
  cbv beta iota. rewrite Hsize, Z.eqb_refl. reflexivity.
Qed.

(** The outcome of an accepted frame, by what the handler table and the
    handler do. *)
Lemma decode_message_accepted (b0 b1 b2 t0 t1 t2 t3 : byte) (payload : list byte)
  (w : World) :
  let data := b0 :: b1 :: b2 :: t0 :: t1 :: t2 :: t3 :: payload in
  let message decoded_payload :=
    {| msg_size := byte_val b0;
       msg_type := byte_val b1;
       msg_type_name := _get_type_name (byte_val b1);
       msg_sequence := byte_val b2;
       msg_timestamp := le_uint [t0; t1; t2; t3];
       msg_payload := decoded_payload;
       msg_raw_payload_hex := bytes_hex payload |} in
  byte_val b0 = len data →
  ∃ w1 report,
    check_sequence (byte_val b1) (byte_val b2)
      {| self := {| messages_received := messages_received (self w) + 1;
                    messages_decoded := messages_decoded (self w);
                    decode_errors := decode_errors (self w);
                    last_sequence := last_sequence (self w) |};
         stdout := stdout w |} = (w1, Returns report)
    ∧ messages_received (self w1) = messages_received (self w) + 1
    ∧ messages_decoded (self w1) = messages_decoded (self w)
    ∧ decode_errors (self w1) = decode_errors (self w)
    ∧ decode_message data w =
        match message_handlers !! byte_val b1 with
        | Some handler =>
            match handler payload with
            | Returns (Some p) =>
                ({| self := {| messages_received := messages_received (self w1);
                               messages_decoded := messages_decoded (self w1) + 1;
                               decode_errors := decode_errors (self w1);
                               last_sequence := last_sequence (self w1) |};
                    stdout := stdout w1 |}, Returns (Some (message (Some p))))
            | Returns None => (w1, Returns (Some (message None)))
            | Raises e =>
                ({| self := {| messages_received := messages_received (self w1);
                               messages_decoded := messages_decoded (self w1);
                               decode_errors := decode_errors (self w1) + 1;
                               last_sequence := last_sequence (self w1) |};
                    stdout := stdout w1 ++ [ErrorDecodeException e] |}, Returns None)
            end
        | None =>
            ({| self := self w1;
                stdout := stdout w1 ++ [WarningUnknownMessageType (byte_val b1)] |},
             Returns (Some (message None)))
        end.
Proof.
  intros data message Hsize. subst data.
  match goal with |- context [check_sequence ?t ?s ?w0] =>
    destruct (check_sequence_returns t s w0) as (w1 & report & Hcs & Hr & Hd & He) end.
  exists w1, report. cbn in Hr, Hd, He. repeat (split; [assumption|]).
  unfold decode_message, try_except.
  rewrite decode_message_body_accepted by exact Hsize.
  unfold decode_accepted, incr_messages_received, update, mbind, M_bind.
  cbv beta iota. rewrite Hcs. cbv beta iota.
  destruct (message_handlers !! byte_val b1) as [handler|].
  - unfold lift. destruct (handler payload) as [[p|]|e]; reflexivity.
  - reflexivity.
Qed.

(** Every call returns: with [None] and one more decode error, or with a
    dictionary and the error count unchanged; the frame is counted as
    received either way. *)
Lemma decode_message_returns (binary_data : list byte) (w : World) :
  ∃ w' result,
    decode_message binary_data w = (w', Returns result)
    ∧ messages_received (self w') = messages_received (self w) + 1
    ∧ decode_errors (self w') =
        decode_errors (self w) + (if result is Some _ then 0 else 1).
Proof.
  destruct (Z.lt_ge_cases (len binary_data) 7) as [Hshort|Hlong].
  - rewrite decode_message_too_short by exact Hshort.
    eexists _, None. cbn. auto.
  - destruct (framed_inv binary_data Hlong)
      as (b0 & b1 & b2 & t0 & t1 & t2 & t3 & payload & ->).
    destruct (Z.eq_dec (byte_val b0)
                (len (b0 :: b1 :: b2 :: t0 :: t1 :: t2 :: t3 :: payload)))
      as [Hsize|Hsize].
    + destruct (decode_message_accepted b0 b1 b2 t0 t1 t2 t3 payload w Hsize)
        as (w1 & report & _ & Hr & _ & He & ->).
      destruct (message_handlers !! byte_val b1) as [handler|].
      * destruct (handler payload) as [[p|]|e]; eexists _, _;
          (split; [reflexivity|]); cbn; rewrite ?Hr, ?He; lia.
      * eexists _, _. split; [reflexivity|]. cbn. rewrite ?Hr, ?He. lia.
    + rewrite (decode_message_size_mismatch _ (byte_val b0)) by auto.
      eexists _, None. cbn. auto.
Qed.

(** A stream of buffers is consumed to its end: one returned value per
    buffer, none of them an exception. *)
Lemma decode_stream_returns (frames : list (list byte)) :
  ∀ w : World,
    Forall (fun r => ∃ result, r = Returns result) (snd (decode_stream frames w))
    ∧ length (snd (decode_stream frames w)) = length frames
    ∧ messages_received (self (fst (decode_stream frames w)))
      = messages_received (self w) + len frames.
Proof.
  induction frames as [|f frames IH]; intros w.
  - cbn. split; [constructor|]. split; [reflexivity|]. unfold len. cbn. lia.
  - cbn [decode_stream].
    destruct (decode_message_returns f w) as (w1 & result & -> & Hreceived & _).
    destruct (IH w1) as (Hall & Hlength & Hcount).
    destruct (decode_stream frames w1) as [w2 rs]. cbn in *.
    split; [constructor; eauto|]. split; [congruence|].
    rewrite Hcount, Hreceived, len_cons. lia.
Qed.

(** C9. Whatever the buffer and the state of the decoder, [decode_message]
    returns normally, with a dictionary or with [None]: the exceptions its
    body raises are caught.  The frame is always counted as received, and
    [None] is returned exactly when one more decode error is counted.  A
    stream of buffers, whatever they hold, is therefore decoded to its end,
    one returned value per buffer. *)
Theorem decode_message_total (binary_data : list byte) (frames : list (list byte))
  (w : World) :
  (∃ w' result,
     decode_message binary_data w = (w', Returns result)
     ∧ messages_received (self w') = messages_received (self w) + 1
     ∧ decode_errors (self w') =
         decode_errors (self w) + (if result is Some _ then 0 else 1))
  ∧ Forall (fun r => ∃ result, r = Returns result) (snd (decode_stream frames w))
  ∧ length (snd (decode_stream frames w)) = length frames.
Proof.
  split.
  - apply decode_message_returns.
  - destruct (decode_stream_returns frames w) as (Hall & Hlength & _).
    split; assumption.
Qed.

(** The [try] is needed: on a Digital-Input frame with a five-byte payload
    the body itself raises [struct.error]. *)
Lemma decode_message_body_can_raise :
  snd (decode_message_body
         (Fixtures.frame [0x0C; 0x10; 0x01; 0x4E; 0x61; 0xBC; 0x00;
                          0x06; 0x16; 0x0A; 0x01; 0x02]) Fixtures.fresh)
  = Raises StructError.
Proof. vm_compute. reflexivity. Qed.

(** *** The length prefix *)

(** A buffer that [decode_message] turns into a dictionary has a size byte
    equal to its whole length. *)
Lemma decode_message_accepts_only_inclusive_size
  (data : list byte) (w w' : World) (m : Message) :
  decode_message data w = (w', Returns (Some m)) →
  7 <= len data ∧ index data 0 = Returns (len data) ∧ msg_size m = len data.
Proof.
  intros Hdec.
  destruct (Z.lt_ge_cases (len data) 7) as [Hshort|Hlong].
  { rewrite decode_message_too_short in Hdec by exact Hshort. discriminate. }
  destruct (framed_inv data Hlong)
    as (b0 & b1 & b2 & t0 & t1 & t2 & t3 & payload & ->).
  destruct (Z.eq_dec (byte_val b0)
              (len (b0 :: b1 :: b2 :: t0 :: t1 :: t2 :: t3 :: payload)))
    as [Hsize|Hsize].
  - split; [exact Hlong|]. split; [cbn; f_equal; exact Hsize|].
    destruct (decode_message_accepted b0 b1 b2 t0 t1 t2 t3 payload w Hsize)
      as (w1 & report & _ & _ & _ & _ & Heq).
    rewrite Heq in Hdec.
    destruct (message_handlers !! byte_val b1) as [handler|].
    + destruct (handler payload) as [[p|]|e];
        inversion Hdec; subst; cbn; exact Hsize.
    + inversion Hdec; subst; cbn; exact Hsize.
  - rewrite (decode_message_size_mismatch _ (byte_val b0)) in Hdec by auto.
    discriminate.
Qed.

End FrameDecoding.

(** ** The stream verifier *)

Section Verifier.
Import Verify.

(** [validate_message] implements the length-prefix contract: it never
    raises, it validates a buffer of at least seven bytes only if the size
    byte plus one is the buffer length, and it reports the size mismatch, and
    nothing else, whenever the two differ. *)
Lemma validate_message_length_contract (data : list byte) :
  7 <= len data →
  ∃ declared result,
    index data 0 = Returns declared
    ∧ validate_message data = Returns result
    ∧ (valid result = true → declared + 1 = len data)
    ∧ (declared + 1 ≠ len data →
         valid result = false
         ∧ issues result = [SizeMismatch declared (declared + 1) (len data)]).
Proof.
  intros Hlong.
  destruct (framed_inv data Hlong)
    as (b0 & b1 & b2 & t0 & t1 & t2 & t3 & payload & ->).
  set (data := b0 :: b1 :: b2 :: t0 :: t1 :: t2 :: t3 :: payload) in *.
  exists (byte_val b0). unfold validate_message.
  destruct (Z.ltb_spec (len data) 7); [lia|].
  replace (index data 0) with (Returns (byte_val b0)) by reflexivity.
  replace (index data 1) with (Returns (byte_val b1)) by reflexivity.
  replace (index data 2) with (Returns (byte_val b2)) by reflexivity.
  unfold mbind, Outcome_bind, mret, Outcome_ret. cbv beta iota.
  destruct (Z.eqb_spec (byte_val b0 + 1) (len data)) as [Heq|Hne]; cbn [negb].
  2:{ eexists. split; [reflexivity|]. split; [reflexivity|]. cbn.
      split; [discriminate|]. auto. }
  destruct (33 <? byte_val b0);
    [eexists; repeat split; cbn; auto; try discriminate; contradiction|].
  destruct (byte_val b0 <? 9);
    [eexists; repeat split; cbn; auto; try discriminate; contradiction|].
  destruct (VALID_MESSAGE_TYPES !! byte_val b1) as [name|] eqn:Hvalid.
  2:{ rewrite bool_decide_eq_false_2 by (intros [? ?]; discriminate).
      eexists; repeat split; cbn; auto; try discriminate; contradiction. }
  rewrite bool_decide_eq_true_2 by eauto. cbn [negb].
  assert (Hexp : is_Some (EXPECTED_PAYLOAD_SIZES !! byte_val b1)).
  { destruct (decide (0x10 <= byte_val b1 <= 0x17)) as [Hin|Hout].
    - assert (Hcases : byte_val b1 = 0x10 ∨ byte_val b1 = 0x11 ∨ byte_val b1 = 0x12
                       ∨ byte_val b1 = 0x13 ∨ byte_val b1 = 0x14 ∨ byte_val b1 = 0x15
                       ∨ byte_val b1 = 0x16 ∨ byte_val b1 = 0x17) by lia.
      destruct Hcases as [->|[->|[->|[->|[->|[->|[->| ->]]]]]]]; vm_compute; eauto.
    - exfalso. revert Hvalid. unfold VALID_MESSAGE_TYPES. cbn.
      rewrite !lookup_insert_ne by lia. rewrite lookup_empty. discriminate. }
  destruct Hexp as [expected ->].
  match goal with |- context [negb ?c] => destruct c end; cbn;
    eexists; repeat split; cbn; auto; try discriminate; contradiction.
Qed.

(** The frame that [decode_message] refuses is valid for the verifier. *)
Lemma validate_message_accepts_failing_input :
  valid <$> (validate_message'
               (Fixtures.frame [0x09; 0x11; 0x02; 0x4E; 0x61; 0xBC; 0x00; 0x09; 0x03; 0x00]))
  = Some true.
Proof. vm_compute. reflexivity. Qed.

(** *** The length prefix in the decoder and in the verifier *)

(** C1 (amended). The two readers of a frame hold different length
    contracts.  [decode_message] takes the size byte as the length of the
    whole buffer: on a buffer of at least seven bytes it returns a dictionary
    only if the size byte equals the buffer length, and whenever the two
    differ it returns [None], prints the size-mismatch error and counts a
    decode error.  [validate_message] takes the size byte as the length
    without the size byte itself: it finds the buffer valid only if the size
    byte plus one equals the buffer length, and whenever the two differ it
    reports the size mismatch, and nothing else. *)
Theorem frame_length_contract (data : list byte) (declared : Z) (w : Decoder.World) :
  7 <= len data →
  index data 0 = Returns declared →
  (∀ w' m,
     Decoder.decode_message data w = (w', Returns (Some m)) → declared = len data)
  ∧ (declared ≠ len data →
       ∃ w',
         Decoder.decode_message data w = (w', Returns None)
         ∧ Decoder.stdout w' =
             Decoder.stdout w ++ [Decoder.ErrorSizeMismatch declared (len data)]
         ∧ Decoder.decode_errors (Decoder.self w') =
             Decoder.decode_errors (Decoder.self w) + 1
         ∧ Decoder.messages_decoded (Decoder.self w') =
             Decoder.messages_decoded (Decoder.self w))
  ∧ ∃ result,
      validate_message data = Returns result
      ∧ (valid result = true → declared + 1 = len data)
      ∧ (declared + 1 ≠ len data →
           valid result = false
           ∧ issues result = [SizeMismatch declared (declared + 1) (len data)]).
Proof.
  intros Hlong Hidx. split; [|split].
  - intros w' m Hdec.
    destruct (decode_message_accepts_only_inclusive_size data w w' m Hdec)
      as (_ & Hsize & _).
    rewrite Hidx in Hsize. injection Hsize as Hsize. exact Hsize.
  - intros Hne.
    rewrite (decode_message_size_mismatch data declared w Hlong Hidx Hne).
    eexists. split; [reflexivity|]. cbn. auto.
  - destruct (validate_message_length_contract data Hlong)
      as (declared' & result & Hidx' & Hval & Hvalid & Hmismatch).
    rewrite Hidx in Hidx'. injection Hidx' as <-.
    exists result. auto.
Qed.

(** The Digital-Output frame sent with the size byte 9 for its ten bytes:
    refused by the decoder for its size, valid for the verifier. *)
Lemma frame_length_contract_witness :
  let data := Fixtures.frame [0x09; 0x11; 0x02; 0x4E; 0x61; 0xBC; 0x00; 0x09; 0x03; 0x00] in
  (∀ w' m,
     Decoder.decode_message data Fixtures.fresh = (w', Returns (Some m)) → 9 = len data)
  ∧ (9 ≠ len data →
       ∃ w',
         Decoder.decode_message data Fixtures.fresh = (w', Returns None)
         ∧ Decoder.stdout w' =
             Decoder.stdout Fixtures.fresh ++ [Decoder.ErrorSizeMismatch 9 (len data)]
         ∧ Decoder.decode_errors (Decoder.self w') =
             Decoder.decode_errors (Decoder.self Fixtures.fresh) + 1
         ∧ Decoder.messages_decoded (Decoder.self w') =
             Decoder.messages_decoded (Decoder.self Fixtures.fresh))
  ∧ ∃ result,
      validate_message data = Returns result
      ∧ (valid result = true → 9 + 1 = len data)
      ∧ (9 + 1 ≠ len data →
           valid result = false
           ∧ issues result = [SizeMismatch 9 (9 + 1) (len data)]).
Proof.
  intros data. apply (frame_length_contract data 9 Fixtures.fresh).
  - vm_compute. discriminate.
  - reflexivity.
Defined.

(** C1 as the specification states it does not hold for [decode_message].
    The fixture [digital_output] of the decoder's tests has ten bytes and
    the size byte 10, so its declared length plus one is not its length; it
    is decoded all the same, payload included, and no size mismatch is
    reported. *)
Lemma inclusive_size_frame_is_decoded :
  let data := Fixtures.frame [0x0A; 0x11; 0x02; 0x4E; 0x61; 0xBC; 0x00; 0x09; 0x03; 0x00] in
  let run := Decoder.decode_message data Fixtures.fresh in
  7 <= len data
  ∧ index data 0 = Returns 10
  ∧ 10 + 1 ≠ len data
  ∧ (∃ m, snd run = Returns (Some m) ∧ is_Some (Decoder.msg_payload m))
  ∧ Decoder.stdout (fst run) = []
  ∧ Decoder.decode_errors (Decoder.self (fst run)) = 0.
Proof.
  vm_compute. split; [discriminate|]. split; [reflexivity|].
  split; [discriminate|]. split; [eexists; split; [reflexivity|eauto]|].
  split; reflexivity.
Qed.

End Verifier.

(** ** Payload decoding *)

Section PayloadDecoding.
Import Decoder.

Lemma message_handlers_unknown (msg_type : Z) :
  ¬ (0x10 <= msg_type <= 0x17) → message_handlers !! msg_type = None.
Proof.
  intros Hout. unfold message_handlers. cbn.
  rewrite !lookup_insert_ne by lia. apply lookup_empty.
Qed.

Lemma _get_type_name_unknown (msg_type : Z) :
  ¬ (0x10 <= msg_type <= 0x17) →
  _get_type_name msg_type = "UNKNOWN_0x" +:+ hex02X msg_type.
Proof.
  intros Hout. unfold _get_type_name, type_names. cbn [list_to_map foldr fst snd].
  rewrite !lookup_insert_ne by lia. rewrite lookup_empty. reflexivity.
Qed.

(** C6 (amended). A buffer that passes the frame check and whose type code is
    none of 0x10..0x17 reaches no payload handler: the unknown-type warning
    is printed and the frame is counted neither as decoded nor as an error.
    [decode_message] still returns a dictionary for it, holding the header
    fields, the name [UNKNOWN_0xNN] and the payload [None]. *)
Theorem decode_message_unknown_type (data : list byte) (type_code : Z) (w : World) :
  7 <= len data →
  index data 0 = Returns (len data) →
  index data 1 = Returns type_code →
  ¬ (0x10 <= type_code <= 0x17) →
  ∃ w' m,
    decode_message data w = (w', Returns (Some m))
    ∧ msg_type m = type_code
    ∧ msg_type_name m = "UNKNOWN_0x" +:+ hex02X type_code
    ∧ msg_payload m = None
    ∧ last (stdout w') = Some (WarningUnknownMessageType type_code)
    ∧ messages_decoded (self w') = messages_decoded (self w)
    ∧ decode_errors (self w') = decode_errors (self w).
Proof.
  intros Hlong Hsize Htype Hout.
  destruct (framed_inv data Hlong)
    as (b0 & b1 & b2 & t0 & t1 & t2 & t3 & payload & ->).
  injection Hsize as Hsize. injection Htype as Htype.
  destruct (decode_message_accepted b0 b1 b2 t0 t1 t2 t3 payload w Hsize)
    as (w1 & report & _ & _ & Hd & He & ->).
  rewrite Htype. rewrite (message_handlers_unknown type_code Hout).
  eexists _, _. split; [reflexivity|]. cbn.
  rewrite (_get_type_name_unknown type_code Hout), last_snoc.
  repeat split; assumption.
Qed.

Lemma decode_message_unknown_type_witness :
  let data := Fixtures.frame [0x0A; 0x20; 0x01; 0x4E; 0x61; 0xBC; 0x00; 0x06; 0x16; 0x0A] in
  ∃ w' m,
    decode_message data Fixtures.fresh = (w', Returns (Some m))
    ∧ msg_type m = 0x20
    ∧ msg_type_name m = "UNKNOWN_0x" +:+ hex02X 0x20
    ∧ msg_payload m = None
    ∧ last (stdout w') = Some (WarningUnknownMessageType 0x20)
    ∧ messages_decoded (self w') = messages_decoded (self Fixtures.fresh)
    ∧ decode_errors (self w') = decode_errors (self Fixtures.fresh).
Proof.
  intros data.
  apply (decode_message_unknown_type data 0x20 Fixtures.fresh).
  - vm_compute. discriminate.
  - reflexivity.
  - reflexivity.
  - lia.
Defined.

(** C6 as the specification states it does not hold: the frame of type 0x20
    is returned as a dictionary, and no decode error is counted. *)
Lemma unknown_type_frame_yields_record :
  let run :=
    decode_message
      (Fixtures.frame [0x0A; 0x20; 0x01; 0x4E; 0x61; 0xBC; 0x00; 0x06; 0x16; 0x0A])
      Fixtures.fresh in
  snd run = Returns (Some {| msg_size := 10;
                             msg_type := 0x20;
                             msg_type_name := "UNKNOWN_0x20";
                             msg_sequence := 1;
                             msg_timestamp := 12345678;
                             msg_payload := None;
                             msg_raw_payload_hex := "06160a" |})
  ∧ decode_errors (self (fst run)) = 0
  ∧ stdout (fst run) = [WarningUnknownMessageType 0x20].
Proof. vm_compute. repeat split; reflexivity. Qed.

(** *** Digital-Input *)

(** The flags byte: bit 0, bit 1 and the six bits above them. *)
Lemma digital_input_flags (flags : byte) :
  bit_set (byte_val flags) 0x01 = Z.testbit (byte_val flags) 0
  ∧ bit_set (byte_val flags) 0x02 = Z.testbit (byte_val flags) 1
  ∧ Z.land (Z.shiftr (byte_val flags) 2) 0x3F = byte_val flags / 4.
Proof.
  (* a check over the 256 values of the byte *)
  destruct flags; vm_compute; auto.
Qed.

Lemma _decode_digital_input_four_bytes (pin flags d0 d1 : byte) :
  _decode_digital_input [pin; flags; d0; d1] =
    Returns (Some (PDigitalInput {|
      di_pin := byte_val pin;
      di_state := bit_set (byte_val flags) 0x01;
      di_state_name := if bit_set (byte_val flags) 0x01 then "ACTIVE" else "INACTIVE";
      di_is_debounced := bit_set (byte_val flags) 0x02;
      di_input_type := Z.land (Z.shiftr (byte_val flags) 2) 0x3F;
      di_input_type_name :=
        _get_input_type_name (Z.land (Z.shiftr (byte_val flags) 2) 0x3F);
      di_debounce_time_ms := le_uint [d0; d1] |})).
Proof. reflexivity. Qed.

(** The handler wants exactly four bytes: fewer give [None], more make
    [struct.unpack] raise. *)
Lemma _decode_digital_input_other_sizes (payload : list byte) :
  (len payload < 4 → _decode_digital_input payload = Returns None)
  ∧ (4 < len payload → _decode_digital_input payload = Raises StructError).
Proof.
  unfold _decode_digital_input. split; intros Hlen.
  - destruct (Z.ltb_spec (len payload) 4); [reflexivity|lia].
  - destruct (Z.ltb_spec (len payload) 4); [lia|].
    do 5 (destruct payload as [|? payload]; [unfold len in Hlen; cbn in Hlen; lia|]).
    reflexivity.
Qed.

(** What the handler does decode is a payload of four bytes: the pin, a
    flags byte holding active (bit 0), debounced (bit 1) and the input kind
    (bits 2-7), and a 16-bit little-endian debounce time.  Every accepted
    Digital-Input frame with such a payload decodes to those fields and is
    counted as decoded. *)
Lemma digital_input_four_byte_payload
  (b0 b1 b2 t0 t1 t2 t3 pin flags d0 d1 : byte) (w : World) :
  let data := [b0; b1; b2; t0; t1; t2; t3; pin; flags; d0; d1] in
  byte_val b0 = len data →
  byte_val b1 = 0x10 →
  ∃ w' m p,
    decode_message data w = (w', Returns (Some m))
    ∧ msg_type_name m = "DIGITAL_INPUT"
    ∧ msg_payload m = Some (PDigitalInput p)
    ∧ di_pin p = byte_val pin
    ∧ di_state p = Z.testbit (byte_val flags) 0
    ∧ di_state_name p = (if Z.testbit (byte_val flags) 0 then "ACTIVE" else "INACTIVE")
    ∧ di_is_debounced p = Z.testbit (byte_val flags) 1
    ∧ di_input_type p = byte_val flags / 4
    ∧ di_input_type_name p = _get_input_type_name (byte_val flags / 4)
    ∧ di_debounce_time_ms p = byte_val d0 + 256 * byte_val d1
    ∧ messages_decoded (self w') = messages_decoded (self w) + 1
    ∧ decode_errors (self w') = decode_errors (self w).
Proof.
  intros data Hsize Htype. subst data.
  destruct (decode_message_accepted b0 b1 b2 t0 t1 t2 t3 [pin; flags; d0; d1] w Hsize)
    as (w1 & report & _ & _ & Hd & He & ->).
  rewrite Htype.
  replace (message_handlers !! 16) with (Some _decode_digital_input) by reflexivity.
  rewrite _decode_digital_input_four_bytes.
  destruct (digital_input_flags flags) as (Hactive & Hdebounced & Hkind).
  eexists _, _, _. split; [reflexivity|]. cbn [msg_type_name msg_payload].
  split; [reflexivity|]. split; [reflexivity|].
  cbn [di_pin di_state di_state_name di_is_debounced di_input_type
       di_input_type_name di_debounce_time_ms self messages_decoded decode_errors].
  rewrite Hactive, Hdebounced, Hkind.
  repeat split; try assumption; try reflexivity.
  - cbn [le_uint]. lia.
  - lia.
Qed.

(** An accepted Digital-Input frame with a payload of fewer than four bytes
    is returned with the payload [None] and is not counted as decoded. *)
Lemma digital_input_short_payload
  (b0 b1 b2 t0 t1 t2 t3 : byte) (payload : list byte) (w : World) :
  let data := b0 :: b1 :: b2 :: t0 :: t1 :: t2 :: t3 :: payload in
  byte_val b0 = len data →
  byte_val b1 = 0x10 →
  len payload < 4 →
  ∃ w' m,
    decode_message data w = (w', Returns (Some m))
    ∧ msg_payload m = None
    ∧ messages_decoded (self w') = messages_decoded (self w).
Proof.
  intros data Hsize Htype Hshort. subst data.
  destruct (decode_message_accepted b0 b1 b2 t0 t1 t2 t3 payload w Hsize)
    as (w1 & report & _ & _ & Hd & He & ->).
  rewrite Htype.
  replace (message_handlers !! 16) with (Some _decode_digital_input) by reflexivity.
  destruct (_decode_digital_input_other_sizes payload) as [Hnone _].
  rewrite (Hnone Hshort).
  eexists _, _. split; [reflexivity|]. cbn. auto.
Qed.

(** C7. The claim fails on the code.  A Digital-Input frame that passes the
    frame check with the three-byte payload of the claim (pin, flags and one
    more byte) is returned with its header and the payload [None]: neither
    the pin nor a flag is decoded, and the frame is not counted as decoded,
    nor as an error.  [_decode_digital_input] tests [len(payload) < 4] and
    unpacks ['<BBH']; the fixture [digital_input_3byte] of the decoder's
    tests, which [test_digital_input_decode] expects to decode, is such a
    frame. *)
Theorem digital_input_three_byte_payload_undecoded
  (b0 b1 b2 t0 t1 t2 t3 pin flags third : byte) (w : World) :
  let data := [b0; b1; b2; t0; t1; t2; t3; pin; flags; third] in
  byte_val b0 = len data →
  byte_val b1 = 0x10 →
  ∃ w' m,
    decode_message data w = (w', Returns (Some m))
    ∧ msg_type_name m = "DIGITAL_INPUT"
    ∧ msg_payload m = None
    ∧ messages_decoded (self w') = messages_decoded (self w)
    ∧ decode_errors (self w') = decode_errors (self w).
Proof.
  intros data Hsize Htype. subst data.
  destruct (decode_message_accepted b0 b1 b2 t0 t1 t2 t3 [pin; flags; third] w Hsize)
    as (w1 & report & _ & _ & Hd & He & ->).
  rewrite Htype.
  replace (message_handlers !! 16) with (Some _decode_digital_input) by reflexivity.
  destruct (_decode_digital_input_other_sizes [pin; flags; third]) as [Hnone _].
  rewrite Hnone by (vm_compute; reflexivity).
  eexists _, _. split; [reflexivity|]. cbn. auto.
Qed.

(** The failing input: the fixture [digital_input_3byte], pin 6 with the
    flags 0x16. *)
Lemma digital_input_three_byte_payload_undecoded_witness :
  let B := Fixtures.B in
  ∃ w' m,
    decode_message
      [B 0x0A; B 0x10; B 0x01; B 0x4E; B 0x61; B 0xBC; B 0x00; B 0x06; B 0x16; B 0x0A]
      Fixtures.fresh = (w', Returns (Some m))
    ∧ msg_type_name m = "DIGITAL_INPUT"
    ∧ msg_payload m = None
    ∧ messages_decoded (self w') = messages_decoded (self Fixtures.fresh)
    ∧ decode_errors (self w') = decode_errors (self Fixtures.fresh).
Proof.
  intros B.
  apply (digital_input_three_byte_payload_undecoded
           (B 0x0A) (B 0x10) (B 0x01) (B 0x4E) (B 0x61) (B 0xBC) (B 0x00)
           (B 0x06) (B 0x16) (B 0x0A) Fixtures.fresh).
  - reflexivity.
  - reflexivity.
Defined.

(** The same three-byte payload is not decoded to its fields whichever way
    the frame is sized: with the size byte counting itself the payload is
    [None] and nothing is counted as decoded; with the size byte excluding
    itself the frame is refused for its size, by the decoder and, for its
    payload size, by the verifier. *)
Lemma digital_input_three_byte_payload_not_decoded :
  let inclusive :=
    decode_message
      (Fixtures.frame [0x0A; 0x10; 0x01; 0x4E; 0x61; 0xBC; 0x00; 0x06; 0x16; 0x0A])
      Fixtures.fresh in
  let exclusive :=
    Fixtures.frame [0x09; 0x10; 0x01; 0x4E; 0x61; 0xBC; 0x00; 0x06; 0x16; 0x0A] in
  snd inclusive = Returns (Some {| msg_size := 10;
                                   msg_type := 0x10;
                                   msg_type_name := "DIGITAL_INPUT";
                                   msg_sequence := 1;
                                   msg_timestamp := 12345678;
                                   msg_payload := None;
                                   msg_raw_payload_hex := "06160a" |})
  ∧ messages_decoded (self (fst inclusive)) = 0
  ∧ snd (decode_message exclusive Fixtures.fresh) = Returns None
  ∧ Verify.issues <$> Verify.validate_message' exclusive
    = Some [Verify.InvalidPayloadSize 3 (Verify.Exactly 4)].
Proof. vm_compute. repeat split; reflexivity. Qed.

End PayloadDecoding.


(** ** Window identification by inactivity timeout *)

Section WindowIdentifier.
Import Archived.

Variable self : BasketExchangeAnalyzer.

Lemma scan_events_app (st : Scan) (l1 l2 : list Event) :
  scan_events self st (l1 ++ l2) =
    (st' ← scan_events self st l1; scan_events self st' l2).
Proof.
  revert st. induction l1 as [|e l1 IH]; intros st; cbn [app scan_events].
  - reflexivity.
  - unfold mbind at 1 3. unfold Outcome_bind.
    destruct (scan_event self st e) as [st1|exn]; [apply IH|reflexivity].
Qed.

(** A signal that is not an active operator signal leaves the scan as it is. *)
Lemma scan_event_ignored (st : Scan) (event : Event) :
  is_active_operator_signal event = false → scan_event self st event = Returns st.
Proof. intros H. unfold scan_event. rewrite H. reflexivity. Qed.

(** An active operator signal while a window is open. *)
Lemma scan_event_open (start last : Z) (closed : list (Z * Z)) (event : Event) :
  is_active_operator_signal event = true →
  scan_event self
    {| current_window_start := Some start; last_signal_time := Some last;
       windows := closed |} event =
  Returns
    (if timestamp event - last <=? seconds (operator_signal_timeout self)
     then {| current_window_start := Some start;
             last_signal_time := Some (timestamp event);
             windows := closed |}
     else {| current_window_start := Some (timestamp event);
             last_signal_time := Some (timestamp event);
             windows := closed ++ [(start - seconds 30, last + seconds 120)] |}).
Proof.
  intros H. unfold scan_event. rewrite H. cbn.
  destruct (timestamp event - last <=? seconds (operator_signal_timeout self));
    reflexivity.
Qed.

(** C4. Let the scan of [events] leave a window open, started by the trigger
    at [start] and last extended by the trigger at [last].  A further active
    trigger at most the timeout after [last] (equality included) stays in that
    window; one strictly later closes it with end [last + 120 s] and opens a
    window that starts at the new trigger minus 30 s.  At the end of the
    input the open window is emitted with the same end formula. *)
Theorem window_identifier_grouping
  (events : list Event) (event : Event) (start last : Z) (closed : list (Z * Z)) :
  scan_events self scan_start events =
    Returns {| current_window_start := Some start; last_signal_time := Some last;
               windows := closed |} →
  is_active_operator_signal event = true →
  let t := timestamp event in
  let timeout := seconds (operator_signal_timeout self) in
  _identify_exchange_windows self events =
    Returns (closed ++ [(start - seconds 30, last + seconds 120)])
  ∧ (t - last <= timeout →
       scan_events self scan_start (events ++ [event]) =
         Returns {| current_window_start := Some start; last_signal_time := Some t;
                    windows := closed |}
       ∧ _identify_exchange_windows self (events ++ [event]) =
           Returns (closed ++ [(start - seconds 30, t + seconds 120)]))
  ∧ (timeout < t - last →
       scan_events self scan_start (events ++ [event]) =
         Returns {| current_window_start := Some t; last_signal_time := Some t;
                    windows := closed ++ [(start - seconds 30, last + seconds 120)] |}
       ∧ _identify_exchange_windows self (events ++ [event]) =
           Returns (closed ++ [(start - seconds 30, last + seconds 120);
                               (t - seconds 30, t + seconds 120)])).
Proof.
  intros Hscan Htrigger t timeout.
  assert (Hstep : scan_events self scan_start (events ++ [event]) =
                  scan_event self
                    {| current_window_start := Some start; last_signal_time := Some last;
                       windows := closed |} event).
  { rewrite scan_events_app, Hscan. cbn.
    destruct (scan_event self _ event); reflexivity. }
  assert (Hwhole : ∀ l, l ≠ [] →
            _identify_exchange_windows self l =
              (st ← scan_events self scan_start l; mret (close_final st))).
  { intros [|e l] Hl; [contradiction|reflexivity]. }
  assert (Hne : events ≠ []).
  { intros ->. cbn in Hscan. discriminate. }
  split; [|split].
  - rewrite Hwhole by exact Hne. rewrite Hscan. reflexivity.
  - intros Hle.
    rewrite Hstep, (scan_event_open start last closed event Htrigger).
    fold t timeout. destruct (Z.leb_spec (t - last) timeout); [|lia].
    split; [reflexivity|].
    rewrite Hwhole by (destruct events; discriminate).
    rewrite Hstep, (scan_event_open start last closed event Htrigger).
    fold t timeout. destruct (Z.leb_spec (t - last) timeout); [|lia].
    reflexivity.
  - intros Hgt.
    rewrite Hstep, (scan_event_open start last closed event Htrigger).
    fold t timeout. destruct (Z.leb_spec (t - last) timeout); [lia|].
    split; [reflexivity|].
    rewrite Hwhole by (destruct events; discriminate).
    rewrite Hstep, (scan_event_open start last closed event Htrigger).
    fold t timeout. destruct (Z.leb_spec (t - last) timeout); [lia|].
    cbn. rewrite <- app_assoc. reflexivity.
Qed.

(** The scan refines the specification's identifier: a scan state with an
    open window started at [start] stands for the specification's open window
    whose start is already padded. *)
Lemma scan_events_refines (events : list Event) :
  ∀ (st : Scan) (open : option WindowSpec.OpenWindow),
    match open with
    | None => current_window_start st = None ∧ last_signal_time st = None
    | Some o =>
        ∃ start, current_window_start st = Some start
                 ∧ last_signal_time st = Some (WindowSpec.last_trigger o)
                 ∧ WindowSpec.start o = start - seconds 30
    end →
    ∃ st', scan_events self st events = Returns st'
           ∧ close_final st' =
               windows st ++
               WindowSpec.identify (seconds (operator_signal_timeout self))
                 (seconds 30) (seconds 120) open (trigger_times events).
Proof.
  induction events as [|event events IH]; intros st open Hopen.
  - exists st. split; [reflexivity|]. unfold close_final, trigger_times.
    destruct st as [cws lst ws]. cbn in *.
    destruct open as [[s l]|].
    + destruct Hopen as (start & Hstart & Hlast & Hs). cbn in *. subst cws lst s.
      reflexivity.
    + destruct Hopen as [Hstart Hlast]. subst cws lst. rewrite app_nil_r. reflexivity.
  - cbn [scan_events]. unfold trigger_times. rewrite filter_cons.
    destruct (is_active_operator_signal event) eqn:Hactive.
    + rewrite decide_True by reflexivity. cbn [map WindowSpec.identify].
      destruct open as [[s l]|].
      * destruct Hopen as (start & Hstart & Hlast & Hs). cbn in Hlast, Hs.
        destruct st as [cws lst ws]. cbn in Hstart, Hlast. subst cws lst.
        rewrite (scan_event_open start l ws event Hactive).
        cbn [WindowSpec.last_trigger WindowSpec.start].
        destruct (Z.leb_spec (timestamp event - l) (seconds (operator_signal_timeout self)))
          as [Hle|Hgt]; unfold mbind, Outcome_bind.
        -- destruct (Z.ltb_spec (seconds (operator_signal_timeout self)) (timestamp event - l));
             [lia|].
           apply (IH {| current_window_start := Some start;
                        last_signal_time := Some (timestamp event);
                        windows := ws |}
                     (Some {| WindowSpec.start := s;
                              WindowSpec.last_trigger := timestamp event |})).
           exists start. auto.
        -- destruct (Z.ltb_spec (seconds (operator_signal_timeout self)) (timestamp event - l));
             [|lia].
           destruct (IH {| current_window_start := Some (timestamp event);
                           last_signal_time := Some (timestamp event);
                           windows := ws ++ [(start - seconds 30, l + seconds 120)] |}
                        (Some {| WindowSpec.start := timestamp event - seconds 30;
                                 WindowSpec.last_trigger := timestamp event |}))
             as (st' & Hrun & Hclose).
           { exists (timestamp event). auto. }
           exists st'. split; [exact Hrun|]. rewrite Hclose. cbn [windows].
           unfold WindowSpec.close. cbn [WindowSpec.last_trigger WindowSpec.start].
           rewrite Hs, <- app_assoc. reflexivity.
      * destruct Hopen as [Hstart Hlast].
        unfold scan_event. rewrite Hactive, Hstart. cbn [mret Outcome_ret mbind Outcome_bind].
        destruct (IH {| current_window_start := Some (timestamp event);
                        last_signal_time := Some (timestamp event);
                        windows := windows st |}
                     (Some {| WindowSpec.start := timestamp event - seconds 30;
                              WindowSpec.last_trigger := timestamp event |}))
          as (st' & Hrun & Hclose).
        { exists (timestamp event). auto. }
        exists st'. split; [exact Hrun|exact Hclose].
    + rewrite decide_False by discriminate.
      rewrite (scan_event_ignored st event Hactive). cbn [mbind Outcome_bind].
      apply IH. exact Hopen.
Qed.

(** The identifier never raises and emits the windows of the specification,
    with the timeout of the analyzer, a 30 s pre-pad and a 120 s post-pad. *)
Lemma _identify_exchange_windows_refines (events : list Event) :
  _identify_exchange_windows self events =
    Returns (WindowSpec.identify (seconds (operator_signal_timeout self))
               (seconds 30) (seconds 120) None (trigger_times events)).
Proof.
  destruct events as [|event events]; [reflexivity|].
  destruct (scan_events_refines (event :: events) scan_start None) as (st' & Hrun & Hclose).
  { split; reflexivity. }
  unfold _identify_exchange_windows. rewrite Hrun. cbn. rewrite Hclose. reflexivity.
Qed.

End WindowIdentifier.

(** Triggers 0 s and 60 s apart exactly share a window; the next one, 140 s
    later, opens a second window. *)
Lemma window_identifier_grouping_witness :
  let signal := Fixtures.operator_signal in
  Archived._identify_exchange_windows Archived.__init__ [signal 0; signal (seconds 60)]
    = Returns [(0 - seconds 30, seconds 60 + seconds 120)]
  ∧ Archived._identify_exchange_windows Archived.__init__
      [signal 0; signal (seconds 60); signal (seconds 200)]
    = Returns [(0 - seconds 30, seconds 60 + seconds 120);
               (seconds 200 - seconds 30, seconds 200 + seconds 120)].
Proof.
  intros signal. split.
  - destruct (window_identifier_grouping Archived.__init__
                [signal 0] (signal (seconds 60)) 0 0 [])
      as (_ & Hsame & _); [reflexivity|reflexivity|].
    apply Hsame. vm_compute. discriminate.
  - destruct (window_identifier_grouping Archived.__init__
                [signal 0; signal (seconds 60)] (signal (seconds 200)) 0 (seconds 60) [])
      as (_ & _ & Hnew); [reflexivity|reflexivity|].
    apply Hnew. vm_compute. reflexivity.
Defined.

(** ** Window classification *)

Section WindowClassifier.
Import Dashboard.
Import PrimFloat.

Lemma filter_nil_forall {A} (P : A → Prop) `{!∀ x, Decision (P x)} (l : list A) :
  (∀ x, x ∈ l → ¬ P x) → filter P l = [].
Proof.
  induction l as [|x l IH]; intros Hall; [reflexivity|].
  rewrite filter_cons. rewrite decide_False by (apply Hall; left).
  apply IH. intros y Hy. apply Hall. right. exact Hy.
Qed.

Lemma nonempty_bool_decide {A} (l : list A) :
  negb (bool_decide (l = [])) = match l with [] => false | _ => true end.
Proof. destruct l; reflexivity. Qed.

(** The score takes one of four values. *)
Lemma clamp_values (several any_sequence any_relay : bool) :
  let score :=
    (0.8 - (if several then 0.2 else 0.0)
         + (if any_sequence then 0.2 else 0.0)
         + (if any_relay then 0.2 else 0.0))%float in
  let c := ClassifierSpec.clamp 0.6 1.0 score in
  (0.6 <=? c)%float = true ∧ (c <=? 1.0)%float = true
  ∧ c = match several, any_sequence || any_relay with
        | false, false => 0.8%float
        | false, true => 1.0%float
        | true, false => (0.8 - 0.2)%float
        | true, true =>
            if any_sequence && any_relay then 1.0%float else (0.8 - 0.2 + 0.2)%float
        end.
Proof.
  destruct several, any_sequence, any_relay; vm_compute; auto.
Qed.

(** With an ACTIVE signal in the window the score is the clamped sum. *)
Lemma calculate_confidence_clamped
  (operator_signals sequence_events relay_events : list Event) :
  let active_signals := filter (fun s => is_active s = true) operator_signals in
  active_signals ≠ [] →
  _calculate_confidence operator_signals sequence_events relay_events =
    ClassifierSpec.clamp 0.6 1.0
      (0.8 - (if (1 <? len active_signals)%Z then 0.2 else 0.0)
           + (if negb (bool_decide (sequence_events = [])) then 0.2 else 0.0)
           + (if negb (bool_decide (relay_events = [])) then 0.2 else 0.0))%float.
Proof.
  intros active_signals Hactive.
  unfold _calculate_confidence. fold active_signals.
  rewrite bool_decide_eq_false_2 by exact Hactive.
  destruct (1 <? len active_signals)%Z,
           (negb (bool_decide (sequence_events = []))),
           (negb (bool_decide (relay_events = []))); vm_compute; reflexivity.
Qed.

(** C2 (amended). In the dashboard, [_calculate_confidence]: for a window
    with at least one ACTIVE operator signal the confidence is the 0.8
    baseline, minus 0.2 when more than one ACTIVE signal lies in
    the window, plus 0.2 when a sequence event is present, plus 0.2 when a
    relay event is present, clamped to [0.6, 1.0]; so it is never below 0.6
    and never above 1.0. *)
Theorem calculate_confidence_rule (operator_signals sequence_events relay_events : list Event) :
  let active_signals := filter (fun s => is_active s = true) operator_signals in
  let confidence := _calculate_confidence operator_signals sequence_events relay_events in
  active_signals ≠ [] →
  confidence =
    ClassifierSpec.clamp 0.6 1.0
      (0.8 - (if (1 <? len active_signals)%Z then 0.2 else 0.0)
           + (if negb (bool_decide (sequence_events = [])) then 0.2 else 0.0)
           + (if negb (bool_decide (relay_events = [])) then 0.2 else 0.0))%float
  ∧ confidence =
      ClassifierSpec.confidence (len active_signals)
        (negb (bool_decide (sequence_events = []))) (negb (bool_decide (relay_events = [])))
  ∧ (0.6 <=? confidence)%float = true
  ∧ (confidence <=? 1.0)%float = true.
Proof.
  intros active_signals confidence Hactive.
  assert (Hcode := calculate_confidence_clamped
                     operator_signals sequence_events relay_events Hactive).
  fold active_signals confidence in Hcode.
  split; [exact Hcode|]. split.
  - rewrite Hcode. unfold ClassifierSpec.confidence.
    destruct (Z.leb_spec (len active_signals) 0) as [Hle|_]; [|reflexivity].
    destruct active_signals; [contradiction|].
    unfold len in Hle. cbn in Hle. lia.
  - rewrite Hcode.
    destruct (clamp_values (1 <? len active_signals)
                (negb (bool_decide (sequence_events = [])))
                (negb (bool_decide (relay_events = [])))) as (Hlo & Hhi & _).
    split; assumption.
Qed.

Lemma calculate_confidence_rule_witness :
  let press := Fixtures.button_press in
  let row := {| timestamp := 1%Z; payload := ∅ |} in
  _calculate_confidence [press 0%Z] [] [] = 0.8%float
  ∧ _calculate_confidence [press 0%Z; press 5%Z] [] [] = (0.8 - 0.2)%float
  ∧ (0.6 <=? _calculate_confidence [press 0%Z; press 5%Z] [] [])%float = true
  ∧ _calculate_confidence [press 0%Z] [row; row] [] = 1.0%float
  ∧ _calculate_confidence [press 0%Z] [row] [row] = 1.0%float.
Proof.
  intros press row.
  destruct (calculate_confidence_rule [press 0%Z] [] []) as (H1 & _);
    [discriminate|].
  destruct (calculate_confidence_rule [press 0%Z; press 5%Z] [] []) as (H2 & _ & H2lo & _);
    [discriminate|].
  destruct (calculate_confidence_rule [press 0%Z] [row; row] []) as (H3 & _);
    [discriminate|].
  destruct (calculate_confidence_rule [press 0%Z] [row] [row]) as (H4 & _);
    [discriminate|].
  rewrite H1, H3, H4. split; [reflexivity|]. split; [reflexivity|].
  split; [exact H2lo|]. split; reflexivity.
Defined.

(** C5 (amended). In the dashboard, [_classify_exchange]: the classification
    is SEQUENCE with at least two sequence events and no relay event, MIXED with at least two sequence events and a
    relay event, MANUAL with a relay event and fewer than two sequence events,
    BUTTON_ONLY with no relay event and fewer than two sequence events. *)
Theorem classify_exchange_rule (operator_signals sequence_events relay_events : list Event) :
  let classification := _classify_exchange operator_signals sequence_events relay_events in
  (2 <= len sequence_events → relay_events = [] → classification = SEQUENCE)
  ∧ (2 <= len sequence_events → relay_events ≠ [] → classification = MIXED)
  ∧ (len sequence_events < 2 → relay_events ≠ [] → classification = MANUAL)
  ∧ (len sequence_events < 2 → relay_events = [] → classification = BUTTON_ONLY).
Proof.
  intros classification. subst classification. unfold _classify_exchange.
  rewrite !nonempty_bool_decide.
  repeat split; intros Hseq Hrelay.
  - subst relay_events.
    destruct sequence_events as [|s seqs]; [unfold len in Hseq; cbn in Hseq; lia|].
    destruct (Z.leb_spec 2 (len (s :: seqs))); [reflexivity|lia].
  - destruct relay_events as [|r relays]; [contradiction|].
    destruct sequence_events as [|s seqs]; [unfold len in Hseq; cbn in Hseq; lia|].
    destruct (Z.leb_spec 2 (len (s :: seqs))); [reflexivity|lia].
  - destruct relay_events as [|r relays]; [contradiction|].
    destruct (Z.leb_spec 2 (len sequence_events)); [lia|].
    rewrite andb_false_r. reflexivity.
  - subst relay_events.
    destruct (Z.leb_spec 2 (len sequence_events)); [lia|].
    rewrite andb_false_r. reflexivity.
Qed.

Lemma classify_exchange_rule_witness :
  let event := {| timestamp := 1%Z; payload := ∅ |} in
  _classify_exchange [] [event; event] [] = SEQUENCE
  ∧ _classify_exchange [] [event; event] [event] = MIXED
  ∧ _classify_exchange [] [event] [event] = MANUAL
  ∧ _classify_exchange [] [event] [] = BUTTON_ONLY.
Proof.
  intros event.
  destruct (classify_exchange_rule [] [event; event] []) as (Hs & _).
  destruct (classify_exchange_rule [] [event; event] [event]) as (_ & Hx & _).
  destruct (classify_exchange_rule [] [event] [event]) as (_ & _ & Hm & _).
  destruct (classify_exchange_rule [] [event] []) as (_ & _ & _ & Hb).
  split; [apply Hs; [vm_compute; discriminate|reflexivity]|].
  split; [apply Hx; [vm_compute; discriminate|discriminate]|].
  split; [apply Hm; [reflexivity|discriminate]|].
  apply Hb; reflexivity.
Defined.

(** C5 as the specification states it does not hold for "Mixed if both
    sequence-events and relay-events are present": in the dashboard a window
    with a button press, one sequence event and one relay event scores 1.0,
    so it is accepted, and is classified MANUAL. *)
Lemma one_sequence_event_with_relay_is_manual :
  let press := Fixtures.button_press 0%Z in
  let sequence_event := {| timestamp := seconds 1; payload := ∅ |} in
  let relay_event := {| timestamp := seconds 2; payload := ∅ |} in
  _classify_exchange [press] [sequence_event] [relay_event] = MANUAL
  ∧ _calculate_confidence [press] [sequence_event] [relay_event] = 1.0%float
  ∧ (_calculate_confidence [press] [sequence_event] [relay_event] <? 0.6)%float = false.
Proof. vm_compute. repeat split; reflexivity. Qed.

(** C8. A window with no ACTIVE operator signal gets confidence 0.0, whatever
    sequence and relay events it holds, and [_analyze_exchange_window] returns
    [None] for it: it is not among the exchanges. *)
Theorem zero_trigger_window_rejected
  (conn : Connection) (start_time end_time : Z) (all_operator_events : list Event) :
  (∀ e, e ∈ all_operator_events →
        (start_time <= timestamp e <= end_time)%Z → is_active e = false) →
  (∀ sequence_events relay_events,
     _calculate_confidence
       (filter (fun e => (start_time <= timestamp e <= end_time)%Z) all_operator_events)
       sequence_events relay_events = 0.0%float)
  ∧ _analyze_exchange_window conn start_time end_time all_operator_events = None.
Proof.
  intros Hinactive.
  set (operator_signals :=
         filter (fun e => (start_time <= timestamp e <= end_time)%Z) all_operator_events).
  assert (Hnone : filter (fun s => is_active s = true) operator_signals = []).
  { apply filter_nil_forall. intros e He.
    apply list_elem_of_filter in He as [Htime He].
    rewrite (Hinactive e He Htime). discriminate. }
  assert (Hzero : ∀ sequence_events relay_events,
            _calculate_confidence operator_signals sequence_events relay_events
            = 0.0%float).
  { intros sequence_events relay_events. unfold _calculate_confidence.
    rewrite Hnone. reflexivity. }
  split; [exact Hzero|].
  unfold _analyze_exchange_window. fold operator_signals.
  destruct (bool_decide (operator_signals = [])); [reflexivity|].
  rewrite Hzero. reflexivity.
Qed.

(** A window around the release of the button, for which the database
    returns two sequence events and a relay event: no exchange. *)
Lemma zero_trigger_window_rejected_witness :
  let conn := Fixtures.answers [Fixtures.row (seconds 1); Fixtures.row (seconds 2)]
                               [Fixtures.row (seconds 3)] in
  let signals := [Fixtures.button_release (seconds 1)] in
  _calculate_confidence signals
    (select_events conn (- seconds 10) (seconds 20) "SEQUENCE_EVENT")
    (select_events conn (- seconds 10) (seconds 20) "RELAY_EVENT") = 0.0%float
  ∧ _analyze_exchange_window conn (- seconds 10) (seconds 20) signals = None.
Proof.
  intros conn signals.
  destruct (zero_trigger_window_rejected conn (- seconds 10) (seconds 20) signals)
    as [Hzero Hnone].
  - intros e He _. apply list_elem_of_singleton in He. subst e. reflexivity.
  - split; [|exact Hnone].
    apply (Hzero (select_events conn (- seconds 10) (seconds 20) "SEQUENCE_EVENT")
                 (select_events conn (- seconds 10) (seconds 20) "RELAY_EVENT")).
Defined.

(** The accepted exchanges all hold an ACTIVE signal in their window. *)
Lemma accepted_exchange_has_active_signal
  (conn : Connection) (operator_events : list Event) (exchange : BasketExchange) :
  exchange ∈ analyze_windows conn operator_events →
  ∃ e, e ∈ operator_signals exchange ∧ is_active e = true
       ∧ (0.6 <=? confidence exchange)%float = true.
Proof.
  unfold analyze_windows. intros Hin.
  apply list_elem_of_omap in Hin as ([start_time end_time] & _ & Hsome).
  unfold _analyze_exchange_window in Hsome.
  set (signals := filter (fun e => (start_time <= timestamp e <= end_time)%Z)
                    operator_events) in *.
  destruct (bool_decide (signals = [])); [discriminate|].
  set (seqs := select_events conn start_time end_time "SEQUENCE_EVENT") in *.
  set (relays := select_events conn start_time end_time "RELAY_EVENT") in *.
  destruct (filter (fun s => is_active s = true) signals) as [|e active] eqn:Hactive.
  - exfalso. revert Hsome. unfold _calculate_confidence. rewrite Hactive.
    cbn. discriminate.
  - assert (He : e ∈ filter (fun s => is_active s = true) signals)
      by (rewrite Hactive; left).
    apply list_elem_of_filter in He as [Hact He].
    assert (Hlo : (0.6 <=? _calculate_confidence signals seqs relays)%float = true).
    { rewrite (calculate_confidence_clamped signals seqs relays)
        by (rewrite Hactive; discriminate).
      apply clamp_values. }
    destruct (_calculate_confidence signals seqs relays <? 0.6)%float; [discriminate|].
    injection Hsome as <-. cbn. eauto.
Qed.

End WindowClassifier.

(** ** Remarks on the superseded and the stream-level behaviour *)

Section Remarks.
Import PrimFloat.

(** Through [decode_message] the tracker is fed by the frames themselves:
    Digital-Output frames numbered 5, 6, 7, 9 are all returned, and the only
    line printed is the gap warning for the last one. *)
Lemma decode_stream_reports_gap :
  let digital_output (sequence : Z) :=
    Fixtures.frame [0x0A; 0x11; sequence; 0x00; 0x00; 0x00; 0x00; 0x09; 0x03; 0x00]%Z in
  let run :=
    Decoder.decode_stream
      [digital_output 5; digital_output 6; digital_output 7; digital_output 9]%Z
      Fixtures.fresh in
  Decoder.stdout (fst run) = [Decoder.WarningSequenceGap 0x11 8 9]%Z
  ∧ Decoder.last_sequence (Decoder.self (fst run)) !! 0x11%Z = Some 9%Z
  ∧ Decoder.messages_decoded (Decoder.self (fst run)) = 4%Z
  ∧ Decoder.decode_errors (Decoder.self (fst run)) = 0%Z.
Proof. vm_compute. repeat split; reflexivity. Qed.

(** The archived analyzer scores and names windows by another rule: a single
    operator signal alone scores 0.5 and is UNKNOWN, and one sequence event
    with one relay event is MIXED. *)
Lemma archived_classify_exchange_values :
  let signal := Fixtures.operator_signal 0%Z in
  Archived._classify_exchange [signal] [] [] = (Archived.UNKNOWN, 0.5%float)
  ∧ Archived._classify_exchange [signal] [signal] [signal] = (Archived.MIXED, 1.0%float)
  ∧ Archived._classify_exchange [signal; signal] [] []
    = (Archived.UNKNOWN, (0.0 + 0.5 + 0.2)%float).
Proof. vm_compute. repeat split; reflexivity. Qed.

(** C2 as the specification states it does not hold for the archived
    analyzer.  There a window with one active operator signal and nothing
    else scores 0.5, under the floor of 0.6 and not the 0.8 of the rule, and
    a second signal adds 0.2 where the rule takes 0.2 off. *)
Lemma archived_single_trigger_scores_half :
  let signal := Fixtures.operator_signal 0%Z in
  Archived.is_active_operator_signal signal = true
  ∧ snd (Archived._classify_exchange [signal] [] []) = 0.5%float
  ∧ ClassifierSpec.confidence 1 false false = 0.8%float
  ∧ (0.6 <=? snd (Archived._classify_exchange [signal] [] []))%float = false
  ∧ snd (Archived._classify_exchange [signal; signal] [] []) = (0.0 + 0.5 + 0.2)%float
  ∧ ClassifierSpec.confidence 2 false false = (0.8 - 0.2)%float
  ∧ (snd (Archived._classify_exchange [signal] [] [])
     <? snd (Archived._classify_exchange [signal; signal] [] []))%float = true.
Proof. vm_compute. repeat split; reflexivity. Qed.

End Remarks.

(** ** The decoder over a stream *)

Section DecoderResults.
Import Decoder DecoderStream.

Lemma byte_val_bounds (b : byte) : 0 <= byte_val b <= 255.
Proof.
  unfold byte_val. pose proof (Byte.to_N_bounded b) as H.
  split; [apply N2Z.is_nonneg|].
  apply N2Z.inj_le in H. exact H.
Qed.

Lemma le_uint_bounds (bs : list byte) : 0 <= le_uint bs < 256 ^ len bs.
Proof.
  induction bs as [|b bs IH].
  - unfold len. cbn. lia.
  - rewrite len_cons. cbn [le_uint].
    pose proof (byte_val_bounds b). pose proof (len_nonneg bs).
    rewrite Z.pow_add_r by lia. change (256 ^ 1) with 256. nia.
Qed.

(** X1. What [decode_message] returns depends on the buffer alone: the
    counters and the sequence numbers the decoder has recorded change what is
    printed, never the value returned. *)
Theorem decode_message_result_ignores_state (data : list byte) (w1 w2 : World) :
  snd (decode_message data w1) = snd (decode_message data w2).
Proof.
  destruct (Z.lt_ge_cases (len data) 7) as [Hshort|Hlong].
  - rewrite !decode_message_too_short by exact Hshort. reflexivity.
  - destruct (framed_inv data Hlong)
      as (b0 & b1 & b2 & t0 & t1 & t2 & t3 & payload & ->).
    destruct (Z.eq_dec (byte_val b0)
                (len (b0 :: b1 :: b2 :: t0 :: t1 :: t2 :: t3 :: payload)))
      as [Hsize|Hsize].
    + destruct (decode_message_accepted b0 b1 b2 t0 t1 t2 t3 payload w1 Hsize)
        as (u1 & r1 & _ & _ & _ & _ & ->).
      destruct (decode_message_accepted b0 b1 b2 t0 t1 t2 t3 payload w2 Hsize)
        as (u2 & r2 & _ & _ & _ & _ & ->).
      destruct (message_handlers !! byte_val b1) as [handler|]; [|reflexivity].
      destruct (handler payload) as [[p|]|e]; reflexivity.
    + rewrite !(decode_message_size_mismatch _ (byte_val b0)) by auto.
      reflexivity.
Qed.

(** One call moves the three counters by the value it returns. *)
Lemma decode_message_counters (data : list byte) (w : World) :
  ∃ w' result,
    decode_message data w = (w', Returns result)
    ∧ messages_received (self w') = messages_received (self w) + 1
    ∧ decode_errors (self w') =
        decode_errors (self w) + (if is_error (Returns result) then 1 else 0)
    ∧ messages_decoded (self w') =
        messages_decoded (self w) + (if has_payload (Returns result) then 1 else 0).
Proof.
  destruct (Z.lt_ge_cases (len data) 7) as [Hshort|Hlong].
  - rewrite decode_message_too_short by exact Hshort.
    eexists _, None. split; [reflexivity|]. cbn. repeat split; lia.
  - destruct (framed_inv data Hlong)
      as (b0 & b1 & b2 & t0 & t1 & t2 & t3 & payload & ->).
    destruct (Z.eq_dec (byte_val b0)
                (len (b0 :: b1 :: b2 :: t0 :: t1 :: t2 :: t3 :: payload)))
      as [Hsize|Hsize].
    + destruct (decode_message_accepted b0 b1 b2 t0 t1 t2 t3 payload w Hsize)
        as (w1 & report & _ & Hr & Hd & He & ->).
      destruct (message_handlers !! byte_val b1) as [handler|].
      * destruct (handler payload) as [[p|]|e]; eexists _, _;
          (split; [reflexivity|]); cbn; rewrite ?Hr, ?Hd, ?He; repeat split; lia.
      * eexists _, _. split; [reflexivity|]. cbn. rewrite ?Hr, ?Hd, ?He.
        repeat split; lia.
    + rewrite (decode_message_size_mismatch _ (byte_val b0)) by auto.
      eexists _, None. split; [reflexivity|]. cbn. repeat split; lia.
Qed.

Lemma count_cons {A} (f : A → bool) (x : A) (l : list A) :
  count f (x :: l) = (if f x then 1 else 0) + count f l.
Proof. unfold count. cbn. destruct (f x); [rewrite len_cons|]; lia. Qed.

Lemma count_bounds {A} (f : A → bool) (l : list A) : 0 <= count f l <= len l.
Proof.
  induction l as [|x l IH]; [unfold count, len; cbn; lia|].
  rewrite count_cons, len_cons. destruct (f x); lia.
Qed.

(** X2. After a stream of buffers the counters of the decoder account for it:
    every buffer is counted as received, [decode_errors] counts the buffers
    answered with [None], [messages_decoded] counts the dictionaries returned
    with a decoded payload, and the two never add up to more than the buffers
    received (a frame of unknown type, or one whose payload is too short for
    its handler, is counted in neither). *)
Theorem decode_stream_statistics (frames : list (list byte)) (w : World) :
  let w' := fst (decode_stream frames w) in
  let results := snd (decode_stream frames w) in
  len results = len frames
  ∧ messages_received (self w') = messages_received (self w) + len frames
  ∧ decode_errors (self w') = decode_errors (self w) + count is_error results
  ∧ messages_decoded (self w') = messages_decoded (self w) + count has_payload results
  ∧ (messages_decoded (self w') - messages_decoded (self w))
    + (decode_errors (self w') - decode_errors (self w)) <= len frames.
Proof.
  revert w. induction frames as [|f frames IH]; intros w.
  - cbn. unfold count, len. cbn. repeat split; lia.
  - cbn [decode_stream].
    destruct (decode_message_counters f w) as (w1 & result & -> & Hr & He & Hd).
    specialize (IH w1). cbn zeta in IH.
    destruct (decode_stream frames w1) as [w2 rs]. cbn [fst snd] in *.
    destruct IH as (Hlen & Hr' & He' & Hd' & Hsum).
    rewrite !count_cons, !len_cons.
    assert (Hexcl : (if is_error (Returns result) then 1 else 0)
                    + (if has_payload (Returns result) then 1 else 0) <= 1).
    { destruct result as [m|]; cbn; [destruct (bool_decide _)|]; lia. }
    repeat split; lia.
Qed.

(** X3. A returned dictionary repeats the header of the buffer: the size byte,
    which is the buffer length and so lies between 7 and 255, the type and
    sequence bytes, the name of the type, the little-endian timestamp of bytes
    3 to 6, which is below 2^32, and the hexadecimal text of the bytes from 7
    on. *)
Theorem decoded_message_header (data : list byte) (w w' : World) (m : Message) :
  decode_message data w = (w', Returns (Some m)) →
  7 <= len data <= 255
  ∧ msg_size m = len data
  ∧ index data 1 = Returns (msg_type m)
  ∧ index data 2 = Returns (msg_sequence m)
  ∧ msg_type_name m = _get_type_name (msg_type m)
  ∧ msg_timestamp m = le_uint (slice 3 7 data)
  ∧ 0 <= msg_timestamp m < 2 ^ 32
  ∧ msg_raw_payload_hex m = bytes_hex (slice_from 7 data).
Proof.
  intros Hdec.
  destruct (decode_message_accepts_only_inclusive_size data w w' m Hdec)
    as (Hlong & Hidx & Hsize).
  destruct (framed_inv data Hlong)
    as (b0 & b1 & b2 & t0 & t1 & t2 & t3 & payload & ->).
  injection Hidx as Hb0.
  destruct (decode_message_accepted b0 b1 b2 t0 t1 t2 t3 payload w Hb0)
    as (w1 & report & _ & _ & _ & _ & Heq).
  rewrite Heq in Hdec.
  assert (Hm : ∃ decoded,
            m = {| msg_size := byte_val b0; msg_type := byte_val b1;
                   msg_type_name := _get_type_name (byte_val b1);
                   msg_sequence := byte_val b2;
                   msg_timestamp := le_uint [t0; t1; t2; t3];
                   msg_payload := decoded;
                   msg_raw_payload_hex := bytes_hex payload |}).
  { destruct (message_handlers !! byte_val b1) as [handler|].
    - destruct (handler payload) as [[p|]|e]; inversion Hdec; eauto.
    - inversion Hdec; eauto. }
  destruct Hm as [decoded ->].
  cbn [msg_size msg_type msg_type_name msg_sequence msg_timestamp msg_raw_payload_hex] in *.
  pose proof (byte_val_bounds b0).
  pose proof (le_uint_bounds [t0; t1; t2; t3]) as Hts.
  change (256 ^ len [t0; t1; t2; t3]) with (2 ^ 32) in Hts.
  repeat split; try reflexivity; try lia.
Qed.

Lemma decoded_message_header_witness :
  let data := Fixtures.frame [0x0A; 0x11; 0x02; 0x4E; 0x61; 0xBC; 0x00; 0x09; 0x03; 0x00] in
  ∃ w' m,
    decode_message data Fixtures.fresh = (w', Returns (Some m))
    ∧ 7 <= len data <= 255
    ∧ msg_size m = len data
    ∧ index data 1 = Returns (msg_type m)
    ∧ index data 2 = Returns (msg_sequence m)
    ∧ msg_type_name m = _get_type_name (msg_type m)
    ∧ msg_timestamp m = le_uint (slice 3 7 data)
    ∧ 0 <= msg_timestamp m < 2 ^ 32
    ∧ msg_raw_payload_hex m = bytes_hex (slice_from 7 data).
Proof.
  intros data. eexists _, _. split; [vm_compute; reflexivity|].
  eapply (decoded_message_header data Fixtures.fresh).
  vm_compute. reflexivity.
Defined.

End DecoderResults.

(** ** Sequence numbers over a stream *)

Section SequenceRuns.
Import Decoder DecoderStream.

Lemma consecutive_S (start : Z) (n : nat) :
  consecutive start (S n) = start mod 256 :: consecutive (start + 1) n.
Proof.
  unfold consecutive. cbn [seq fmap list_fmap]. rewrite Z.add_0_r. f_equal.
  rewrite <- fmap_S_seq, <- list_fmap_compose. apply list_fmap_ext.
  intros _ i _. cbn. f_equal. lia.
Qed.

(** After the number before [start], the run from [start] continues. *)
Lemma check_sequences_continue (msg_type : Z) (n : nat) :
  ∀ (start : Z) (w : World),
    last_sequence (self w) !! msg_type = Some ((start - 1) mod 256) →
    ∃ w',
      Fixtures.check_sequences msg_type (consecutive start n) w
        = (w', Returns (replicate n Continues))
      ∧ stdout w' = stdout w.
Proof.
  induction n as [|n IH]; intros start w Hlast.
  - exists w. split; reflexivity.
  - rewrite consecutive_S. cbn [Fixtures.check_sequences].
    destruct (check_sequence_run msg_type (start mod 256) w) as (report & out & Hrun & Hout).
    assert (Hcontinues : report = Continues ∧ out = []).
    { revert Hrun. unfold check_sequence, get_last_sequence, set_last_sequence,
        update, print, mbind, M_bind, mret, M_ret. cbn. rewrite Hlast.
      replace (((start - 1) mod 256 + 1) mod 256) with (start mod 256).
      2:{ rewrite Zplus_mod_idemp_l. f_equal. lia. }
      rewrite Z.eqb_refl. cbn. intros Heq. injection Heq as Hw Hr. subst report.
      split; [reflexivity|]. exact Hout. }
    destruct Hcontinues as [-> ->].
    unfold mbind at 1. unfold M_bind. rewrite Hrun. cbv beta iota.
    unfold mbind, M_bind.
    match goal with |- context [Fixtures.check_sequences _ _ ?w1] =>
      destruct (IH (start + 1) w1) as (w' & Hrest & Hout') end.
    { cbn. rewrite lookup_insert_eq. f_equal. f_equal. lia. }
    rewrite Hrest. exists w'. split; [reflexivity|].
    rewrite Hout'. cbn. apply app_nil_r.
Qed.

(** The tracker on a type it has seen. *)
Lemma check_sequence_seen (msg_type sequence last : Z) (w : World) :
  last_sequence (self w) !! msg_type = Some last →
  check_sequence msg_type sequence w =
    ({| self := {| messages_received := messages_received (self w);
                   messages_decoded := messages_decoded (self w);
                   decode_errors := decode_errors (self w);
                   last_sequence := <[msg_type := sequence]> (last_sequence (self w)) |};
        stdout := stdout w ++
                  (if sequence =? (last + 1) mod 256 then []
                   else [WarningSequenceGap msg_type ((last + 1) mod 256) sequence]) |},
     Returns (if sequence =? (last + 1) mod 256 then Continues
              else Gap ((last + 1) mod 256) sequence)).
Proof.
  intros Hlast.
  unfold check_sequence, get_last_sequence, set_last_sequence, update, print,
    mbind, M_bind, mret, M_ret. cbn. rewrite Hlast.
  destruct (sequence =? (last + 1) mod 256); cbn; [rewrite app_nil_r|]; reflexivity.
Qed.

(** The tracker on a type it has not seen. *)
Lemma check_sequence_unseen (msg_type sequence : Z) (w : World) :
  last_sequence (self w) !! msg_type = None →
  check_sequence msg_type sequence w =
    ({| self := {| messages_received := messages_received (self w);
                   messages_decoded := messages_decoded (self w);
                   decode_errors := decode_errors (self w);
                   last_sequence := <[msg_type := sequence]> (last_sequence (self w)) |};
        stdout := stdout w |}, Returns First).
Proof.
  intros Hlast.
  unfold check_sequence, get_last_sequence, set_last_sequence, update, print,
    mbind, M_bind, mret, M_ret. cbn. rewrite Hlast. reflexivity.
Qed.

(** X4. A run of consecutive sequence numbers of a type the decoder has not
    seen yet is reported as a first frame followed by continuations, and
    prints nothing, wherever it starts and however long it is: the wrap from
    255 to 0 is no gap. *)
Theorem consecutive_run_reports_no_gap (msg_type start : Z) (n : nat) (w : World) :
  last_sequence (self w) !! msg_type = None →
  ∃ w',
    Fixtures.check_sequences msg_type (consecutive start (S n)) w
      = (w', Returns (First :: replicate n Continues))
    ∧ stdout w' = stdout w.
Proof.
  intros Hnew. rewrite consecutive_S. cbn [Fixtures.check_sequences].
  unfold mbind at 1. unfold M_bind.
  rewrite (check_sequence_unseen msg_type (start mod 256) w Hnew). cbv beta iota.
  unfold mbind, M_bind.
  match goal with |- context [Fixtures.check_sequences _ _ ?w1] =>
    destruct (check_sequences_continue msg_type n (start + 1) w1) as (w' & Hrest & Hout)
  end.
  { cbn. rewrite lookup_insert_eq. f_equal. f_equal. lia. }
  rewrite Hrest. exists w'. split; [reflexivity|]. exact Hout.
Qed.

Lemma consecutive_run_reports_no_gap_witness :
  ∃ w',
    Fixtures.check_sequences 0x11 (consecutive 254 (S 3)) Fixtures.fresh
      = (w', Returns (First :: replicate 3 Continues))
    ∧ stdout w' = stdout Fixtures.fresh.
Proof.
  apply (consecutive_run_reports_no_gap 0x11 254 3 Fixtures.fresh). reflexivity.
Defined.

(** X5. A buffer that was decoded, handed to the decoder again, is decoded to
    the same dictionary and draws the gap warning: the sequence number
    expected after [n] is never [n] itself. *)
Theorem repeated_frame_reported_as_gap (data : list byte) (w w1 : World) (m : Message) :
  decode_message data w = (w1, Returns (Some m)) →
  ∃ w2 rest,
    decode_message data w1 = (w2, Returns (Some m))
    ∧ stdout w2 =
        stdout w1 ++
        WarningSequenceGap (msg_type m) ((msg_sequence m + 1) mod 256) (msg_sequence m)
        :: rest.
Proof.
  intros Hdec.
  destruct (decode_message_accepts_only_inclusive_size data w w1 m Hdec)
    as (Hlong & Hidx & _).
  destruct (framed_inv data Hlong)
    as (b0 & b1 & b2 & t0 & t1 & t2 & t3 & payload & ->).
  injection Hidx as Hb0.
  destruct (decode_message_accepted b0 b1 b2 t0 t1 t2 t3 payload w Hb0)
    as (u & report & Hcs & _ & _ & _ & Heq).
  rewrite Heq in Hdec. clear Heq.
  assert (Hseen : last_sequence (self u) !! byte_val b1 = Some (byte_val b2)).
  { destruct (check_sequence_run (byte_val b1) (byte_val b2)
                {| self := {| messages_received := messages_received (self w) + 1;
                              messages_decoded := messages_decoded (self w);
                              decode_errors := decode_errors (self w);
                              last_sequence := last_sequence (self w) |};
                   stdout := stdout w |}) as (r & out & Hrun & _).
    rewrite Hrun in Hcs. injection Hcs as <- _. cbn. apply lookup_insert_eq. }
  destruct (decode_message_accepted b0 b1 b2 t0 t1 t2 t3 payload w1 Hb0)
    as (u' & report' & Hcs' & _ & _ & _ & Heq').
  rewrite Heq'. clear Heq'.
  assert (Hgap : (byte_val b2 =? (byte_val b2 + 1) mod 256) = false).
  { apply Z.eqb_neq. pose proof (byte_val_bounds b2).
    pose proof (Z.mod_pos_bound (byte_val b2 + 1) 256).
    destruct (Z.eq_dec (byte_val b2) 255) as [->|]; [vm_compute; discriminate|].
    rewrite Z.mod_small by lia. lia. }
  assert (Hout : last_sequence (self w1) !! byte_val b1 = Some (byte_val b2)
                 → stdout u' = stdout w1 ++
                     [WarningSequenceGap (byte_val b1) ((byte_val b2 + 1) mod 256)
                        (byte_val b2)]).
  { intros Hw1. rewrite (check_sequence_seen _ _ (byte_val b2)) in Hcs' by exact Hw1.
    rewrite Hgap in Hcs'. injection Hcs' as <- _. reflexivity. }
  destruct (message_handlers !! byte_val b1) as [handler|].
  - destruct (handler payload) as [[p|]|e]; inversion Hdec; subst; cbn in *;
      eexists _, _; (split; [reflexivity|]); cbn; rewrite (Hout Hseen); reflexivity.
  - inversion Hdec; subst. cbn in *. eexists _, _. split; [reflexivity|]. cbn.
    rewrite (Hout Hseen), <- app_assoc. reflexivity.
Qed.

Lemma repeated_frame_reported_as_gap_witness :
  let data := Fixtures.frame [0x0A; 0x11; 0x02; 0x4E; 0x61; 0xBC; 0x00; 0x09; 0x03; 0x00] in
  ∃ w1 m,
    decode_message data Fixtures.fresh = (w1, Returns (Some m))
    ∧ ∃ w2 rest,
        decode_message data w1 = (w2, Returns (Some m))
        ∧ stdout w2 =
            stdout w1 ++
            WarningSequenceGap (msg_type m) ((msg_sequence m + 1) mod 256) (msg_sequence m)
            :: rest.
Proof.
  intros data. eexists _, _. split; [vm_compute; reflexivity|].
  apply (repeated_frame_reported_as_gap data Fixtures.fresh).
  vm_compute. reflexivity.
Defined.

End SequenceRuns.

(** ** The payload handlers *)

Section Handlers.
Import Decoder HandlerSizes.

Lemma len_nil {A} : len (@nil A) = 0.
Proof. reflexivity. Qed.

Ltac peel l H :=
  destruct l as [|? l]; [exfalso; rewrite ?len_cons, ?len_nil in H; lia|].

Ltac finish_exact l :=
  destruct l as [|? l];
  [reflexivity
  |match goal with |- context [?n =? ?k] =>
     destruct (Z.eqb_spec n k) as [Heq|_];
     [exfalso; rewrite ?len_cons in Heq; pose proof (len_nonneg l); lia|reflexivity]
   end].

Lemma _decode_digital_output_sizes (payload : list byte) :
  observed (_decode_digital_output payload) = expected (ExactSize 3) (len payload).
Proof.
  unfold _decode_digital_output, expected.
  destruct (Z.ltb_spec (len payload) 3) as [H|H]; [reflexivity|].
  do 3 peel payload H. finish_exact payload.
Qed.

Lemma _decode_relay_event_sizes (payload : list byte) :
  observed (_decode_relay_event payload) = expected (ExactSize 3) (len payload).
Proof.
  unfold _decode_relay_event, expected.
  destruct (Z.ltb_spec (len payload) 3) as [H|H]; [reflexivity|].
  do 3 peel payload H. finish_exact payload.
Qed.

Lemma _decode_safety_event_sizes (payload : list byte) :
  observed (_decode_safety_event payload) = expected (ExactSize 3) (len payload).
Proof.
  unfold _decode_safety_event, expected.
  destruct (Z.ltb_spec (len payload) 3) as [H|H]; [reflexivity|].
  do 3 peel payload H. finish_exact payload.
Qed.

Lemma _decode_digital_input_sizes (payload : list byte) :
  observed (_decode_digital_input payload) = expected (ExactSize 4) (len payload).
Proof.
  unfold _decode_digital_input, expected.
  destruct (Z.ltb_spec (len payload) 4) as [H|H]; [reflexivity|].
  do 4 peel payload H. finish_exact payload.
Qed.

Lemma _decode_sequence_event_sizes (payload : list byte) :
  observed (_decode_sequence_event payload) = expected (ExactSize 4) (len payload).
Proof.
  unfold _decode_sequence_event, expected.
  destruct (Z.ltb_spec (len payload) 4) as [H|H]; [reflexivity|].
  do 4 peel payload H. finish_exact payload.
Qed.

Lemma _decode_system_status_sizes (payload : list byte) :
  observed (_decode_system_status payload) = expected (ExactSize 12) (len payload).
Proof.
  unfold _decode_system_status, expected.
  destruct (Z.ltb_spec (len payload) 12) as [H|H]; [reflexivity|].
  do 12 peel payload H. finish_exact payload.
Qed.

Lemma _decode_pressure_sizes (payload : list byte) :
  observed (_decode_pressure payload) = expected (MinSize 8) (len payload).
Proof.
  unfold _decode_pressure, expected.
  destruct (Z.ltb_spec (len payload) 8) as [H|H]; [reflexivity|].
  do 8 peel payload H. reflexivity.
Qed.

Lemma _decode_system_error_sizes (payload : list byte) :
  observed (_decode_system_error payload) = expected (MinSize 3) (len payload).
Proof.
  unfold _decode_system_error, expected.
  destruct (Z.ltb_spec (len payload) 3) as [H|H]; [reflexivity|].
  do 3 peel payload H. reflexivity.
Qed.

(** The eight entries of [message_handlers]. *)
Lemma message_handlers_cases (msg_type : Z) (h : list byte → Outcome (option Payload)) :
  message_handlers !! msg_type = Some h →
  (msg_type = 0x10 ∧ h = _decode_digital_input)
  ∨ (msg_type = 0x11 ∧ h = _decode_digital_output)
  ∨ (msg_type = 0x12 ∧ h = _decode_relay_event)
  ∨ (msg_type = 0x13 ∧ h = _decode_pressure)
  ∨ (msg_type = 0x14 ∧ h = _decode_system_error)
  ∨ (msg_type = 0x15 ∧ h = _decode_safety_event)
  ∨ (msg_type = 0x16 ∧ h = _decode_system_status)
  ∨ (msg_type = 0x17 ∧ h = _decode_sequence_event).
Proof.
  intros Hh.
  destruct (decide (0x10 <= msg_type <= 0x17)) as [Hin|Hout].
  - assert (Hcases : msg_type = 0x10 ∨ msg_type = 0x11 ∨ msg_type = 0x12
                     ∨ msg_type = 0x13 ∨ msg_type = 0x14 ∨ msg_type = 0x15
                     ∨ msg_type = 0x16 ∨ msg_type = 0x17) by lia.
    destruct Hcases as [->|[->|[->|[->|[->|[->|[->| ->]]]]]]].
    all: unfold message_handlers in Hh; cbn [list_to_map foldr fst snd] in Hh.
    all: repeat (rewrite lookup_insert_ne in Hh by lia).
    all: rewrite lookup_insert_eq in Hh; injection Hh as <-; tauto.
  - rewrite (message_handlers_unknown msg_type Hout) in Hh. discriminate.
Qed.

Lemma observed_decoded (o : Outcome (option Payload)) :
  observed o = Decoded → ∃ p, o = Returns (Some p).
Proof. destruct o as [[p|]|e]; cbn; intros; try discriminate. eauto. Qed.

(** X6. Every handler of [message_handlers] follows the size rule of its type:
    under the size it returns [None]; at the size it decodes; above it, it
    raises [struct.error], except for the Pressure and System-Error handlers,
    which decode any longer payload too. *)
Theorem handler_payload_sizes
  (msg_type : Z) (handler : list byte → Outcome (option Payload)) (payload : list byte) :
  message_handlers !! msg_type = Some handler →
  ∃ rule,
    size_rules !! msg_type = Some rule
    ∧ observed (handler payload) = expected rule (len payload).
Proof.
  intros Hh.
  destruct (message_handlers_cases msg_type handler Hh)
    as [[-> ->]|[[-> ->]|[[-> ->]|[[-> ->]|[[-> ->]|[[-> ->]|[[-> ->]|[-> ->]]]]]]]];
    eexists; (split; [reflexivity|]).
  - apply _decode_digital_input_sizes.
  - apply _decode_digital_output_sizes.
  - apply _decode_relay_event_sizes.
  - apply _decode_pressure_sizes.
  - apply _decode_system_error_sizes.
  - apply _decode_safety_event_sizes.
  - apply _decode_system_status_sizes.
  - apply _decode_sequence_event_sizes.
Qed.

(** A nine-byte Pressure payload is decoded; a five-byte Digital-Input
    payload makes its handler raise. *)
Lemma handler_payload_sizes_witness :
  (∃ rule,
     size_rules !! 0x13 = Some rule
     ∧ observed (_decode_pressure (Fixtures.frame [0x01; 0; 0; 0; 0; 0; 0; 0x42; 0xFF]))
       = expected rule (len (Fixtures.frame [0x01; 0; 0; 0; 0; 0; 0; 0x42; 0xFF])))
  ∧ expected (ExactSize 4) 5 = Raised StructError.
Proof.
  split; [|reflexivity].
  apply (handler_payload_sizes 0x13 _decode_pressure). reflexivity.
Defined.

Lemma severity_of_flags (flags : byte) :
  let severity := Z.land (Z.shiftr (byte_val flags) 2) 0x03 in
  (severity = 0 ∧ _get_severity_name severity = "INFO")
  ∨ (severity = 1 ∧ _get_severity_name severity = "WARNING")
  ∨ (severity = 2 ∧ _get_severity_name severity = "ERROR")
  ∨ (severity = 3 ∧ _get_severity_name severity = "CRITICAL").
Proof. destruct flags; vm_compute; tauto. Qed.

Lemma lamp_pattern_of_flags (flags : byte) :
  let pattern := Z.land (Z.shiftr (byte_val flags) 6) 0x03 in
  (pattern = 0 ∧ _get_mill_lamp_pattern_name pattern = "OFF")
  ∨ (pattern = 1 ∧ _get_mill_lamp_pattern_name pattern = "SOLID")
  ∨ (pattern = 2 ∧ _get_mill_lamp_pattern_name pattern = "SLOW_BLINK")
  ∨ (pattern = 3 ∧ _get_mill_lamp_pattern_name pattern = "FAST_BLINK").
Proof. destruct flags; vm_compute; tauto. Qed.

Lemma sequence_state_of_flags (flags : byte) :
  0 <= Z.land (Z.shiftr (byte_val flags) 2) 0x0F <= 15.
Proof. destruct flags; vm_compute; split; discriminate. Qed.

Lemma system_error_severity (payload : list byte) (p : SystemError) :
  _decode_system_error payload = Returns (Some (PSystemError p)) →
  0 <= er_severity p <= 3
  ∧ er_severity_name p ∈ ["INFO"; "WARNING"; "ERROR"; "CRITICAL"].
Proof.
  intros Hp. unfold _decode_system_error in Hp.
  destruct (len payload <? 3); [discriminate|].
  destruct payload as [|a [|flags [|c rest]]]; try discriminate.
  cbn in Hp. injection Hp as <-. cbn [er_severity er_severity_name].
  destruct (severity_of_flags flags) as [[-> ->]|[[-> ->]|[[-> ->]|[-> ->]]]];
    (split; [lia|]); set_solver.
Qed.

Lemma system_status_flags (payload : list byte) (p : SystemStatus) :
  _decode_system_status payload = Returns (Some (PSystemStatus p)) →
  0 <= ss_mill_lamp_pattern p <= 3
  ∧ ss_mill_lamp_pattern_name p ∈ ["OFF"; "SOLID"; "SLOW_BLINK"; "FAST_BLINK"]
  ∧ 0 <= ss_sequence_state p <= 15.
Proof.
  intros Hp. unfold _decode_system_status in Hp.
  destruct (len payload <? 12); [discriminate|].
  unfold mbind, Outcome_bind in Hp.
  destruct (unpack_LHHBBH payload) as [[[[[[u l] f] a] flags] r]|e] eqn:Hu;
    [|discriminate].
  injection Hp as <-.
  cbn [ss_mill_lamp_pattern ss_mill_lamp_pattern_name ss_sequence_state].
  assert (Hflags : ∃ b : byte, flags = byte_val b).
  { unfold unpack_LHHBBH in Hu.
    do 12 (destruct payload as [|? payload]; [discriminate|]).
    destruct payload; [|discriminate]. injection Hu as <- <- <- <- <- <-. eauto. }
  destruct Hflags as [b ->].
  split; [|split].
  - destruct (lamp_pattern_of_flags b) as [[-> _]|[[-> _]|[[-> _]|[-> _]]]]; lia.
  - destruct (lamp_pattern_of_flags b) as [[_ ->]|[[_ ->]|[[_ ->]|[_ ->]]]]; set_solver.
  - apply sequence_state_of_flags.
Qed.

Lemma lstrip_nul_length (cs : list ascii) : (length (lstrip_nul cs) <= length cs)%nat.
Proof.
  induction cs as [|c cs IH]; cbn; [lia|].
  destruct (Ascii.eqb c Ascii.zero); cbn; lia.
Qed.

Lemma lstrip_nul_head (cs : list ascii) : head (lstrip_nul cs) ≠ Some Ascii.zero.
Proof.
  induction cs as [|c cs IH]; cbn; [discriminate|].
  destruct (Ascii.eqb_spec c Ascii.zero) as [->|Hne]; [exact IH|].
  cbn. congruence.
Qed.

Lemma rstrip_nul_length (cs : list ascii) : (length (rstrip_nul cs) <= length cs)%nat.
Proof.
  unfold rstrip_nul. rewrite length_rev.
  etransitivity; [apply lstrip_nul_length|]. rewrite length_rev. lia.
Qed.

Lemma last_rev_head {A} (l : list A) : last (rev l) = head l.
Proof.
  destruct l as [|x l]; [reflexivity|]. cbn [rev head]. apply last_snoc.
Qed.

Lemma rstrip_nul_last (cs : list ascii) : last (rstrip_nul cs) ≠ Some Ascii.zero.
Proof.
  unfold rstrip_nul. rewrite last_rev_head. apply lstrip_nul_head.
Qed.

Lemma decode_ascii_ignore_length (bs : list byte) :
  (length (decode_ascii_ignore bs) <= length bs)%nat.
Proof.
  unfold decode_ascii_ignore. rewrite length_map. apply length_filter.
Qed.

Lemma string_length_of_list (cs : list ascii) :
  String.length (string_of_list_ascii cs) = length cs.
Proof. induction cs; cbn; congruence. Qed.

Lemma decode_description_length (bs : list byte) :
  (String.length (decode_description bs) <= length bs)%nat.
Proof.
  unfold decode_description. rewrite string_length_of_list.
  etransitivity; [apply rstrip_nul_length|apply decode_ascii_ignore_length].
Qed.

Lemma decode_description_no_trailing_nul (bs : list byte) :
  last (list_ascii_of_string (decode_description bs)) ≠ Some Ascii.zero.
Proof.
  unfold decode_description. rewrite list_ascii_of_string_of_list_ascii.
  apply rstrip_nul_last.
Qed.

(** The description of a System-Error payload is cut to the declared length
    and to the bytes that are there. *)
Lemma system_error_description
  (error_code flags desc_length : byte) (rest : list byte) :
  ∃ p,
    _decode_system_error (error_code :: flags :: desc_length :: rest)
      = Returns (Some (PSystemError p))
    ∧ er_error_code p = byte_val error_code
    ∧ Z.of_nat (String.length (er_description p))
        <= Z.min (byte_val desc_length) (len rest)
    ∧ last (list_ascii_of_string (er_description p)) ≠ Some Ascii.zero
    ∧ (byte_val desc_length = 0 ∨ rest = [] → er_description p = EmptyString).
Proof.
  unfold _decode_system_error.
  destruct (Z.ltb_spec (len (error_code :: flags :: desc_length :: rest)) 3) as [H|H].
  { rewrite !len_cons in H. pose proof (len_nonneg rest). lia. }
  cbn [slice take drop mbind Outcome_bind unpack_BBB Nat.sub].
  eexists. split; [reflexivity|]. cbn [er_error_code er_description].
  split; [reflexivity|].
  assert (Hlen : len (error_code :: flags :: desc_length :: rest) - 3 = len rest).
  { rewrite !len_cons. lia. }
  rewrite Hlen.
  pose proof (len_nonneg rest) as Hrest.
  destruct (Z.ltb_spec 0 (byte_val desc_length)) as [Hpos|Hzero]; cbn [andb].
  - destruct (Z.ltb_spec 3 (len (error_code :: flags :: desc_length :: rest)))
      as [Hmore|Hnone].
    + split; [|split].
      * pose proof (decode_description_length
                      (slice 3 (3 + Z.to_nat (Z.min (byte_val desc_length) (len rest)))
                         (error_code :: flags :: desc_length :: rest))) as Hd.
        unfold slice in Hd. rewrite length_take in Hd. cbn [drop] in Hd.
        unfold slice. cbn [drop]. change (drop 0 rest) with rest in *.
        set (n := String.length _) in *.
        apply Nat.min_glb_iff in Hd as [Hd1 Hd2].
        clearbody n. clear Hd2.
        set (k := Z.min (byte_val desc_length) (len rest)) in *.
        assert (Hk : 0 <= k) by (subst k; lia).
        clearbody k. lia.
      * apply decode_description_no_trailing_nul.
      * intros [Hz| ->]; [lia|].
        rewrite !len_cons in Hmore. unfold len in Hmore. cbn in Hmore. lia.
    + split; [cbn [String.length]; lia|]. split; [cbn; discriminate|]. reflexivity.
  - pose proof (byte_val_bounds desc_length).
    split; [cbn [String.length]; lia|]. split; [cbn; discriminate|]. reflexivity.
Qed.

(** X7. A System-Error payload of three bytes or more is always decoded. The
    description is at most as long as the length byte says and as the bytes
    after it allow, never ends in a NUL, and is empty when the length byte is
    0 or nothing follows it; the severity lies between 0 and 3 and has one of
    the four names, never the UNKNOWN fallback. *)
Theorem system_error_fields
  (error_code flags desc_length : byte) (rest : list byte) :
  ∃ p,
    _decode_system_error (error_code :: flags :: desc_length :: rest)
      = Returns (Some (PSystemError p))
    ∧ er_error_code p = byte_val error_code
    ∧ Z.of_nat (String.length (er_description p))
        <= Z.min (byte_val desc_length) (len rest)
    ∧ last (list_ascii_of_string (er_description p)) ≠ Some Ascii.zero
    ∧ (byte_val desc_length = 0 ∨ rest = [] → er_description p = EmptyString)
    ∧ 0 <= er_severity p <= 3
    ∧ er_severity_name p ∈ ["INFO"; "WARNING"; "ERROR"; "CRITICAL"].
Proof.
  destruct (system_error_description error_code flags desc_length rest)
    as (p & Hdec & Hcode & Hlen & Hnul & Hempty).
  destruct (system_error_severity _ p Hdec) as [Hseverity Hname].
  exists p. repeat (split; [assumption|]). assumption.
Qed.

(** X8. A twelve-byte System-Status payload is decoded, its lamp pattern lies
    between 0 and 3 and has one of the four pattern names, never the UNKNOWN
    fallback, and its sequence state lies between 0 and 15. *)
Theorem system_status_names_defined (payload : list byte) :
  len payload = 12 →
  ∃ p,
    _decode_system_status payload = Returns (Some (PSystemStatus p))
    ∧ 0 <= ss_mill_lamp_pattern p <= 3
    ∧ ss_mill_lamp_pattern_name p ∈ ["OFF"; "SOLID"; "SLOW_BLINK"; "FAST_BLINK"]
    ∧ 0 <= ss_sequence_state p <= 15.
Proof.
  intros Hlen.
  destruct (observed_decoded (_decode_system_status payload)) as [decoded Hdec].
  { rewrite _decode_system_status_sizes, Hlen. reflexivity. }
  assert (Hkind : ∃ p, decoded = PSystemStatus p).
  { revert Hdec. unfold _decode_system_status.
    destruct (len payload <? 12); [discriminate|].
    unfold mbind, Outcome_bind.
    destruct (unpack_LHHBBH payload) as [[[[[[u l] f] a] flags] r]|e];
      [|discriminate].
    intros Heq. injection Heq as <-. eauto. }
  destruct Hkind as [p ->]. exists p. split; [exact Hdec|].
  apply (system_status_flags payload p Hdec).
Qed.

Lemma system_status_names_defined_witness :
  let payload :=
    Fixtures.frame [0x10; 0x27; 0x00; 0x00; 0xE8; 0x03; 0x00; 0x08; 0x00; 0xC5; 0x00; 0x00] in
  ∃ p,
    _decode_system_status payload = Returns (Some (PSystemStatus p))
    ∧ 0 <= ss_mill_lamp_pattern p <= 3
    ∧ ss_mill_lamp_pattern_name p ∈ ["OFF"; "SOLID"; "SLOW_BLINK"; "FAST_BLINK"]
    ∧ 0 <= ss_sequence_state p <= 15.
Proof.
  intros payload. apply (system_status_names_defined payload). reflexivity.
Defined.

End Handlers.

(** ** Frames of the known types *)

Section FramesOfKnownTypes.
Import Decoder HandlerSizes.

Lemma size_rules_cases (msg_type : Z) (rule : SizeRule) :
  size_rules !! msg_type = Some rule →
  ∃ handler,
    message_handlers !! msg_type = Some handler
    ∧ ∀ payload, observed (handler payload) = expected rule (len payload).
Proof.
  intros Hrule.
  destruct (decide (0x10 <= msg_type <= 0x17)) as [Hin|Hout].
  - assert (Hcases : msg_type = 0x10 ∨ msg_type = 0x11 ∨ msg_type = 0x12
                     ∨ msg_type = 0x13 ∨ msg_type = 0x14 ∨ msg_type = 0x15
                     ∨ msg_type = 0x16 ∨ msg_type = 0x17) by lia.
    destruct Hcases as [->|[->|[->|[->|[->|[->|[->| ->]]]]]]];
      vm_compute in Hrule; injection Hrule as <-;
      eexists; (split; [reflexivity|]).
    + apply _decode_digital_input_sizes.
    + apply _decode_digital_output_sizes.
    + apply _decode_relay_event_sizes.
    + apply _decode_pressure_sizes.
    + apply _decode_system_error_sizes.
    + apply _decode_safety_event_sizes.
    + apply _decode_system_status_sizes.
    + apply _decode_sequence_event_sizes.
  - exfalso. revert Hrule. unfold size_rules. cbn [list_to_map foldr fst snd].
    rewrite !lookup_insert_ne by lia. rewrite lookup_empty. discriminate.
Qed.

(** X9. What [decode_message] does with a frame of a known type, once the size
    byte is the buffer length, is decided by the length of the payload alone.
    Under the size of the type the dictionary is returned with payload [None]
    and no counter but [messages_received] moves; at the size (and above it
    for Pressure and System Error) the dictionary carries the decoded payload
    and [messages_decoded] grows by one; above the size of the other types the
    handler's [struct.error] is caught, printed as the last line, counted as a
    decode error, and [None] is returned. *)
Theorem decode_message_by_payload_size
  (data : list byte) (type : Z) (rule : SizeRule) (w : World) :
  7 <= len data →
  index data 0 = Returns (len data) →
  index data 1 = Returns type →
  size_rules !! type = Some rule →
  ∃ w' result,
    decode_message data w = (w', Returns result)
    ∧ match expected rule (len data - 7) with
      | NoPayload =>
          (∃ m, result = Some m ∧ msg_payload m = None)
          ∧ messages_decoded (self w') = messages_decoded (self w)
          ∧ decode_errors (self w') = decode_errors (self w)
      | Decoded =>
          (∃ m p, result = Some m ∧ msg_payload m = Some p)
          ∧ messages_decoded (self w') = messages_decoded (self w) + 1
          ∧ decode_errors (self w') = decode_errors (self w)
      | Raised e =>
          result = None
          ∧ messages_decoded (self w') = messages_decoded (self w)
          ∧ decode_errors (self w') = decode_errors (self w) + 1
          ∧ last (stdout w') = Some (ErrorDecodeException e)
      end.
Proof.
  intros Hlong Hsize Htype Hrule.
  destruct (framed_inv data Hlong)
    as (b0 & b1 & b2 & t0 & t1 & t2 & t3 & payload & ->).
  injection Hsize as Hsize. injection Htype as <-.
  destruct (size_rules_cases _ _ Hrule) as (handler & Hhandler & Hobserved).
  destruct (decode_message_accepted b0 b1 b2 t0 t1 t2 t3 payload w Hsize)
    as (w1 & report & _ & _ & Hd & He & ->).
  rewrite Hhandler.
  replace (len (b0 :: b1 :: b2 :: t0 :: t1 :: t2 :: t3 :: payload) - 7)
    with (len payload) by (rewrite !len_cons; lia).
  rewrite <- Hobserved.
  destruct (handler payload) as [[p|]|e]; cbn [observed];
    eexists _, _; (split; [reflexivity|]); cbn [self stdout messages_decoded decode_errors].
  - split; [eauto|]. split; lia.
  - split; [eauto|]. split; lia.
  - split; [reflexivity|]. split; [lia|]. split; [lia|]. apply last_snoc.
Qed.

Lemma decode_message_by_payload_size_witness :
  let data :=
    Fixtures.frame [0x0C; 0x10; 0x01; 0x4E; 0x61; 0xBC; 0x00;
                    0x06; 0x16; 0x0A; 0x01; 0x02] in
  ∃ w' result,
    decode_message data Fixtures.fresh = (w', Returns result)
    ∧ result = None
    ∧ messages_decoded (self w') = messages_decoded (self Fixtures.fresh)
    ∧ decode_errors (self w') = decode_errors (self Fixtures.fresh) + 1
    ∧ last (stdout w') = Some (ErrorDecodeException StructError).
Proof.
  intros data.
  apply (decode_message_by_payload_size data 0x10 (ExactSize 4) Fixtures.fresh).
  - vm_compute. discriminate.
  - reflexivity.
  - reflexivity.
  - reflexivity.
Defined.

End FramesOfKnownTypes.

(** ** The flags bytes *)

Section FlagBytes.
Import Decoder Flags.

(** X10. The fields decoded from the flags byte of a Digital-Input,
    Digital-Output, Relay-Event, Pressure or System-Status payload give the
    byte back: together the masks of each handler cover its eight bits, and no
    two fields share one. *)
Theorem flags_recovered_from_fields (flags : byte) :
  (∀ pin low high : byte,
     ∃ p, _decode_digital_input [pin; flags; low; high] = Returns (Some (PDigitalInput p))
          ∧ byte_val flags
            = bit (di_state p) + 2 * bit (di_is_debounced p) + 4 * di_input_type p)
  ∧ (∀ pin reserved : byte,
       ∃ p, _decode_digital_output [pin; flags; reserved]
              = Returns (Some (PDigitalOutput p))
            ∧ byte_val flags
              = bit (do_state p) + 2 * do_output_type p + 16 * do_mill_lamp_pattern p)
  ∧ (∀ relay_number reserved : byte,
       ∃ p, _decode_relay_event [relay_number; flags; reserved]
              = Returns (Some (PRelayEvent p))
            ∧ byte_val flags
              = bit (re_state p) + 2 * bit (re_is_manual p) + 4 * bit (re_success p)
                + 8 * re_relay_type p)
  ∧ (∀ sensor_pin r0 r1 f0 f1 f2 f3 : byte,
       ∃ p, _decode_pressure [sensor_pin; flags; r0; r1; f0; f1; f2; f3]
              = Returns (Some (PPressure p))
            ∧ byte_val flags = bit (pr_is_fault p) + 2 * pr_pressure_type p)
  ∧ (∀ u0 u1 u2 u3 l0 l1 m0 m1 errors r0 r1 : byte,
       ∃ p, _decode_system_status [u0; u1; u2; u3; l0; l1; m0; m1; errors; flags; r0; r1]
              = Returns (Some (PSystemStatus p))
            ∧ byte_val flags
              = bit (ss_safety_active p) + 2 * bit (ss_estop_active p)
                + 4 * ss_sequence_state p + 64 * ss_mill_lamp_pattern p).
Proof.
  repeat split; intros; (eexists; split; [reflexivity|]);
    cbn [di_state di_is_debounced di_input_type
         do_state do_output_type do_mill_lamp_pattern
         re_state re_is_manual re_success re_relay_type
         pr_is_fault pr_pressure_type
         ss_safety_active ss_estop_active ss_sequence_state ss_mill_lamp_pattern];
    destruct flags; reflexivity.
Qed.

End FlagBytes.

(** ** The stream verifier on every buffer *)

Section VerifierStream.
Import Verify VerifyStream.

Lemma type_cases (t : Z) :
  t = 0x10 ∨ t = 0x11 ∨ t = 0x12 ∨ t = 0x13 ∨ t = 0x14 ∨ t = 0x15 ∨ t = 0x16
  ∨ t = 0x17 ∨ ¬ (0x10 <= t <= 0x17).
Proof. lia. Qed.

Lemma VALID_MESSAGE_TYPES_unknown (t : Z) :
  ¬ (0x10 <= t <= 0x17) → VALID_MESSAGE_TYPES !! t = None.
Proof.
  intros Hout. unfold VALID_MESSAGE_TYPES. cbn [list_to_map foldr fst snd].
  rewrite !lookup_insert_ne by lia. apply lookup_empty.
Qed.

Lemma EXPECTED_PAYLOAD_SIZES_unknown (t : Z) :
  ¬ (0x10 <= t <= 0x17) → EXPECTED_PAYLOAD_SIZES !! t = None.
Proof.
  intros Hout. unfold EXPECTED_PAYLOAD_SIZES. cbn [list_to_map foldr fst snd].
  rewrite !lookup_insert_ne by lia. apply lookup_empty.
Qed.

(** The two tables of the verifier have the same keys. *)
Lemma verifier_tables_same_keys (t : Z) :
  is_Some (VALID_MESSAGE_TYPES !! t) ↔ is_Some (EXPECTED_PAYLOAD_SIZES !! t).
Proof.
  destruct (type_cases t) as [->|[->|[->|[->|[->|[->|[->|[->|Hout]]]]]]]];
    try solve [split; intros _; vm_compute; eauto].
  rewrite VALID_MESSAGE_TYPES_unknown, EXPECTED_PAYLOAD_SIZES_unknown by exact Hout.
  split; intros [? ?]; discriminate.
Qed.

(** Every expected payload size lies between 3 and 27 bytes. *)
Lemma expected_payload_size_bounds (t : Z) (expected : Expected) (n : Z) :
  EXPECTED_PAYLOAD_SIZES !! t = Some expected → fits expected n = true →
  3 <= n <= 27.
Proof.
  intros Hexp Hfits.
  destruct (type_cases t) as [->|[->|[->|[->|[->|[->|[->|[->|Hout]]]]]]]];
    try solve [vm_compute in Hexp; injection Hexp as <-; cbn [fits] in Hfits; lia].
  rewrite EXPECTED_PAYLOAD_SIZES_unknown in Hexp by exact Hout. discriminate.
Qed.

(** What [validate_message] returns: it never raises; a valid result has no
    issue, a known type and a payload size that fits the table; an invalid
    one has exactly one issue, and a type is recorded with it only when the
    issue is about the type (unknown) or the payload size (type known). *)
Lemma validate_message_outcome (data : list byte) :
  ∃ result,
    validate_message data = Returns result
    ∧ (valid result = true ↔
         index data 0 = Returns (len data - 1)
         ∧ ∃ t expected,
             index data 1 = Returns t
             ∧ EXPECTED_PAYLOAD_SIZES !! t = Some expected
             ∧ fits expected (len data - 7) = true)
    ∧ (valid result = true →
         issues result = []
         ∧ ∃ t name, msg_type result = Some t ∧ VALID_MESSAGE_TYPES !! t = Some name)
    ∧ (valid result = false →
         ∃ issue, issues result = [issue]
           ∧ match msg_type result with
             | None => True
             | Some t =>
                 if mentions_size issue then is_Some (VALID_MESSAGE_TYPES !! t)
                 else VALID_MESSAGE_TYPES !! t = None
             end).
Proof.
  unfold validate_message.
  destruct (Z.ltb_spec (len data) 7) as [Hshort|Hlong].
  { eexists. split; [reflexivity|]. cbn [valid issues msg_type].
    split; [|split; [discriminate|intros _; eexists; split; [reflexivity|exact I]]].
    split; [discriminate|].
    intros (_ & t & expected & _ & Hexp & Hfits).
    pose proof (expected_payload_size_bounds t expected _ Hexp Hfits). lia. }
  destruct (framed_inv data Hlong)
    as (b0 & b1 & b2 & t0 & t1 & t2 & t3 & payload & ->).
  set (data := b0 :: b1 :: b2 :: t0 :: t1 :: t2 :: t3 :: payload) in *.
  replace (index data 0) with (Returns (byte_val b0)) by reflexivity.
  replace (index data 1) with (Returns (byte_val b1)) by reflexivity.
  replace (index data 2) with (Returns (byte_val b2)) by reflexivity.
  unfold mbind, Outcome_bind, mret, Outcome_ret. cbv beta iota.
  assert (Hrefute : ∀ P : Prop,
    (∀ expected, byte_val b0 = len data - 1 →
       EXPECTED_PAYLOAD_SIZES !! byte_val b1 = Some expected →
       fits expected (len data - 7) = true → 3 <= len data - 7 <= 27 → P) →
    (Returns (byte_val b0) = Returns (len data - 1)
     ∧ ∃ t expected, Returns (byte_val b1) = Returns t
         ∧ EXPECTED_PAYLOAD_SIZES !! t = Some expected
         ∧ fits expected (len data - 7) = true) → P).
  { intros P HP (Hsize & t & expected & Ht & Hexp & Hfits).
    injection Hsize as Hsize. injection Ht as <-.
    apply (HP expected Hsize Hexp Hfits).
    exact (expected_payload_size_bounds _ _ _ Hexp Hfits). }
  destruct (Z.eqb_spec (byte_val b0 + 1) (len data)) as [Heq|Hne]; cbn [negb].
  2:{ eexists. split; [reflexivity|]. cbn [valid issues msg_type].
      split; [|split; [discriminate|intros _; eexists; split; [reflexivity|exact I]]].
      split; [discriminate|]. apply Hrefute. intros; lia. }
  destruct (Z.ltb_spec 33 (byte_val b0)).
  { eexists. split; [reflexivity|]. cbn [valid issues msg_type].
    split; [|split; [discriminate|intros _; eexists; split; [reflexivity|exact I]]].
    split; [discriminate|]. apply Hrefute. intros; lia. }
  destruct (Z.ltb_spec (byte_val b0) 9).
  { eexists. split; [reflexivity|]. cbn [valid issues msg_type].
    split; [|split; [discriminate|intros _; eexists; split; [reflexivity|exact I]]].
    split; [discriminate|]. apply Hrefute. intros; lia. }
  destruct (VALID_MESSAGE_TYPES !! byte_val b1) as [name|] eqn:Hvalid.
  2:{ rewrite bool_decide_eq_false_2 by (intros [? ?]; discriminate).
      eexists. split; [reflexivity|]. cbn [valid issues msg_type negb].
      split; [|split; [discriminate|]].
      - split; [discriminate|]. apply Hrefute. intros expected _ Hexp _ _.
        assert (Hsome : is_Some (VALID_MESSAGE_TYPES !! byte_val b1))
          by (apply verifier_tables_same_keys; eauto).
        rewrite Hvalid in Hsome. destruct Hsome; discriminate.
      - intros _. eexists. split; [reflexivity|]. cbn [mentions_size]. exact Hvalid. }
  rewrite bool_decide_eq_true_2 by eauto. cbn [negb].
  destruct (proj1 (verifier_tables_same_keys (byte_val b1))) as [expected Hexp];
    [eauto|].
  rewrite Hexp.
  change (match expected with
          | Exactly n => byte_val b0 - 6 =? n
          | Range lo hi => (lo <=? byte_val b0 - 6) && (byte_val b0 - 6 <? hi)
          end) with (fits expected (byte_val b0 - 6)).
  replace (byte_val b0 - 6) with (len data - 7) by lia.
  destruct (fits expected (len data - 7)) eqn:Hfits; cbn [negb].
  - eexists. split; [reflexivity|]. cbn [valid issues msg_type].
    split; [|split; [|discriminate]].
    + split; [intros _|reflexivity].
      split; [f_equal; lia|]. exists (byte_val b1), expected. auto.
    + intros _. split; [reflexivity|]. eauto.
  - eexists. split; [reflexivity|]. cbn [valid issues msg_type].
    split; [|split; [discriminate|]].
    + split; [discriminate|]. apply Hrefute. intros expected' _ Hexp' Hfits' _.
      congruence.
    + intros _. eexists. split; [reflexivity|]. cbn [mentions_size]. eauto.
Qed.

(** X11. [validate_message] returns on every buffer. The result is valid
    exactly when the size byte is the buffer length minus one and the payload
    (the buffer less its seven header bytes) has a size the table accepts for
    the type byte: the two bounds on the struct size never decide. A valid
    result carries no issue and a buffer of 10 to 34 bytes; an invalid one
    carries exactly one issue. *)
Theorem validate_message_valid_iff (data : list byte) :
  ∃ result,
    validate_message data = Returns result
    ∧ (valid result = true ↔
         index data 0 = Returns (len data - 1)
         ∧ ∃ t expected,
             index data 1 = Returns t
             ∧ EXPECTED_PAYLOAD_SIZES !! t = Some expected
             ∧ fits expected (len data - 7) = true)
    ∧ (valid result = true → issues result = [] ∧ 10 <= len data <= 34)
    ∧ (valid result = false → ∃ issue, issues result = [issue]).
Proof.
  destruct (validate_message_outcome data) as (result & Hret & Hiff & Hvalid & Hinvalid).
  exists result. split; [exact Hret|]. split; [exact Hiff|]. split.
  - intros Hv. split; [apply Hvalid, Hv|].
    destruct (proj1 Hiff Hv) as (_ & t & expected & _ & Hexp & Hfits).
    pose proof (expected_payload_size_bounds t expected _ Hexp Hfits). lia.
  - intros Hv. destruct (Hinvalid Hv) as (issue & Hissue & _). eauto.
Qed.

(** *** The statistics of [on_message] *)
Lemma Counter_total_incr {K} `{Countable K} (key : K) (counter : gmap K Z) :
  Counter_total (Counter_incr key counter) = Counter_total counter + 1.
Proof.
  unfold Counter_total, Counter_incr.
  destruct (counter !! key) as [n|] eqn:Hkey; cbn [default].
  - rewrite (map_fold_delete_L _ _ key n counter); [|intros; lia|exact Hkey].
    rewrite <- (insert_delete_eq counter).
    rewrite map_fold_insert_L; [unfold id; lia|intros; lia|apply lookup_delete_eq].
  - rewrite map_fold_insert_L; [unfold id; lia|intros; lia|exact Hkey].
Qed.

(** One message: the callback returns, and moves the counters together. *)
Lemma on_message_counters (data : list byte) (s : Stats) :
  ∃ s',
    on_message data s = (s', Returns tt)
    ∧ total_messages s' = total_messages s + 1
    ∧ valid_messages s' + malformed s' = valid_messages s + malformed s + 1
    ∧ valid_messages s <= valid_messages s'
    ∧ invalid_type s <= invalid_type s'
    ∧ invalid_size s <= invalid_size s'
    ∧ (invalid_type s' - invalid_type s) + (invalid_size s' - invalid_size s)
      <= malformed s' - malformed s
    ∧ Counter_total (message_types s') - valid_messages s'
      = Counter_total (message_types s) - valid_messages s
    ∧ Counter_total (invalid_types_seen s') - invalid_type s'
      = Counter_total (invalid_types_seen s) - invalid_type s.
Proof.
  unfold on_message.
  destruct (validate_message_outcome data) as (result & -> & _ & Hvalid & Hinvalid).
  destruct (valid result).
  - destruct (Hvalid eq_refl) as (_ & t & name & -> & Hname).
    cbn [mbind option_bind]. rewrite Hname.
    eexists. split; [reflexivity|]. cbn.
    rewrite Counter_total_incr. repeat split; lia.
  - destruct (Hinvalid eq_refl) as (issue & -> & Htype).
    cbn [existsb orb].
    destruct (msg_type result) as [t|].
    + destruct (mentions_size issue).
      * rewrite bool_decide_eq_true_2 by exact Htype. cbn [negb].
        eexists. split; [reflexivity|]. cbn. repeat split; lia.
      * rewrite bool_decide_eq_false_2
          by (rewrite Htype; intros [? ?]; discriminate).
        cbn [negb]. eexists. split; [reflexivity|]. cbn.
        rewrite Counter_total_incr. repeat split; lia.
    + destruct (mentions_size issue);
        eexists; (split; [reflexivity|]); cbn; repeat split; lia.
Qed.

(** A stream: the same, message after message. *)
Lemma on_messages_counters (stream : list (list byte)) (s : Stats) :
  ∃ s',
    on_messages stream s = (s', Returns tt)
    ∧ total_messages s' = total_messages s + len stream
    ∧ valid_messages s' + malformed s' = valid_messages s + malformed s + len stream
    ∧ valid_messages s <= valid_messages s'
    ∧ invalid_type s <= invalid_type s'
    ∧ invalid_size s <= invalid_size s'
    ∧ (invalid_type s' - invalid_type s) + (invalid_size s' - invalid_size s)
      <= malformed s' - malformed s
    ∧ Counter_total (message_types s') - valid_messages s'
      = Counter_total (message_types s) - valid_messages s
    ∧ Counter_total (invalid_types_seen s') - invalid_type s'
      = Counter_total (invalid_types_seen s) - invalid_type s.
Proof.
  revert s. induction stream as [|data rest IH]; intros s.
  - exists s. cbn [on_messages]. unfold len. cbn. repeat split; lia.
  - cbn [on_messages].
    destruct (on_message_counters data s)
      as (s1 & -> & H1 & H2 & H3 & H4 & H5 & H6 & H7 & H8).
    destruct (IH s1) as (s2 & -> & I1 & I2 & I3 & I4 & I5 & I6 & I7 & I8).
    exists s2. split; [reflexivity|]. rewrite len_cons. repeat split; lia.
Qed.

(** X12. Over any stream the callback never raises, and the statistics it
    keeps add up: every message is counted once, as valid or as malformed; the
    invalid-type and invalid-size counts are disjoint parts of the malformed
    count; the two [Counter]s sum to the valid and the invalid-type counts. *)
Theorem on_message_statistics (stream : list (list byte)) :
  ∃ s,
    on_messages stream stats = (s, Returns tt)
    ∧ total_messages s = len stream
    ∧ total_messages s = valid_messages s + malformed s
    ∧ 0 <= valid_messages s
    ∧ 0 <= invalid_type s
    ∧ 0 <= invalid_size s
    ∧ invalid_type s + invalid_size s <= malformed s
    ∧ Counter_total (message_types s) = valid_messages s
    ∧ Counter_total (invalid_types_seen s) = invalid_type s.
Proof.
  destruct (on_messages_counters stream stats)
    as (s & Hrun & H1 & H2 & H3 & H4 & H5 & H6 & H7 & H8).
  exists s. split; [exact Hrun|].
  change (Counter_total (message_types stats)) with 0 in H7.
  change (Counter_total (invalid_types_seen stats)) with 0 in H8.
  cbn in H1, H2, H3, H4, H5, H6, H7, H8. repeat split; lia.
Qed.

(** *** The verifier and the decoder *)

(** X13. A payload whose size the verifier's table accepts for a type is
    decoded by the decoder's handler for that type. *)
Theorem verified_payload_is_decoded
  (t : Z) (expected : Expected) (payload : list byte) :
  EXPECTED_PAYLOAD_SIZES !! t = Some expected →
  fits expected (len payload) = true →
  ∃ handler p,
    Decoder.message_handlers !! t = Some handler
    ∧ handler payload = Returns (Some p).
Proof.
  intros Hexp Hfits.
  destruct (type_cases t) as [->|[->|[->|[->|[->|[->|[->|[->|Hout]]]]]]]];
    [..|rewrite EXPECTED_PAYLOAD_SIZES_unknown in Hexp by exact Hout; discriminate];
    vm_compute in Hexp; injection Hexp as <-; cbn [fits] in Hfits.
  - destruct (observed_decoded (Decoder._decode_digital_input payload)) as [p Hp].
    { rewrite _decode_digital_input_sizes. cbn [HandlerSizes.expected].
      destruct (Z.ltb_spec (len payload) 4); [lia|]. rewrite Hfits. reflexivity. }
    eexists _, p. split; [reflexivity|exact Hp].
  - destruct (observed_decoded (Decoder._decode_digital_output payload)) as [p Hp].
    { rewrite _decode_digital_output_sizes. cbn [HandlerSizes.expected].
      destruct (Z.ltb_spec (len payload) 3); [lia|]. rewrite Hfits. reflexivity. }
    eexists _, p. split; [reflexivity|exact Hp].
  - destruct (observed_decoded (Decoder._decode_relay_event payload)) as [p Hp].
    { rewrite _decode_relay_event_sizes. cbn [HandlerSizes.expected].
      destruct (Z.ltb_spec (len payload) 3); [lia|]. rewrite Hfits. reflexivity. }
    eexists _, p. split; [reflexivity|exact Hp].
  - destruct (observed_decoded (Decoder._decode_pressure payload)) as [p Hp].
    { rewrite _decode_pressure_sizes. cbn [HandlerSizes.expected].
      destruct (Z.ltb_spec (len payload) 8); [lia|]. reflexivity. }
    eexists _, p. split; [reflexivity|exact Hp].
  - destruct (observed_decoded (Decoder._decode_system_error payload)) as [p Hp].
    { rewrite _decode_system_error_sizes. cbn [HandlerSizes.expected].
      destruct (Z.ltb_spec (len payload) 3); [lia|]. reflexivity. }
    eexists _, p. split; [reflexivity|exact Hp].
  - destruct (observed_decoded (Decoder._decode_safety_event payload)) as [p Hp].
    { rewrite _decode_safety_event_sizes. cbn [HandlerSizes.expected].
      destruct (Z.ltb_spec (len payload) 3); [lia|]. rewrite Hfits. reflexivity. }
    eexists _, p. split; [reflexivity|exact Hp].
  - destruct (observed_decoded (Decoder._decode_system_status payload)) as [p Hp].
    { rewrite _decode_system_status_sizes. cbn [HandlerSizes.expected].
      destruct (Z.ltb_spec (len payload) 12); [lia|]. rewrite Hfits. reflexivity. }
    eexists _, p. split; [reflexivity|exact Hp].
  - destruct (observed_decoded (Decoder._decode_sequence_event payload)) as [p Hp].
    { rewrite _decode_sequence_event_sizes. cbn [HandlerSizes.expected].
      destruct (Z.ltb_spec (len payload) 4); [lia|]. rewrite Hfits. reflexivity. }
    eexists _, p. split; [reflexivity|exact Hp].
Qed.

(** A six-byte System-Error payload, inside the verifier's range of 3 to 27
    bytes. *)
Lemma verified_payload_is_decoded_witness :
  ∃ handler p,
    Decoder.message_handlers !! 0x14 = Some handler
    ∧ handler (Fixtures.B <$> [0x01; 0x02; 0x03; 0x46; 0x41; 0x49]) = Returns (Some p).
Proof.
  apply (verified_payload_is_decoded 0x14 (Range 3 28)); reflexivity.
Defined.

(** X14. No buffer is both turned into a dictionary by [decode_message] and
    valid for [validate_message]: the first wants the size byte to be the
    buffer length, the second the buffer length minus one. *)
Theorem decoded_buffer_is_not_valid
  (data : list byte) (w w' : Decoder.World) (m : Decoder.Message) (result : Result) :
  Decoder.decode_message data w = (w', Returns (Some m)) →
  validate_message data = Returns result →
  valid result = false.
Proof.
  intros Hdec Hval.
  destruct (decode_message_accepts_only_inclusive_size data w w' m Hdec)
    as (Hlong & Hsize & _).
  destruct (validate_message_length_contract data Hlong)
    as (declared & result' & Hdeclared & Hval' & Hvalid & _).
  rewrite Hval in Hval'. injection Hval' as <-.
  rewrite Hsize in Hdeclared. injection Hdeclared as <-.
  destruct (valid result); [|reflexivity].
  specialize (Hvalid eq_refl). lia.
Qed.

(** The Digital-Output frame with its size byte set to the whole length,
    10: decoded, and refused by the verifier. *)
Lemma decoded_buffer_is_not_valid_witness :
  ∃ result,
    validate_message
      (Fixtures.frame [0x0A; 0x11; 0x02; 0x4E; 0x61; 0xBC; 0x00; 0x09; 0x03; 0x00])
    = Returns result
    ∧ valid result = false.
Proof.
  eexists. split; [vm_compute; reflexivity|].
  eapply (decoded_buffer_is_not_valid
            (Fixtures.frame [0x0A; 0x11; 0x02; 0x4E; 0x61; 0xBC; 0x00; 0x09; 0x03; 0x00])
            Fixtures.fresh).
  - vm_compute. reflexivity.
  - vm_compute. reflexivity.
Defined.

End VerifierStream.

(** ** The exchanges of the dashboard *)

Section DashboardExchanges.
Import Dashboard.
Import PrimFloat.

(** The clamped score is never under the 0.6 threshold of
    [_analyze_exchange_window]. *)
Lemma clamp_not_rejected (several any_sequence any_relay : bool) :
  (ClassifierSpec.clamp 0.6 1.0
     (0.8 - (if several then 0.2 else 0.0)
          + (if any_sequence then 0.2 else 0.0)
          + (if any_relay then 0.2 else 0.0)) <? 0.6)%float = false.
Proof. destruct several, any_sequence, any_relay; vm_compute; reflexivity. Qed.

(** The window around an ACTIVE signal of the list is accepted. *)
Lemma active_press_window_accepted
  (conn : Connection) (all_operator_events : list Event) (e : Event) :
  e ∈ all_operator_events → is_active e = true →
  ∃ x,
    _analyze_exchange_window conn (timestamp e - seconds 10) (timestamp e + seconds 20)
      all_operator_events = Some x
    ∧ start_time x = timestamp e - seconds 10
    ∧ end_time x = timestamp e + seconds 20
    ∧ duration x = seconds 30
    ∧ e ∈ operator_signals x
    ∧ operator_signals x =
        filter (fun e' => (timestamp e - seconds 10 <= timestamp e'
                           <= timestamp e + seconds 20)%Z) all_operator_events.
Proof.
  intros Hin Hactive. unfold _analyze_exchange_window.
  set (start := (timestamp e - seconds 10)%Z).
  set (stop := (timestamp e + seconds 20)%Z).
  set (signals := filter (fun e => (start <= timestamp e <= stop)%Z) all_operator_events).
  assert (He : e ∈ signals).
  { apply list_elem_of_filter. split; [|exact Hin].
    subst start stop. unfold seconds. lia. }
  assert (Hne : signals ≠ []) by (intros Heq; rewrite Heq in He; inversion He).
  rewrite bool_decide_eq_false_2 by exact Hne.
  assert (Hact : filter (fun s => is_active s = true) signals ≠ []).
  { intros Heq.
    assert (Hin' : e ∈ filter (fun s => is_active s = true) signals)
      by (apply list_elem_of_filter; split; assumption).
    rewrite Heq in Hin'. inversion Hin'. }
  rewrite (calculate_confidence_clamped signals _ _ Hact).
  rewrite clamp_not_rejected.
  eexists. split; [reflexivity|]. cbn.
  repeat split; try exact He. subst start stop. unfold seconds. lia.
Qed.

(** X15. Every ACTIVE operator signal gives exactly one exchange, in the order
    of the signals, from 10 s before it to 20 s after it and 30 s long: the
    confidence threshold of [_analyze_exchange_window] never removes a window
    that [_identify_exchange_windows] made. *)
Theorem every_active_signal_is_an_exchange
  (conn : Connection) (operator_events : list Event) :
  (fun x => (start_time x, end_time x, duration x)) <$>
    analyze_windows conn operator_events
  = (fun e => (timestamp e - seconds 10, timestamp e + seconds 20, seconds 30)%Z) <$>
      filter (fun e => is_active e = true) operator_events.
Proof.
  unfold analyze_windows.
  enough (Hgen : ∀ events,
            (∀ e, e ∈ events → e ∈ operator_events) →
            (fun x => (start_time x, end_time x, duration x)) <$>
              omap (fun '(start_time, end_time) =>
                      _analyze_exchange_window conn start_time end_time operator_events)
                   (_identify_exchange_windows events)
            = (fun e => (timestamp e - seconds 10, timestamp e + seconds 20,
                         seconds 30)%Z) <$>
                filter (fun e => is_active e = true) events)
    by (apply Hgen; auto).
  induction events as [|e events IH]; intros Hsub; [reflexivity|].
  cbn [_identify_exchange_windows]. rewrite filter_cons.
  assert (Hrest : ∀ e', e' ∈ events → e' ∈ operator_events)
    by (intros e' He'; apply Hsub; right; exact He').
  destruct (is_active e) eqn:Hactive.
  - rewrite decide_True by reflexivity.
    destruct (active_press_window_accepted conn operator_events e)
      as (x & Hx & Hs & He & Hd & _); [apply Hsub; left|exact Hactive|].
    cbn [omap list_omap]. rewrite Hx. cbn [fmap list_fmap].
    rewrite Hs, He, Hd. f_equal. apply IH, Hrest.
  - rewrite decide_False by discriminate. apply IH, Hrest.
Qed.

End DashboardExchanges.

(** ** Overlapping windows *)

Section OverlappingWindows.

Lemma archived_windows_of_two_signals
  (self : Archived.BasketExchangeAnalyzer) (a1 a2 : Archived.Event) :
  Archived.is_active_operator_signal a1 = true →
  Archived.is_active_operator_signal a2 = true →
  seconds (Archived.operator_signal_timeout self)
    < Archived.timestamp a2 - Archived.timestamp a1 →
  Archived._identify_exchange_windows self [a1; a2] =
    Returns [(Archived.timestamp a1 - seconds 30, Archived.timestamp a1 + seconds 120);
             (Archived.timestamp a2 - seconds 30, Archived.timestamp a2 + seconds 120)].
Proof.
  intros H1 H2 Hgap.
  unfold Archived._identify_exchange_windows. cbn [Archived.scan_events].
  replace (Archived.scan_event self Archived.scan_start a1)
    with (Returns {| Archived.current_window_start := Some (Archived.timestamp a1);
                     Archived.last_signal_time := Some (Archived.timestamp a1);
                     Archived.windows := [] |})
    by (unfold Archived.scan_event; rewrite H1; reflexivity).
  cbn [mbind Outcome_bind].
  rewrite (scan_event_open self _ _ _ a2 H2).
  destruct (Z.leb_spec (Archived.timestamp a2 - Archived.timestamp a1)
              (seconds (Archived.operator_signal_timeout self))); [lia|].
  reflexivity.
Qed.

Lemma dashboard_windows_of_two_presses (p1 p2 : Dashboard.Event) :
  Dashboard.is_active p1 = true →
  Dashboard.is_active p2 = true →
  Dashboard._identify_exchange_windows [p1; p2] =
    [(Dashboard.timestamp p1 - seconds 10, Dashboard.timestamp p1 + seconds 20);
     (Dashboard.timestamp p2 - seconds 10, Dashboard.timestamp p2 + seconds 20)].
Proof. intros H1 H2. cbn. rewrite H1, H2. reflexivity. Qed.

(** The window of an ACTIVE signal of the list is among the windows. *)
Lemma dashboard_window_of_active_signal
  (operator_events : list Dashboard.Event) (e : Dashboard.Event) :
  e ∈ operator_events → Dashboard.is_active e = true →
  (Dashboard.timestamp e - seconds 10, Dashboard.timestamp e + seconds 20)
    ∈ Dashboard._identify_exchange_windows operator_events.
Proof.
  intros Hin Hactive.
  induction operator_events as [|e' events IH]; [inversion Hin|].
  cbn [Dashboard._identify_exchange_windows].
  apply elem_of_cons in Hin as [<-|Hin].
  - rewrite Hactive. left.
  - destruct (Dashboard.is_active e'); [right|]; apply IH, Hin.
Qed.

(** The exchange of an ACTIVE signal of the list is among the exchanges,
    whatever the database returns, and its operator signals are the events of
    the list that lie in the window. *)
Lemma dashboard_exchange_of_active_signal
  (conn : Dashboard.Connection) (operator_events : list Dashboard.Event)
  (e : Dashboard.Event) :
  e ∈ operator_events → Dashboard.is_active e = true →
  ∃ x,
    x ∈ Dashboard.analyze_windows conn operator_events
    ∧ Dashboard.start_time x = Dashboard.timestamp e - seconds 10
    ∧ Dashboard.end_time x = Dashboard.timestamp e + seconds 20
    ∧ Dashboard.operator_signals x =
        filter (fun e' => Dashboard.timestamp e - seconds 10 <= Dashboard.timestamp e'
                          <= Dashboard.timestamp e + seconds 20) operator_events.
Proof.
  intros Hin Hactive.
  destruct (active_press_window_accepted conn operator_events e Hin Hactive)
    as (x & Hx & Hstart & Hend & _ & _ & Hsignals).
  exists x. split; [|auto].
  unfold Dashboard.analyze_windows. apply list_elem_of_omap.
  exists (Dashboard.timestamp e - seconds 10, Dashboard.timestamp e + seconds 20).
  split; [apply dashboard_window_of_active_signal; assumption|exact Hx].
Qed.

(** C10. Emitted windows need not be disjoint.  With the 60 s timeout, two
    active operator signals more than 60 s and less than 150 s apart give two
    distinct windows of the inactivity-timeout identifier, the first ending at
    the first signal + 120 s, after the second one's start at the second
    signal - 30 s, and an event whose time lies in the overlap is among the
    events of both windows.  Two active presses less than 30 s apart give two
    overlapping windows [t - 10 s, t + 20 s] of the per-press identifier,
    distinct when the presses are at different times; both become exchanges,
    whatever the database returns, and an operator event whose time lies in
    the overlap is among the operator signals of both. *)
Theorem emitted_windows_overlap
  (self : Archived.BasketExchangeAnalyzer) (a1 a2 : Archived.Event)
  (p1 p2 : Dashboard.Event) :
  Archived.operator_signal_timeout self = 60 →
  Archived.is_active_operator_signal a1 = true →
  Archived.is_active_operator_signal a2 = true →
  seconds 60 < Archived.timestamp a2 - Archived.timestamp a1 < seconds 150 →
  Dashboard.is_active p1 = true →
  Dashboard.is_active p2 = true →
  Z.abs (Dashboard.timestamp p2 - Dashboard.timestamp p1) < seconds 30 →
  (∃ first second,
     Archived._identify_exchange_windows self [a1; a2] = Returns [first; second]
     ∧ first = (Archived.timestamp a1 - seconds 30, Archived.timestamp a1 + seconds 120)
     ∧ second = (Archived.timestamp a2 - seconds 30, Archived.timestamp a2 + seconds 120)
     ∧ first ≠ second
     ∧ fst second < snd first
     ∧ ∀ (events : list Archived.Event) (e : Archived.Event),
         e ∈ events →
         fst second <= Archived.timestamp e <= snd first →
         e ∈ Archived.window_events events first
         ∧ e ∈ Archived.window_events events second)
  ∧ (∃ first second,
       Dashboard._identify_exchange_windows [p1; p2] = [first; second]
       ∧ first = (Dashboard.timestamp p1 - seconds 10, Dashboard.timestamp p1 + seconds 20)
       ∧ second = (Dashboard.timestamp p2 - seconds 10, Dashboard.timestamp p2 + seconds 20)
       ∧ (Dashboard.timestamp p1 ≠ Dashboard.timestamp p2 → first ≠ second)
       ∧ Z.max (fst first) (fst second) < Z.min (snd first) (snd second)
       ∧ ∀ (conn : Dashboard.Connection) (operator_events : list Dashboard.Event),
           p1 ∈ operator_events →
           p2 ∈ operator_events →
           ∃ x1 x2,
             x1 ∈ Dashboard.analyze_windows conn operator_events
             ∧ x2 ∈ Dashboard.analyze_windows conn operator_events
             ∧ (Dashboard.start_time x1, Dashboard.end_time x1) = first
             ∧ (Dashboard.start_time x2, Dashboard.end_time x2) = second
             ∧ ∀ e : Dashboard.Event,
                 e ∈ operator_events →
                 Z.max (fst first) (fst second) <= Dashboard.timestamp e
                   <= Z.min (snd first) (snd second) →
                 e ∈ Dashboard.operator_signals x1
                 ∧ e ∈ Dashboard.operator_signals x2).
Proof.
  intros Htimeout Ha1 Ha2 Hgap Hp1 Hp2 Hclose.
  unfold seconds in *. split.
  - eexists _, _. split.
    { apply archived_windows_of_two_signals; try assumption.
      rewrite Htimeout. unfold seconds. lia. }
    unfold seconds. split; [reflexivity|]. split; [reflexivity|].
    split; [intros Heq; injection Heq; lia|].
    split; [cbn; lia|].
    intros events e He Htime. cbn in Htime. unfold Archived.window_events.
    split; apply list_elem_of_filter; (split; [cbn; lia|exact He]).
  - eexists _, _. split; [apply dashboard_windows_of_two_presses; assumption|].
    unfold seconds. split; [reflexivity|]. split; [reflexivity|].
    split; [intros Hne Heq; injection Heq; lia|].
    split; [cbn; lia|].
    intros conn operator_events Hin1 Hin2.
    destruct (dashboard_exchange_of_active_signal conn operator_events p1 Hin1 Hp1)
      as (x1 & Hx1 & Hs1 & He1 & Hsig1).
    destruct (dashboard_exchange_of_active_signal conn operator_events p2 Hin2 Hp2)
      as (x2 & Hx2 & Hs2 & He2 & Hsig2).
    exists x1, x2. unfold seconds in *.
    split; [exact Hx1|]. split; [exact Hx2|].
    split; [rewrite Hs1, He1; reflexivity|].
    split; [rewrite Hs2, He2; reflexivity|].
    intros e He Htime. cbn [fst snd] in Htime. rewrite Hsig1, Hsig2.
    split; apply list_elem_of_filter; (split; [lia|exact He]).
Qed.

(** Operator signals 100 s apart, and presses 15 s apart: the second press
    lies in the windows of both presses. *)
Lemma emitted_windows_overlap_witness :
  (∃ first second,
     Archived._identify_exchange_windows Archived.__init__
       [Fixtures.operator_signal 0; Fixtures.operator_signal (seconds 100)]
     = Returns [first; second]
     ∧ first = (0 - seconds 30, 0 + seconds 120)
     ∧ second = (seconds 100 - seconds 30, seconds 100 + seconds 120)
     ∧ fst second < snd first
     ∧ Archived.window_events [Fixtures.operator_signal (seconds 100)] first
       = [Fixtures.operator_signal (seconds 100)]
     ∧ Archived.window_events [Fixtures.operator_signal (seconds 100)] second
       = [Fixtures.operator_signal (seconds 100)])
  ∧ (∃ first second,
       Dashboard._identify_exchange_windows
         [Fixtures.button_press 0; Fixtures.button_press (seconds 15)]
       = [first; second]
       ∧ first = (0 - seconds 10, 0 + seconds 20)
       ∧ second = (seconds 15 - seconds 10, seconds 15 + seconds 20)
       ∧ first ≠ second
       ∧ Z.max (fst first) (fst second) < Z.min (snd first) (snd second)
       ∧ ∃ x1 x2,
           x1 ∈ Dashboard.analyze_windows (Fixtures.answers [] [])
                  [Fixtures.button_press 0; Fixtures.button_press (seconds 15)]
           ∧ x2 ∈ Dashboard.analyze_windows (Fixtures.answers [] [])
                    [Fixtures.button_press 0; Fixtures.button_press (seconds 15)]
           ∧ (Dashboard.start_time x1, Dashboard.end_time x1) = first
           ∧ (Dashboard.start_time x2, Dashboard.end_time x2) = second
           ∧ Fixtures.button_press (seconds 15) ∈ Dashboard.operator_signals x1
           ∧ Fixtures.button_press (seconds 15) ∈ Dashboard.operator_signals x2).
Proof.
  destruct (emitted_windows_overlap Archived.__init__
              (Fixtures.operator_signal 0) (Fixtures.operator_signal (seconds 100))
              (Fixtures.button_press 0) (Fixtures.button_press (seconds 15)))
    as [(a & b & Hwin & Ha & Hb & _ & Hov & _)
        (c & d & Hwin' & Hc & Hd & Hdistinct & Hov' & Hboth)].
  - reflexivity.
  - reflexivity.
  - reflexivity.
  - vm_compute. split; reflexivity.
  - reflexivity.
  - reflexivity.
  - vm_compute. reflexivity.
  - split.
    + exists a, b. repeat (split; [assumption|]). subst a b. split; reflexivity.
    + exists c, d. repeat (split; [assumption|]).
      split; [apply Hdistinct; vm_compute; discriminate|].
      split; [exact Hov'|].
      destruct (Hboth (Fixtures.answers [] [])
                  [Fixtures.button_press 0; Fixtures.button_press (seconds 15)])
        as (x1 & x2 & Hx1 & Hx2 & Hw1 & Hw2 & Hmember); [left|right; left|].
      exists x1, x2. repeat (split; [assumption|]).
      apply Hmember; [right; left|]. subst c d. vm_compute.
      split; discriminate.
Defined.

End OverlappingWindows.


(** ** The archived analyzer *)

Section ArchivedClassifier.
Import Archived.
Import PrimFloat.

Lemma len_pos_cons {A} (x : A) (l : list A) : (0 <? len (x :: l))%Z = true.
Proof. rewrite len_cons. pose proof (len_nonneg l). apply Z.ltb_lt. lia. Qed.

Lemma classify_exchange_type
  (operator_signals sequence_events relay_events : list Event) :
  fst (_classify_exchange operator_signals sequence_events relay_events) =
    match sequence_events, relay_events with
    | [], [] => UNKNOWN
    | _ :: _, [] => SEQUENCE
    | [], _ :: _ => MANUAL
    | _ :: _, _ :: _ => MIXED
    end.
Proof.
  unfold _classify_exchange.
  destruct sequence_events as [|s seqs]; destruct relay_events as [|r relays];
    rewrite ?len_pos_cons; reflexivity.
Qed.

(** A score of 0.6 or more needs a SPLITTER_OPERATOR signal and something
    with it. *)
Lemma classify_exchange_accepted
  (operator_signals sequence_events relay_events : list Event) :
  let operator_count :=
    len (filter (fun e => payload e !! "input_type_name" = Some (JStr "SPLITTER_OPERATOR"))
           operator_signals) in
  (0.6 <=? snd (_classify_exchange operator_signals sequence_events relay_events))%float
    = true →
  (1 <= operator_count)%Z
  ∧ (sequence_events ≠ [] ∨ relay_events ≠ [] ∨ (2 <= operator_count)%Z).
Proof.
  intros operator_count. unfold _classify_exchange. fold operator_count.
  destruct (Z.leb_spec 1 operator_count) as [H1|H1];
    destruct (Z.leb_spec 2 operator_count) as [H2|H2]; try lia;
    destruct sequence_events as [|s seqs]; destruct relay_events as [|r relays];
    rewrite ?len_pos_cons; change (0 <? len [])%Z with false;
    intros Hc; try discriminate Hc;
    (split; [lia|]);
    first [right; right; lia|left; discriminate|right; left; discriminate].
Qed.

(** X16. The archived classifier scores a window at 0.6 or more exactly when
    it holds a SPLITTER_OPERATOR signal together with a sequence event, a
    relay event or a second such signal; the score lies between 0.0 and 1.0;
    the type is read off the sequence and relay events alone. *)
Theorem archived_classify_exchange_accepts
  (operator_signals sequence_events relay_events : list Event) :
  let operator_count :=
    len (filter (fun e => payload e !! "input_type_name" = Some (JStr "SPLITTER_OPERATOR"))
           operator_signals) in
  let result := _classify_exchange operator_signals sequence_events relay_events in
  ((0.6 <=? snd result)%float = true ↔
     (1 <= operator_count)%Z
     ∧ (sequence_events ≠ [] ∨ relay_events ≠ [] ∨ (2 <= operator_count)%Z))
  ∧ (0.0 <=? snd result)%float = true
  ∧ (snd result <=? 1.0)%float = true
  ∧ fst result =
      match sequence_events, relay_events with
      | [], [] => UNKNOWN
      | _ :: _, [] => SEQUENCE
      | [], _ :: _ => MANUAL
      | _ :: _, _ :: _ => MIXED
      end.
Proof.
  intros operator_count result.
  split; [split; [apply classify_exchange_accepted|]|].
  - subst result. unfold _classify_exchange. fold operator_count.
    intros [Hop Hany].
    destruct (Z.leb_spec 1 operator_count) as [H1|H1]; [|lia].
    destruct (Z.leb_spec 2 operator_count) as [H2|H2];
      destruct sequence_events as [|s seqs]; destruct relay_events as [|r relays];
      rewrite ?len_pos_cons; change (0 <? len [])%Z with false;
      try reflexivity.
    destruct Hany as [Hany|[Hany|Hany]]; [contradiction|contradiction|lia].
  - split; [|split; [|apply classify_exchange_type]];
      subst result; unfold _classify_exchange; fold operator_count;
      destruct (1 <=? operator_count)%Z, (2 <=? operator_count)%Z;
      destruct sequence_events as [|s seqs]; destruct relay_events as [|r relays];
      rewrite ?len_pos_cons; reflexivity.
Qed.

End ArchivedClassifier.

Section IdentifiedWindows.
Variables inactivity_timeout pre_pad post_pad : Z.

(** A window starts at the padded start of a trigger, or of the window that
    was open, and ends at the padded time of a trigger, or of the last
    trigger of the window that was open. *)
Lemma identify_shape (triggers : list Z) :
  ∀ (open : option WindowSpec.OpenWindow) (w : Z * Z),
    w ∈ WindowSpec.identify inactivity_timeout pre_pad post_pad open triggers →
    ((∃ s, s ∈ triggers ∧ fst w = s - pre_pad)
     ∨ (∃ o, open = Some o ∧ fst w = WindowSpec.start o))
    ∧ ((∃ l, l ∈ triggers ∧ snd w = l + post_pad)
       ∨ (∃ o, open = Some o ∧ snd w = WindowSpec.last_trigger o + post_pad)).
Proof.
  induction triggers as [|t rest IH]; intros open w Hw.
  - destruct open as [o|]; cbn in Hw; [|inversion Hw].
    apply list_elem_of_singleton in Hw. subst w. split; right; eauto.
  - assert (Hfresh :
      w ∈ WindowSpec.identify inactivity_timeout pre_pad post_pad (Some {| WindowSpec.start := t - pre_pad;
                            WindowSpec.last_trigger := t |}) rest →
      ((∃ s, s ∈ t :: rest ∧ fst w = s - pre_pad)
       ∨ (∃ o, open = Some o ∧ fst w = WindowSpec.start o))
      ∧ ((∃ l, l ∈ t :: rest ∧ snd w = l + post_pad)
         ∨ (∃ o, open = Some o ∧ snd w = WindowSpec.last_trigger o + post_pad))).
    { intros Hin. destruct (IH _ _ Hin) as [Hs Hl]. split.
      - left. destruct Hs as [(s & Hs & Heq)|(o & Ho & Heq)].
        + exists s. split; [right; exact Hs|exact Heq].
        + injection Ho as <-. exists t. split; [left|exact Heq].
      - left. destruct Hl as [(l & Hl & Heq)|(o & Ho & Heq)].
        + exists l. split; [right; exact Hl|exact Heq].
        + injection Ho as <-. exists t. split; [left|exact Heq]. }
    destruct open as [o|]; cbn [WindowSpec.identify] in Hw; [|exact (Hfresh Hw)].
    destruct (inactivity_timeout <? t - WindowSpec.last_trigger o).
    + apply elem_of_cons in Hw as [->|Hw]; [|exact (Hfresh Hw)].
      split; right; exists o; split; reflexivity.
    + destruct (IH _ _ Hw) as [Hs Hl]. split.
      * destruct Hs as [(s & Hs & Heq)|(o' & Ho & Heq)].
        -- left. exists s. split; [right; exact Hs|exact Heq].
        -- injection Ho as <-. right. exists o. split; [reflexivity|exact Heq].
      * left. destruct Hl as [(l & Hl & Heq)|(o' & Ho & Heq)].
        -- exists l. split; [right; exact Hl|exact Heq].
        -- injection Ho as <-. exists t. split; [left|exact Heq].
Qed.

(** At most one window per trigger, plus the open one; an open window is
    always emitted. *)
Lemma identify_length (triggers : list Z) :
  ∀ open : option WindowSpec.OpenWindow,
    (length (WindowSpec.identify inactivity_timeout pre_pad post_pad open triggers)
     <= length triggers + (match open with Some _ => 1 | None => 0 end))%nat
    ∧ (open ≠ None → WindowSpec.identify inactivity_timeout pre_pad post_pad open triggers ≠ []).
Proof.
  induction triggers as [|t rest IH]; intros open.
  - destruct open; cbn; split; (lia || congruence).
  - destruct open as [o|]; cbn [WindowSpec.identify length].
    + destruct (inactivity_timeout <? t - WindowSpec.last_trigger o).
      * destruct (IH (Some {| WindowSpec.start := t - pre_pad;
                              WindowSpec.last_trigger := t |})) as [Hlen _].
        cbn [length]. split; [lia|discriminate].
      * destruct (IH (Some {| WindowSpec.start := WindowSpec.start o;
                              WindowSpec.last_trigger := t |})) as [Hlen Hne].
        split; [lia|intros _; apply Hne; discriminate].
    + destruct (IH (Some {| WindowSpec.start := t - pre_pad;
                            WindowSpec.last_trigger := t |})) as [Hlen _].
      split; [lia|congruence].
Qed.

(** With the triggers in time order, and the open window (if any) opened and
    last extended no later than them: every window spans at least the two
    pads, every trigger lies between the first and the last trigger of a
    window, and so does the last trigger of the open window. *)
Lemma identify_sorted (triggers : list Z) :
  ∀ open : option WindowSpec.OpenWindow,
    StronglySorted Z.le triggers →
    (∀ o, open = Some o →
          WindowSpec.start o + pre_pad <= WindowSpec.last_trigger o
          ∧ Forall (Z.le (WindowSpec.last_trigger o)) triggers) →
    (∀ w, w ∈ WindowSpec.identify inactivity_timeout pre_pad post_pad open triggers → pre_pad + post_pad <= snd w - fst w)
    ∧ (∀ t, t ∈ triggers →
            ∃ w, w ∈ WindowSpec.identify inactivity_timeout pre_pad post_pad open triggers
                 ∧ fst w + pre_pad <= t <= snd w - post_pad)
    ∧ (∀ o, open = Some o →
            ∃ w, w ∈ WindowSpec.identify inactivity_timeout pre_pad post_pad open triggers
                 ∧ fst w = WindowSpec.start o
                 ∧ WindowSpec.last_trigger o <= snd w - post_pad).
Proof.
  induction triggers as [|t rest IH]; intros open Hsorted Hopen.
  - destruct open as [o|]; cbn [WindowSpec.identify].
    + destruct (Hopen o eq_refl) as [Hstart _].
      split; [|split].
      * intros w Hw. apply list_elem_of_singleton in Hw. subst w.
        unfold WindowSpec.close. cbn. lia.
      * intros t Ht. inversion Ht.
      * intros o' Ho. injection Ho as <-. exists (WindowSpec.close post_pad o).
        split; [left|]. unfold WindowSpec.close. cbn. lia.
    + split; [|split].
      * intros w Hw. inversion Hw.
      * intros t Ht. inversion Ht.
      * intros o Ho. discriminate.
  - apply StronglySorted_inv in Hsorted as [Hsorted Hfirst].
    set (fresh := {| WindowSpec.start := t - pre_pad; WindowSpec.last_trigger := t |}).
    assert (Hfresh : ∀ o, Some fresh = Some o →
              WindowSpec.start o + pre_pad <= WindowSpec.last_trigger o
              ∧ Forall (Z.le (WindowSpec.last_trigger o)) rest).
    { intros o Ho. injection Ho as <-. cbn. split; [lia|exact Hfirst]. }
    destruct (IH (Some fresh) Hsorted Hfresh) as (Fwide & Fall & Fopen).
    destruct (Fopen fresh eq_refl) as (wf & Hwf & Hwf_start & Hwf_last).
    cbn [WindowSpec.start WindowSpec.last_trigger fresh] in Hwf_start, Hwf_last.
    destruct open as [o|]; cbn [WindowSpec.identify]; fold fresh.
    + destruct (Hopen o eq_refl) as [Hstart Hlast].
      apply Forall_cons in Hlast as [Hlast_t Hlast_rest].
      destruct (inactivity_timeout <? t - WindowSpec.last_trigger o).
      * split; [|split].
        -- intros w Hw. apply elem_of_cons in Hw as [->|Hw]; [|exact (Fwide w Hw)].
           unfold WindowSpec.close. cbn. lia.
        -- intros t' Ht'. apply elem_of_cons in Ht' as [->|Ht'].
           ++ exists wf. split; [right; exact Hwf|lia].
           ++ destruct (Fall t' Ht') as (w & Hw & Hcov).
              exists w. split; [right; exact Hw|exact Hcov].
        -- intros o' Ho. injection Ho as <-. exists (WindowSpec.close post_pad o).
           split; [left|]. unfold WindowSpec.close. cbn. lia.
      * set (extended := {| WindowSpec.start := WindowSpec.start o;
                            WindowSpec.last_trigger := t |}).
        assert (Hext : ∀ o', Some extended = Some o' →
                  WindowSpec.start o' + pre_pad <= WindowSpec.last_trigger o'
                  ∧ Forall (Z.le (WindowSpec.last_trigger o')) rest).
        { intros o' Ho. injection Ho as <-. cbn. split; [lia|exact Hfirst]. }
        destruct (IH (Some extended) Hsorted Hext) as (Ewide & Eall & Eopen).
        destruct (Eopen extended eq_refl) as (we & Hwe & Hwe_start & Hwe_last).
        cbn [WindowSpec.start WindowSpec.last_trigger extended] in Hwe_start, Hwe_last.
        split; [exact Ewide|split].
        -- intros t' Ht'. apply elem_of_cons in Ht' as [->|Ht'].
           ++ exists we. split; [exact Hwe|lia].
           ++ exact (Eall t' Ht').
        -- intros o' Ho. injection Ho as <-. exists we.
           split; [exact Hwe|]. split; [exact Hwe_start|lia].
    + split; [exact Fwide|split].
      * intros t' Ht'. apply elem_of_cons in Ht' as [->|Ht'].
        -- exists wf. split; [exact Hwf|lia].
        -- exact (Fall t' Ht').
      * intros o Ho. discriminate.
Qed.

End IdentifiedWindows.

Section ArchivedWindows.
Import Archived.

(** X17. [_identify_exchange_windows] never raises, emits no window exactly
    when there is no active operator signal, never more windows than such
    signals, and every window runs from 30 s before one of them to 120 s after
    one of them. *)
Theorem identified_windows_shape
  (self : BasketExchangeAnalyzer) (operator_events : list Event) :
  ∃ windows,
    _identify_exchange_windows self operator_events = Returns windows
    ∧ (windows = [] ↔ trigger_times operator_events = [])
    ∧ (length windows <= length (trigger_times operator_events))%nat
    ∧ ∀ w, w ∈ windows →
        ∃ first last,
          first ∈ trigger_times operator_events
          ∧ last ∈ trigger_times operator_events
          ∧ w = (first - seconds 30, last + seconds 120).
Proof.
  eexists. split; [apply _identify_exchange_windows_refines|].
  set (timeout := seconds (operator_signal_timeout self)).
  split; [|split].
  - split.
    + intros Hnil. destruct (trigger_times operator_events) as [|t rest]; [reflexivity|].
      exfalso. cbn [WindowSpec.identify] in Hnil.
      exact (proj2 (identify_length timeout (seconds 30) (seconds 120) rest (Some _))
               ltac:(discriminate) Hnil).
    + intros ->. reflexivity.
  - pose proof (proj1 (identify_length timeout (seconds 30) (seconds 120)
                         (trigger_times operator_events) None)) as Hlen.
    cbv iota in Hlen. lia.
  - intros [a b] Hw.
    destruct (identify_shape timeout (seconds 30) (seconds 120) _ None _ Hw)
      as [[(s & Hs & Hfst)|(o & Ho & _)] [(l & Hl & Hsnd)|(o' & Ho' & _)]];
      try discriminate.
    cbn in Hfst, Hsnd. subst a b. eauto.
Qed.

(** X18. When the active operator signals come in time order, as the query of
    [analyze_basket_exchanges] returns them, every window is at least 150 s
    long and every active operator signal lies between the first and the last
    signal of one of the windows. *)
Theorem sorted_signals_are_covered
  (self : BasketExchangeAnalyzer) (operator_events : list Event) :
  StronglySorted Z.le (trigger_times operator_events) →
  ∃ windows,
    _identify_exchange_windows self operator_events = Returns windows
    ∧ (∀ w, w ∈ windows → seconds 150 <= snd w - fst w)
    ∧ (∀ t, t ∈ trigger_times operator_events →
            ∃ w, w ∈ windows ∧ fst w + seconds 30 <= t <= snd w - seconds 120).
Proof.
  intros Hsorted.
  eexists. split; [apply _identify_exchange_windows_refines|].
  destruct (identify_sorted (seconds (operator_signal_timeout self))
              (seconds 30) (seconds 120) (trigger_times operator_events) None Hsorted)
    as (Hwide & Hall & _); [discriminate|].
  split; [|exact Hall].
  intros w Hw. specialize (Hwide w Hw). unfold seconds in *. lia.
Qed.

(** Signals at 0 s, 60 s and 200 s. *)
Lemma sorted_signals_are_covered_witness :
  ∃ windows,
    _identify_exchange_windows __init__
      [Fixtures.operator_signal 0; Fixtures.operator_signal (seconds 60);
       Fixtures.operator_signal (seconds 200)] = Returns windows
    ∧ (∀ w, w ∈ windows → seconds 150 <= snd w - fst w)
    ∧ (∀ t, t ∈ trigger_times
                  [Fixtures.operator_signal 0; Fixtures.operator_signal (seconds 60);
                   Fixtures.operator_signal (seconds 200)] →
            ∃ w, w ∈ windows ∧ fst w + seconds 30 <= t <= snd w - seconds 120).
Proof.
  apply (sorted_signals_are_covered __init__).
  replace (trigger_times _) with [0; seconds 60; seconds 200]
    by (vm_compute; reflexivity).
  unfold seconds. repeat constructor; lia.
Defined.

End ArchivedWindows.

Section ArchivedDetection.
Import Archived ArchivedDetect.
Import PrimFloat.

(** X19. With the events in time order, as [analyze_basket_exchanges] reads
    them, [_detect_exchanges] returns, and every exchange it returns is at
    least 150 s long (the 30 s minimum never decides) and at most the maximum,
    holds an active operator signal, and holds with it a sequence event, a
    relay event or a second SPLITTER_OPERATOR signal. *)
Theorem detected_exchanges_are_corroborated
  (self : BasketExchangeAnalyzer) (events : list Event) :
  StronglySorted Z.le
    (trigger_times (filter (fun e => type e = "DIGITAL_INPUT") events)) →
  ∃ exchanges,
    _detect_exchanges self events = Returns exchanges
    ∧ ∀ x, x ∈ exchanges →
        (seconds 150 <= duration_seconds x <= seconds (max_exchange_duration self))%Z
        ∧ duration_seconds x = (end_time x - start_time x)%Z
        ∧ (∃ e, e ∈ operator_signals x ∧ is_active_operator_signal e = true)
        ∧ (sequence_events x ≠ [] ∨ relay_events x ≠ []
           ∨ (2 <= len (filter (fun e => payload e !! "input_type_name"
                                          = Some (JStr "SPLITTER_OPERATOR"))
                          (operator_signals x)))%Z).
Proof.
  intros Hsorted. unfold _detect_exchanges.
  rewrite _identify_exchange_windows_refines.
  eexists. split; [reflexivity|].
  intros x Hx. apply list_elem_of_omap in Hx as ([a b] & Hw & Hsome).
  set (operator_events := filter (fun e => type e = "DIGITAL_INPUT") events) in *.
  set (timeout := seconds (operator_signal_timeout self)) in *.
  destruct (identify_sorted timeout (seconds 30) (seconds 120)
              (trigger_times operator_events) None Hsorted)
    as (Hwide & _ & _); [discriminate|].
  specialize (Hwide _ Hw). cbn [fst snd] in Hwide.
  destruct (identify_shape timeout (seconds 30) (seconds 120) _ None _ Hw)
    as [[(s & Hs & Hfst)|(o & Ho & _)] _]; [|discriminate].
  cbn [fst] in Hfst.
  unfold trigger_times in Hs. apply list_elem_of_fmap in Hs as (e & -> & He).
  apply list_elem_of_filter in He as [Hactive He].
  apply list_elem_of_filter in He as [Htype He].
  unfold detect_window in Hsome.
  set (in_window := window_events events (a, b)) in *.
  set (signals := filter (fun e => type e = "DIGITAL_INPUT") in_window) in *.
  set (seqs := filter (fun e => type e = "SEQUENCE_EVENT") in_window) in *.
  set (relays := filter (fun e => type e = "RELAY_EVENT") in_window) in *.
  pose proof (classify_exchange_accepted signals seqs relays) as Haccepted.
  destruct (_classify_exchange signals seqs relays) as [kind score].
  cbn [snd] in Haccepted.
  destruct (0.6 <=? score)%float; [|discriminate].
  destruct (Z.leb_spec (seconds (min_exchange_duration self)) (b - a));
    [|discriminate].
  destruct (Z.leb_spec (b - a) (seconds (max_exchange_duration self)));
    [|discriminate].
  injection Hsome as <-. cbn.
  destruct (Haccepted eq_refl) as [_ Hany].
  split; [unfold seconds in *; lia|]. split; [reflexivity|]. split; [|exact Hany].
  exists e. split; [|exact Hactive].
  apply list_elem_of_filter. split; [exact Htype|].
  apply list_elem_of_filter. split; [|exact He].
  cbn [fst snd]. unfold seconds in *. lia.
Qed.

(** Two operator signals 200 s apart and a sequence event after the first. *)
Lemma detected_exchanges_are_corroborated_witness :
  let events :=
    [Fixtures.operator_signal 0;
     {| timestamp := seconds 5; type := "SEQUENCE_EVENT"; payload := ∅ |};
     Fixtures.operator_signal (seconds 200)] in
  ∃ exchanges,
    _detect_exchanges __init__ events = Returns exchanges
    ∧ ∀ x, x ∈ exchanges →
        (seconds 150 <= duration_seconds x <= seconds (max_exchange_duration __init__))%Z
        ∧ duration_seconds x = (end_time x - start_time x)%Z
        ∧ (∃ e, e ∈ operator_signals x ∧ is_active_operator_signal e = true)
        ∧ (sequence_events x ≠ [] ∨ relay_events x ≠ []
           ∨ (2 <= len (filter (fun e => payload e !! "input_type_name"
                                          = Some (JStr "SPLITTER_OPERATOR"))
                          (operator_signals x)))%Z).
Proof.
  intros events. apply (detected_exchanges_are_corroborated __init__ events).
  replace (trigger_times _) with [0%Z; seconds 200] by (vm_compute; reflexivity).
  unfold seconds. repeat constructor; lia.
Defined.

End ArchivedDetection.

(** ** From the flags byte to the analyzers *)

Section OperatorPress.
Import Decoder Telemetry.

Lemma digital_input_dict_lookups (p : DigitalInput) :
  digital_input_dict p !! "state" = Some (JBool (di_state p))
  ∧ digital_input_dict p !! "state_name" = Some (JStr (di_state_name p))
  ∧ digital_input_dict p !! "input_type_name" = Some (JStr (di_input_type_name p)).
Proof. repeat split; vm_compute; reflexivity. Qed.

(** The flags bytes that carry input type 7 with the state bit set. *)
Lemma operator_flags (flags : byte) :
  (_get_input_type_name (Z.land (Z.shiftr (byte_val flags) 2) 0x3F) = "SPLITTER_OPERATOR"
   ↔ Z.land (Z.shiftr (byte_val flags) 2) 0x3F = 7)
  ∧ (Z.land (Z.shiftr (byte_val flags) 2) 0x3F = 7 ∧ bit_set (byte_val flags) 0x01 = true
     ↔ byte_val flags = 0x1D ∨ byte_val flags = 0x1F).
Proof.
  destruct flags; vm_compute; (split; split); intros H;
    first [reflexivity | discriminate H | tauto
          | destruct H as [H1 H2]; discriminate
          | destruct H as [H|H]; discriminate | auto].
Qed.

(** X20. A four-byte Digital-Input payload, decoded and stored, is read by the
    dashboard as an ACTIVE signal exactly when bit 0 of its flags byte is set,
    carries the name SPLITTER_OPERATOR exactly when bits 2 to 7 hold 7, and is
    an active operator signal for the archived analyzer exactly when its flags
    byte is 0x1D or 0x1F. *)
Theorem operator_press_flags (pin flags low high : byte) (t : Z) :
  ∃ p,
    _decode_digital_input [pin; flags; low; high] = Returns (Some (PDigitalInput p))
    ∧ (Dashboard.is_active
         {| Dashboard.timestamp := t; Dashboard.payload := digital_input_dict p |} = true
       ↔ Z.odd (byte_val flags) = true)
    ∧ (digital_input_dict p !! "input_type_name" = Some (JStr "SPLITTER_OPERATOR")
       ↔ Z.land (Z.shiftr (byte_val flags) 2) 0x3F = 7)
    ∧ (Archived.is_active_operator_signal
         {| Archived.timestamp := t; Archived.type := "DIGITAL_INPUT";
            Archived.payload := digital_input_dict p |} = true
       ↔ byte_val flags = 0x1D ∨ byte_val flags = 0x1F).
Proof.
  eexists. split; [reflexivity|].
  match goal with |- context [digital_input_dict ?p] => set (record := p) end.
  destruct (digital_input_dict_lookups record) as (Hstate & Hname & Htype).
  destruct (operator_flags flags) as [Hseven Hboth].
  unfold Dashboard.is_active, Archived.is_active_operator_signal.
  cbn [Dashboard.payload Archived.payload].
  rewrite Hstate, Hname, Htype.
  subst record. cbn [di_state di_state_name di_input_type_name].
  assert (Hbit : bit_set (byte_val flags) 0x01 = Z.odd (byte_val flags)).
  { destruct flags; reflexivity. }
  split; [|split].
  - rewrite Hbit. destruct (Z.odd (byte_val flags)); split; intros H;
      first [reflexivity|discriminate H|vm_compute in H; discriminate H].
  - rewrite <- Hseven. split; [intros H; injection H as H; exact H|intros ->; reflexivity].
  - rewrite <- Hboth, <- Hseven. rewrite andb_true_iff, !bool_decide_eq_true.
    split.
    + intros [Hn Hs]. injection Hn as Hn. injection Hs as Hs. auto.
    + intros [Hn Hs]. rewrite Hn, Hs. auto.
Qed.

End OperatorPress.
